(** * timeday_frontend: identifier codec and multi-account cookie store

    A shallow embedding of [src/utils/IdUtils.js], [src/utils/UserUtils.js],
    [src/main/Cookie.js] and the storage interface of
    [src/utils/storageUtils.js] (Part I), and the properties proved about
    them (Part II).

    Conventions.
    - A JavaScript string is a [string]; an [ascii] stands for one code unit.
    - A JavaScript number is [NaN] or an integer ([Num z]); the programs only
      ever compute with small integers, so no rounding is involved.
    - [null] is [None] where a [string | null] is returned, and [JsNull]
      where any value may be.
    - A call that can raise returns a [Completion].
    - The cookie jar is passed in and handed back: a function that writes
      cookies returns the jar it leaves.  So is [localStorage].
    - The sources write the name and the value of a cookie without encoding
      them.  A property that depends on what the browser makes of them is
      stated for the names and values that it keeps as they are given.
    - [Math.random()] and [new Date().toISOString()] are given to the
      functions that call them: the draws as a sequence, the time as the
      text it is written as. *)

From Stdlib Require Import ZArith List Bool Lia String Ascii.
From Stdlib Require Import QArith Qround.
From Stdlib Require Decimal DecimalString DecimalN DecimalZ.
From Stdlib Require Hexadecimal HexadecimalString.
Import ListNotations.

Set Warnings "-register-all".
Local Open Scope string_scope.
Local Open Scope Z_scope.

(* ================================================================== *)
(** * Part I. The embedding                                            *)
(* ================================================================== *)

(** ** The JavaScript runtime, as far as the sources use it *)

Module Js.

Inductive JsNumber : Type :=
| NaN
| Num (z : Z).

(** Values.  An array keeps its elements apart from the named properties that
    an assignment [a.p = v] may add to it. *)
Inductive JsVal : Type :=
| JsUndefined
| JsNull
| JsBool (b : bool)
| JsNum (n : JsNumber)
| JsStr (s : string)
| JsObj (props : list (string * JsVal))
| JsArr (elems : list JsVal) (props : list (string * JsVal)).

Inductive Completion (A : Type) : Type :=
| Return (a : A)
| Throw (error : string).

Arguments Return {A} a.
Arguments Throw {A} error.

Definition bind {A B : Type} (c : Completion A) (k : A -> Completion B)
  : Completion B :=
  match c with
  | Return a => k a
  | Throw e => Throw e
  end.

Definition TypeError : string := "TypeError".

(** [ToBoolean]. *)
Definition truthy (v : JsVal) : bool :=
  match v with
  | JsUndefined | JsNull => false
  | JsBool b => b
  | JsNum NaN => false
  | JsNum (Num z) => negb (z =? 0)
  | JsStr s => negb (String.eqb s "")
  | JsObj _ | JsArr _ _ => true
  end.

(** Truthiness of a [string | null]. *)
Definition truthy_str (o : option string) : bool :=
  match o with
  | Some s => negb (String.eqb s "")
  | None => false
  end.

(** [v === b] for a boolean [b]. *)
Definition strict_eq_bool (v : JsVal) (b : bool) : bool :=
  match v with
  | JsBool b' => Bool.eqb b' b
  | _ => false
  end.

(** [v === s] for a string [s]. *)
Definition strict_eq_str (v : JsVal) (s : string) : bool :=
  match v with
  | JsStr s' => String.eqb s' s
  | _ => false
  end.

(** The property [field] among the properties [props] of an object, or
    among those that an array has besides its elements; [undefined] when
    it is missing. *)
Fixpoint lookup_prop (field : string) (props : list (string * JsVal)) : JsVal :=
  match props with
  | [] => JsUndefined
  | (k, v) :: rest => if String.eqb k field then v else lookup_prop field rest
  end.

Fixpoint assign_prop (field : string) (v : JsVal) (props : list (string * JsVal))
  : list (string * JsVal) :=
  match props with
  | [] => [(field, v)]
  | (k, w) :: rest =>
      if String.eqb k field then (k, v) :: rest
      else (k, w) :: assign_prop field v rest
  end.

(** [o.field = v] in strict-mode code (every source file is an ES module):
    creating a property on a primitive raises a [TypeError]. *)
Definition set_prop (o : JsVal) (field : string) (v : JsVal) : Completion JsVal :=
  match o with
  | JsObj props => Return (JsObj (assign_prop field v props))
  | JsArr elems props => Return (JsArr elems (assign_prop field v props))
  | _ => Throw TypeError
  end.

(** *** Characters and numbers *)

Definition is_digit (c : ascii) : bool :=
  let n := N_of_ascii c in ((48 <=? n) && (n <=? 57))%N.

Definition digit_value (c : ascii) : Z := Z.of_N (N_of_ascii c) - 48.

(** [StrWhiteSpaceChar], restricted to one-byte code units. *)
Definition is_space (c : ascii) : bool :=
  let n := N_of_ascii c in
  (((9 <=? n) && (n <=? 13)) || (n =? 32) || (n =? 160))%N.

(** [Number(c)] for a one-character string [c], which is all that
    [split('').map(Number)] ever applies it to. *)
Definition Number_of_char (c : ascii) : JsNumber :=
  if is_digit c then Num (digit_value c)
  else if is_space c then Num 0
  else NaN.

Definition js_add (a b : JsNumber) : JsNumber :=
  match a, b with
  | Num x, Num y => Num (x + y)
  | _, _ => NaN
  end.

Definition js_sub (a b : JsNumber) : JsNumber :=
  match a, b with
  | Num x, Num y => Num (x - y)
  | _, _ => NaN
  end.

Definition js_mul (a b : JsNumber) : JsNumber :=
  match a, b with
  | Num x, Num y => Num (x * y)
  | _, _ => NaN
  end.

(** [a > b]: false as soon as one side is [NaN]. *)
Definition js_gt (a b : JsNumber) : bool :=
  match a, b with
  | Num x, Num y => y <? x
  | _, _ => false
  end.

(** [a % b]: the sign follows the dividend; [x % 0] is [NaN]. *)
Definition js_rem (a b : JsNumber) : JsNumber :=
  match a, b with
  | Num x, Num y => if y =? 0 then NaN else Num (Z.rem x y)
  | _, _ => NaN
  end.

(** [ToInt32]. *)
Definition ToInt32 (a : JsNumber) : Z :=
  match a with
  | NaN => 0
  | Num z => (z + 2 ^ 31) mod 2 ^ 32 - 2 ^ 31
  end.

(** [a ^ b]. *)
Definition js_xor (a b : JsNumber) : JsNumber :=
  Num (Z.lxor (ToInt32 a) (ToInt32 b)).

(** [String(n)] for an integer [n], in decimal. *)
Definition String_of_Z (z : Z) : string :=
  DecimalString.NilEmpty.string_of_int (Z.to_int z).

Definition String_of_number (n : JsNumber) : string :=
  match n with
  | NaN => "NaN"
  | Num z => String_of_Z z
  end.

Fixpoint repeat_char (c : ascii) (n : nat) : string :=
  match n with
  | O => EmptyString
  | S n' => String c (repeat_char c n')
  end.

(** [s.padStart(targetLength, c)] with a one-character filler. *)
Definition padStart (s : string) (targetLength : nat) (c : ascii) : string :=
  repeat_char c (targetLength - String.length s) ++ s.

(** [s.startsWith(p)]. *)
Definition startsWith (s p : string) : bool := String.prefix p s.

(** [s.slice(from, to)] and [s.substring(from, to)] for [0 <= from <= to];
    both clamp at the end of [s]. *)
Definition slice (s : string) (from to : nat) : string :=
  String.substring from (to - from) s.

(** [parts.join(sep)] *)
Fixpoint join (sep : string) (parts : list string) : string :=
  match parts with
  | [] => ""
  | [p] => p
  | p :: rest => p ++ sep ++ join sep rest
  end.

(** Method calls on a value that need not be a string. *)
Definition call_startsWith (v : JsVal) (p : string) : Completion bool :=
  match v with
  | JsStr s => Return (startsWith s p)
  | _ => Throw TypeError
  end.

Definition call_substring (v : JsVal) (from to : nat) : Completion string :=
  match v with
  | JsStr s => Return (slice s from to)
  | _ => Throw TypeError
  end.

(** *** [parseInt(s)] without a radix *)

Fixpoint skip_spaces (s : string) : string :=
  match s with
  | String c rest => if is_space c then skip_spaces rest else s
  | EmptyString => s
  end.

Fixpoint take_while (p : ascii -> bool) (s : string) : string :=
  match s with
  | String c rest => if p c then String c (take_while p rest) else EmptyString
  | EmptyString => EmptyString
  end.

(** The index that a property name stands for: a decimal numeral without
    a sign and without a zero in front. *)
Definition index_of (field : string) : option nat :=
  match field with
  | EmptyString => None
  | String c rest =>
      if String.eqb (take_while is_digit field) field
         && (negb (Ascii.eqb c "0") || String.eqb rest "")
      then
        Some (fold_left (fun n d => (10 * n + Z.to_nat (digit_value d))%nat)
                (list_ascii_of_string field) 0%nat)
      else None
  end.

(** [o[field]], where the caller has excluded [null] and [undefined].  An
    array has its [length] and its elements under their indices, a string
    its [length] and its characters; no other property is inherited: the
    values are data, and the names that the source reads are not those of
    methods. *)
Definition get_prop (o : JsVal) (field : string) : JsVal :=
  match o with
  | JsObj props => lookup_prop field props
  | JsArr elems props =>
      if String.eqb field "length"
      then JsNum (Num (Z.of_nat (List.length elems)))
      else
        match index_of field with
        | Some i =>
            match nth_error elems i with
            | Some element => element
            | None => lookup_prop field props
            end
        | None => lookup_prop field props
        end
  | JsStr s =>
      if String.eqb field "length"
      then JsNum (Num (Z.of_nat (String.length s)))
      else
        match index_of field with
        | Some i =>
            match String.get i s with
            | Some c => JsStr (String c "")
            | None => JsUndefined
            end
        | None => JsUndefined
        end
  | _ => JsUndefined
  end.

Definition is_hex_digit (c : ascii) : bool :=
  let n := N_of_ascii c in
  (((48 <=? n) && (n <=? 57)) || ((65 <=? n) && (n <=? 70))
   || ((97 <=? n) && (n <=? 102)))%N.

Definition decimal_prefix_value (s : string) : JsNumber :=
  match DecimalString.NilEmpty.uint_of_string (take_while is_digit s) with
  | Some Decimal.Nil | None => NaN
  | Some d => Num (Z.of_N (N.of_uint d))
  end.

(** Upper-case hexadecimal digits read as their lower-case forms. *)
Definition lower_hex (c : ascii) : ascii :=
  let n := N_of_ascii c in
  if ((65 <=? n) && (n <=? 70))%N then ascii_of_N (n + 32) else c.

Fixpoint map_string (f : ascii -> ascii) (s : string) : string :=
  match s with
  | String c rest => String (f c) (map_string f rest)
  | EmptyString => EmptyString
  end.

Definition hex_prefix_value (s : string) : JsNumber :=
  match HexadecimalString.NilEmpty.uint_of_string
          (map_string lower_hex (take_while is_hex_digit s)) with
  | Some Hexadecimal.Nil | None => NaN
  | Some d => Num (Z.of_N (N.of_hex_uint d))
  end.

(** A leading [0x] or [0X] selects radix 16. *)
Definition has_hex_marker (s : string) : bool :=
  match s with
  | String z (String x _) =>
      Ascii.eqb z "0" && (Ascii.eqb x "x" || Ascii.eqb x "X")
  | _ => false
  end.

Definition unsigned_prefix_value (s : string) : JsNumber :=
  if has_hex_marker s then hex_prefix_value (slice s 2 (String.length s))
  else decimal_prefix_value s.

Definition js_neg (a : JsNumber) : JsNumber :=
  match a with
  | NaN => NaN
  | Num z => Num (- z)
  end.

Definition parseInt (s : string) : JsNumber :=
  match skip_spaces s with
  | String c rest =>
      if Ascii.eqb c "-" then js_neg (unsigned_prefix_value rest)
      else if Ascii.eqb c "+" then unsigned_prefix_value rest
      else unsigned_prefix_value (String c rest)
  | EmptyString => NaN
  end.

End Js.

(** ** IdUtils: identifiers [xxyy-zzzz] *)

Module IdUtils.
Import Js.

Definition WEIGHTS : list JsNumber := [Num 3; Num 7; Num 11; Num 13].
Definition ADMIN_PREFIX : string := "00".
Definition USER_PREFIX_MIN : Z := 1.
Definition USER_PREFIX_MAX : Z := 99.

(** [(prefix + randomDigits).split('').map(Number)] *)
Definition allDigits_of (prefix randomDigits : string) : list JsNumber :=
  map Number_of_char (list_ascii_of_string (prefix ++ randomDigits)).

(** One step of the first loop: the digit at index [i] of an array of
    [len] entries. *)
Definition luhn_digit (len i : nat) (digit : JsNumber) : JsNumber :=
  if ((len - i) mod 2 =? 0)%nat then
    let digit := js_mul digit (Num 2) in
    if js_gt digit (Num 9) then js_sub digit (Num 9) else digit
  else digit.

(** [for (let i = allDigits.length - 1; i >= 0; i--)]; [k] is [i + 1]. *)
Fixpoint luhn_loop (allDigits : list JsNumber) (k : nat) (luhnSum : JsNumber)
  : JsNumber :=
  match k with
  | O => luhnSum
  | S i =>
      let digit := luhn_digit (List.length allDigits) i (nth i allDigits NaN) in
      luhn_loop allDigits i (js_add luhnSum digit)
  end.

(** [for (let i = 0; i < allDigits.length; i++)], walking the entries that
    remain from index [i] on. *)
Fixpoint weight_loop (remaining : list JsNumber) (i : nat) (weightSum : JsNumber)
  : JsNumber :=
  match remaining with
  | [] => weightSum
  | digit :: rest =>
      let w := nth (i mod List.length WEIGHTS)%nat WEIGHTS NaN in
      weight_loop rest (S i) (js_add weightSum (js_mul digit w))
  end.

(** [for (const digit of allDigits) xorResult ^= digit] *)
Definition xor_loop (allDigits : list JsNumber) : JsNumber :=
  fold_left js_xor allDigits (Num 0).

Definition calculateChecksum (prefix randomDigits : string) : string :=
  let allDigits := allDigits_of prefix randomDigits in
  let luhnSum := luhn_loop allDigits (List.length allDigits) (Num 0) in
  let weightSum := weight_loop allDigits 0 (Num 0) in
  let xorResult := xor_loop allDigits in
  let checksum :=
    js_rem (js_add (js_add luhnSum weightSum) xorResult) (Num 100) in
  padStart (String_of_number checksum) 2 "0".

(** [userId.match(/^(\d{2})(\d{2})-(\d{4})$/)]: the three groups. *)
Definition match_idPattern (userId : string) : option (string * string * string) :=
  match userId with
  | String a (String b (String c (String d (String h
      (String e (String f (String g (String i EmptyString)))))))) =>
      if is_digit a && is_digit b && is_digit c && is_digit d
         && Ascii.eqb h "-"
         && is_digit e && is_digit f && is_digit g && is_digit i
      then Some (String a (String b EmptyString),
                 String c (String d EmptyString),
                 String e (String f (String g (String i EmptyString))))
      else None
  | _ => None
  end.

Definition typeof_is_string (v : JsVal) : bool :=
  match v with
  | JsStr _ => true
  | _ => false
  end.

(** [userId.match(idPattern)]; calling it on anything but a string raises. *)
Definition call_match_idPattern (userId : JsVal)
  : Completion (option (string * string * string)) :=
  match userId with
  | JsStr s => Return (match_idPattern s)
  | _ => Throw TypeError
  end.

Definition validateUserId (userId : JsVal) : Completion bool :=
  if negb (truthy userId) || negb (typeof_is_string userId) then Return false
  else
    bind (call_match_idPattern userId) (fun matched =>
    match matched with
    | None => Return false
    | Some (prefix, providedChecksum, randomDigits) =>
        let calculatedChecksum := calculateChecksum prefix randomDigits in
        Return (String.eqb providedChecksum calculatedChecksum)
    end).

Definition isAdminId (userId : JsVal) : Completion bool :=
  bind (validateUserId userId) (fun valid =>
  if negb valid then Return false
  else call_startsWith userId ADMIN_PREFIX).

Definition getPrefix (userId : JsVal) : Completion (option string) :=
  bind (validateUserId userId) (fun valid =>
  if negb valid then Return None
  else bind (call_substring userId 0 2) (fun s => Return (Some s))).

Definition getRandomDigits (userId : JsVal) : Completion (option string) :=
  bind (validateUserId userId) (fun valid =>
  if negb valid then Return None
  else bind (call_substring userId 5 9) (fun s => Return (Some s))).

(** [Math.floor(Math.random() * n)] for a draw [r] of [Math.random()], a
    number with [0 <= r < 1].  The product is taken exactly; rounding it to
    a double does not take it out of the interval from 0 to [n]. *)
Definition floor_scaled (r : Q) (n : Z) : Z := Qfloor (r * inject_Z n).

(** [generateUserId(isAdmin)].  [random k] is the outcome of the [k]-th call
    of [Math.random()]; an administrator identifier consumes one draw, any
    other identifier two. *)
Definition generateUserId (isAdmin : bool) (random : nat -> Q) : string :=
  let prefix :=
    if isAdmin then ADMIN_PREFIX
    else padStart
           (String_of_Z
              (floor_scaled (random 0%nat) (USER_PREFIX_MAX - USER_PREFIX_MIN + 1)
               + USER_PREFIX_MIN))
           2 "0" in
  let draw := if isAdmin then random 0%nat else random 1%nat in
  let randomDigits := padStart (String_of_Z (floor_scaled draw 10000)) 4 "0" in
  let checksum := calculateChecksum prefix randomDigits in
  prefix ++ checksum ++ "-" ++ randomDigits.

(** *** The checksum as the specification words it *)

(** Doubling with the reduction by nine. *)
Definition doubled (d : Z) : Z := if 9 <? 2 * d then 2 * d - 9 else 2 * d.

(** Walking a list of digits given right-to-left; [second] tells whether the
    digit at hand is a second one. *)
Fixpoint luhn_walk (from_right : list Z) (second : bool) : Z :=
  match from_right with
  | [] => 0
  | d :: rest => (if second then doubled d else d) + luhn_walk rest (negb second)
  end.

Definition reference_luhnSum (d : list Z) : Z := luhn_walk (rev d) false.

Definition reference_weights : list Z := [3; 7; 11; 13].

Definition reference_weightSum (d : list Z) : Z :=
  fold_right Z.add 0
    (map (fun i => nth i d 0 * nth (i mod 4)%nat reference_weights 0)
       (seq 0 (List.length d))).

Definition reference_xorResult (d : list Z) : Z := fold_right Z.lxor 0 d.

Definition reference_checksum (prefix randomDigits : string) : string :=
  let d := map digit_value (list_ascii_of_string (prefix ++ randomDigits)) in
  let total := reference_luhnSum d + reference_weightSum d + reference_xorResult d in
  padStart (String_of_Z (total mod 100)) 2 "0".

(** A string of exactly [n] decimal digits. *)
Definition digit_string (n : nat) (s : string) : bool :=
  (String.length s =? n)%nat && forallb is_digit (list_ascii_of_string s).

End IdUtils.

(** ** UserUtils: integrity of a user record *)

Module UserUtils.
Import Js.

Definition requiredFields : list string := ["id"; "username"; "email"].

(** [typeof v === 'object'] *)
Definition typeof_is_object (v : JsVal) : bool :=
  match v with
  | JsNull | JsObj _ | JsArr _ _ => true
  | _ => false
  end.

Definition validateUserData (userData : JsVal) : Completion bool :=
  if negb (truthy userData) || negb (typeof_is_object userData) then Return false
  else if existsb (fun field => negb (truthy (get_prop userData field)))
            requiredFields
  then Return false
  else
    bind (IdUtils.validateUserId (get_prop userData "id")) (fun valid =>
    if negb valid then Return false
    else
      bind (IdUtils.isAdminId (get_prop userData "id")) (fun isAdminFromId =>
      if negb (strict_eq_bool (get_prop userData "isAdmin") isAdminFromId)
      then Return false
      else Return true)).

End UserUtils.

(** ** CookieUtils: the multi-account store *)

Module CookieUtils.
Import Js.

(** *** The cookie jar

    [document.cookie] belongs to the browser.  The jar behind it is the
    ordered list of its entries, oldest first.  Assigning
    [name=value;expires=...;path=/] replaces the value of the entry called
    [name] where it stands, or adds the entry at the end; an expiry that is
    not in the future removes the entry.  No limit is put on the size of an
    entry or on their number, and no time passes between two calls, so that
    an entry never expires on its own.

    The functions below take a name and a value as they are given.  The
    source writes both into the assignment without encoding them, and the
    browser takes the assignment apart at its first [';'] and its first
    ['=']: the section [DocumentCookie] below says what it keeps, which is
    the name and the value themselves when they are made of printable
    characters other than [';'] (and ['='] in a name) and have no blank at
    either end.

    [getCookie] is given here by what it finds in the jar; the section
    [DocumentCookie] follows its scan of the text of [document.cookie], and
    Part II shows that the two agree. *)
Definition Jar : Type := list (string * string).

Fixpoint jar_find (name : string) (jar : Jar) : option string :=
  match jar with
  | [] => None
  | (n, v) :: rest => if String.eqb n name then Some v else jar_find name rest
  end.

Fixpoint jar_put (name value : string) (jar : Jar) : Jar :=
  match jar with
  | [] => [(name, value)]
  | (n, v) :: rest =>
      if String.eqb n name then (n, value) :: rest
      else (n, v) :: jar_put name value rest
  end.

Definition jar_remove (name : string) (jar : Jar) : Jar :=
  filter (fun entry => negb (String.eqb (fst entry) name)) jar.

Definition setCookie (name value : string) (days : Z) (jar : Jar) : Jar :=
  if 0 <? days then jar_put name value jar else jar_remove name jar.

Definition getCookie (name : string) (jar : Jar) : option string :=
  jar_find name jar.

Definition deleteCookie (name : string) (jar : Jar) : Jar :=
  jar_remove name jar.

(** *** Entry names *)

(** [`${i}`] for an index. *)
Definition String_of_nat (i : nat) : string := String_of_Z (Z.of_nat i).

Definition userToken_name (username : string) : string :=
  "userToken_" ++ username.

Definition userData_name (username : string) : string :=
  "userData_" ++ username.

Definition userAvatar_name (username : string) : string :=
  "userAvatar_" ++ username.

Definition userAvatar_chunks_name (username : string) : string :=
  "userAvatar_" ++ username ++ "_chunks".

Definition userAvatar_chunk_name (username : string) (i : nat) : string :=
  "userAvatar_" ++ username ++ "_chunk_" ++ String_of_nat i.

(** *** Avatars *)

Definition chunkSize : nat := 3000.
Definition chunkThreshold : nat := 3500.
Definition chunkMarker : string := "chunked".

(** [for (let i = 0; i < avatarData.length; i += chunkSize)
      chunks.push(avatarData.slice(i, i + chunkSize))].
    Every round moves [i] forward, so [avatarData.length] rounds are enough. *)
Fixpoint split_loop (avatarData : string) (rounds i : nat) : list string :=
  match rounds with
  | O => []
  | S rounds' =>
      if (i <? String.length avatarData)%nat
      then slice avatarData i (i + chunkSize)
             :: split_loop avatarData rounds' (i + chunkSize)
      else []
  end.

Definition split_chunks (avatarData : string) : list string :=
  split_loop avatarData (String.length avatarData) 0.

(** [chunks.forEach((chunk, index) => setCookie(..._chunk_${index}, chunk, days))] *)
Fixpoint store_chunks (username : string) (chunks : list string) (index : nat)
  (days : Z) (jar : Jar) : Jar :=
  match chunks with
  | [] => jar
  | chunk :: rest =>
      store_chunks username rest (S index) days
        (setCookie (userAvatar_chunk_name username index) chunk days jar)
  end.

Definition setAvatarChunks (username avatarData : string) (days : Z) (jar : Jar)
  : Jar :=
  let chunks := split_chunks avatarData in
  let jar := setCookie (userAvatar_name username) chunkMarker days jar in
  let jar :=
    setCookie (userAvatar_chunks_name username)
      (String_of_nat (List.length chunks)) days jar in
  store_chunks username chunks 0 days jar.

(** Nothing in the body of the [try] can raise for a string [avatarData],
    so the fallback to ['default'] is never taken. *)
Definition setUserAvatar (username avatarData : string) (days : Z) (jar : Jar)
  : Jar :=
  if (chunkThreshold <? String.length avatarData)%nat
  then setAvatarChunks username avatarData days jar
  else setCookie (userAvatar_name username) avatarData days jar.

(** [s || '0'] *)
Definition or_zero (o : option string) : string :=
  if truthy_str o then match o with Some s => s | None => "0" end else "0".

(** How often the body of [for (let i = 0; i < chunkCount; i++)] can run. *)
Definition loop_bound (chunkCount : JsNumber) : nat :=
  match chunkCount with
  | NaN => O
  | Num z => Z.to_nat z
  end.

(** The loop of [getAvatarChunks] from index [i] on, with [rounds] rounds
    still to go. *)
Fixpoint chunks_loop (username : string) (jar : Jar) (rounds i : nat)
  (avatarData : string) : option string :=
  match rounds with
  | O => Some avatarData
  | S rounds' =>
      let chunk := getCookie (userAvatar_chunk_name username i) jar in
      if negb (truthy_str chunk) then None
      else
        match chunk with
        | Some c => chunks_loop username jar rounds' (S i) (avatarData ++ c)
        | None => None
        end
  end.

Definition stored_chunkCount (username : string) (jar : Jar) : JsNumber :=
  parseInt (or_zero (getCookie (userAvatar_chunks_name username) jar)).

Definition is_zero (n : JsNumber) : bool :=
  match n with
  | Num z => z =? 0
  | NaN => false
  end.

Definition getAvatarChunks (username : string) (jar : Jar) : option string :=
  let chunkCount := stored_chunkCount username jar in
  if is_zero chunkCount then None
  else chunks_loop username jar (loop_bound chunkCount) 0 "".

(** [avatar === 'chunked'] for a [string | null]. *)
Definition is_marker (avatar : option string) : bool :=
  match avatar with
  | Some s => String.eqb s chunkMarker
  | None => false
  end.

Definition getUserAvatar (username : string) (jar : Jar) : option string :=
  let avatar := getCookie (userAvatar_name username) jar in
  if truthy_str avatar && negb (is_marker avatar) then avatar
  else if is_marker avatar then getAvatarChunks username jar
  else None.

(** [for (let i = 0; i < 10; i++) deleteCookie(..._chunk_${i})] *)
Definition deleteUserAvatar (username : string) (jar : Jar) : Jar :=
  let jar := deleteCookie (userAvatar_name username) jar in
  fold_left (fun jar i => deleteCookie (userAvatar_chunk_name username i) jar)
    (seq 0 10) jar.

(** *** Tokens, the active user *)

Definition getUserToken (username : string) (jar : Jar) : option string :=
  getCookie (userToken_name username) jar.

Definition deleteUserToken (username : string) (jar : Jar) : Jar :=
  let jar := deleteCookie (userToken_name username) jar in
  let jar := deleteCookie (userData_name username) jar in
  deleteUserAvatar username jar.

Definition getActiveUser (jar : Jar) : option string :=
  getCookie "activeUser" jar.

Definition setActiveUser (username : string) (jar : Jar) : Jar :=
  setCookie "activeUser" username 7 jar.

(** *** What needs [JSON]

    [JSON.parse] and [JSON.stringify] are the runtime's.  The store is
    written against any implementation of them; [JSON_parse] raises where
    [JSON.parse] raises a [SyntaxError]. *)
Class JSON : Type := {
  JSON_parse : string -> Completion JsVal;
  JSON_stringify : JsVal -> string
}.

Section WithJSON.
Context {J : JSON}.

(** [getUserData]: [null] is [JsNull]; whatever the [try] raises is caught. *)
Definition getUserData (username : string) (jar : Jar) : JsVal :=
  let userData := getCookie (userData_name username) jar in
  let attempt : Completion JsVal :=
    bind (match userData with
          | Some text => if truthy_str userData then JSON_parse text
                         else Return JsNull
          | None => Return JsNull
          end) (fun parsedData =>
    if truthy parsedData then
      let avatarData := getUserAvatar username jar in
      match avatarData with
      | Some avatar =>
          if truthy_str avatarData && negb (String.eqb avatar "default")
          then set_prop parsedData "userAvatar" (JsStr avatar)
          else Return parsedData
      | None => Return parsedData
      end
    else Return parsedData) in
  match attempt with
  | Return parsedData => parsedData
  | Throw _ => JsNull
  end.

Definition emptyArray : JsVal := JsArr [] [].

Definition getLastUsers (jar : Jar) : JsVal :=
  let lastUsers := getCookie "lastUsers" jar in
  match lastUsers with
  | Some text =>
      if truthy_str lastUsers then
        match JSON_parse text with
        | Return parsed => parsed
        | Throw _ => emptyArray
        end
      else emptyArray
  | None => emptyArray
  end.

(** [user !== username] *)
Definition differs_from (username : string) (user : JsVal) : bool :=
  negb (strict_eq_str user username).

(** [updateLastUsers]; [lastUsers.filter] raises unless [lastUsers] is an
    array. *)
Definition updateLastUsers (username : string) (jar : Jar) : Completion Jar :=
  match getLastUsers jar with
  | JsArr elems _ =>
      let lastUsers := filter (differs_from username) elems in
      let lastUsers := JsStr username :: lastUsers in
      let lastUsers := firstn 2 lastUsers in
      Return (setCookie "lastUsers" (JSON_stringify (JsArr lastUsers [])) 30 jar)
  | _ => Throw TypeError
  end.

(** *** Enumeration and batch validation *)

Record UserToken : Type := {
  username : string;
  token : string;
  userData : JsVal
}.

(** What [getAllUserTokens] pushes for [username], if anything. *)
Definition account_entry (jar : Jar) (username : string) : list UserToken :=
  let token := getUserToken username jar in
  let userData := getUserData username jar in
  match token with
  | Some t =>
      if truthy_str token && truthy userData
      then [{| username := username; token := t; userData := userData |}]
      else []
  | None => []
  end.

(** One round of [cookies.forEach]: the entry [name=...].  A cookie name
    holds no ['='], so [trimmed.split('=')[0]] is [name]; it starts with
    ['userToken_'], so replacing the first ['userToken_'] by [''] removes
    these ten characters. *)
Definition visit_cookie (jar : Jar) (entry : string * string) : list UserToken :=
  let name := fst entry in
  if startsWith name "userToken_"
  then account_entry jar (slice name 10 (String.length name))
  else [].

Definition getAllUserTokens (jar : Jar) : list UserToken :=
  flat_map (visit_cookie jar) jar.

(** What awaiting [validateTokenFn(username, token)] comes to: the value
    it resolves to, or the value it throws or rejects with. *)
Inductive Outcome : Type :=
| Resolves (isValid : JsVal)
| Rejects (error : JsVal).

Record ValidationResult : Type := {
  result_username : string;
  isValid : JsVal;
  result_userData : JsVal;
  error : JsVal
}.

(** The caller's function may look at the cookies as they stand when it is
    called; it does not change them. *)
Definition Validator : Type := Jar -> string -> string -> Outcome.

(** [error.message] in the [catch] block; reading a property of [null] or
    [undefined] raises. *)
Definition error_message (error : JsVal) : Completion JsVal :=
  match error with
  | JsUndefined | JsNull => Throw TypeError
  | _ => Return (get_prop error "message")
  end.

(** [for (const {username, token, userData} of allTokens)].  The accounts
    are validated one after the other, nothing else running in between.
    What the [catch] block raises is caught by nothing: the batch ends
    there, with no list. *)
Fixpoint validate_loop (validateTokenFn : Validator) (allTokens : list UserToken)
  (validationResults : list ValidationResult) (jar : Jar)
  : Completion (list ValidationResult) * Jar :=
  match allTokens with
  | [] => (Return validationResults, jar)
  | entry :: rest =>
      match validateTokenFn jar (username entry) (token entry) with
      | Resolves isValid =>
          let validationResults :=
            (validationResults ++
             [{| result_username := username entry;
                 isValid := isValid;
                 result_userData :=
                   if truthy isValid then userData entry else JsNull;
                 error := JsNull |}])%list in
          let jar :=
            if negb (truthy isValid)
            then deleteUserToken (username entry) jar else jar in
          validate_loop validateTokenFn rest validationResults jar
      | Rejects error =>
          match error_message error with
          | Return message =>
              let validationResults :=
                (validationResults ++
                 [{| result_username := username entry;
                     isValid := JsBool false;
                     result_userData := JsNull;
                     error := message |}])%list in
              let jar := deleteUserToken (username entry) jar in
              validate_loop validateTokenFn rest validationResults jar
          | Throw raised => (Throw raised, jar)
          end
      end
  end.

Definition batchValidateTokens (validateTokenFn : Validator) (jar : Jar)
  : Completion (list ValidationResult) * Jar :=
  let allTokens := getAllUserTokens jar in
  validate_loop validateTokenFn allTokens [] jar.

End WithJSON.

End CookieUtils.

(** ** [document.cookie] as text

    [getCookie] and [getAllUserTokens] read the jar through the text that
    [document.cookie] returns and take it apart themselves.  This section
    follows them character by character; Part II shows that, on a jar whose
    names and values are free of the separators, they find what the
    functions of [CookieUtils] above find.  It also says what the browser
    keeps of the assignments that [setCookie] and [deleteCookie] make. *)

Module DocumentCookie.
Import Js CookieUtils.

Definition render_entry (entry : string * string) : string :=
  fst entry ++ "=" ++ snd entry.

(** What reading [document.cookie] returns. *)
Definition document_cookie (jar : Jar) : string :=
  join "; " (map render_entry jar).

(** [text.split(';')] *)
Fixpoint split_semicolons (text : string) : list string :=
  match text with
  | EmptyString => [""]
  | String c rest =>
      if Ascii.eqb c ";" then "" :: split_semicolons rest
      else
        match split_semicolons rest with
        | piece :: pieces => String c piece :: pieces
        | [] => [String c ""]
        end
  end.

(** [while (c.charAt(0) === ' ') c = c.substring(1, c.length)] *)
Fixpoint strip_blanks (c : string) : string :=
  match c with
  | String ch rest => if Ascii.eqb ch " " then strip_blanks rest else c
  | EmptyString => c
  end.

(** The loop of [getCookie] over the pieces [ca]. *)
Fixpoint scan_pieces (nameEQ : string) (ca : list string) : option string :=
  match ca with
  | [] => None
  | piece :: rest =>
      let c := strip_blanks piece in
      if startsWith c nameEQ
      then Some (slice c (String.length nameEQ) (String.length c))
      else scan_pieces nameEQ rest
  end.

(** [getCookie(name)], given the text of [document.cookie]. *)
Definition getCookie_text (name : string) (text : string) : option string :=
  let nameEQ := name ++ "=" in
  scan_pieces nameEQ (split_semicolons text).

(** [s.trim()] *)
Fixpoint trim_back (s : string) : string :=
  match s with
  | EmptyString => EmptyString
  | String c rest =>
      let rest := trim_back rest in
      if is_space c && String.eqb rest "" then EmptyString else String c rest
  end.

Definition trim (s : string) : string := trim_back (skip_spaces s).

(** [s.split('=')[0]] *)
Definition before_equals (s : string) : string :=
  take_while (fun c => negb (Ascii.eqb c "=")) s.

(** [s.replace(pattern, '')]: the first occurrence of [pattern] taken out. *)
Fixpoint remove_first (pattern s : string) : string :=
  if startsWith s pattern
  then slice s (String.length pattern) (String.length s)
  else
    match s with
    | String c rest => String c (remove_first pattern rest)
    | EmptyString => EmptyString
    end.

(** The username that one round of [cookies.forEach] in [getAllUserTokens]
    works with, if the cookie is a token at all. *)
Definition username_of_piece (cookie : string) : option string :=
  let trimmed := trim cookie in
  if startsWith trimmed "userToken_"
  then Some (remove_first "userToken_" (before_equals trimmed))
  else None.

(** Neither a name nor a value holds a [';']; a name holds no ['='] and
    does not start with white space. *)
Definition lacks (c : ascii) (s : string) : bool :=
  forallb (fun x => negb (Ascii.eqb x c)) (list_ascii_of_string s).

Definition starts_with_space (s : string) : bool :=
  match s with
  | String c _ => is_space c
  | EmptyString => false
  end.

Definition plain_name (name : string) : bool :=
  lacks ";" name && lacks "=" name && negb (starts_with_space name).

Definition plain_entry (entry : string * string) : bool :=
  plain_name (fst entry) && lacks ";" (snd entry).

(** *** What the browser keeps of an assignment

    [setCookie] assigns [`${name}=${value};expires=...;path=/`] to
    [document.cookie], and [deleteCookie] assigns
    [`${name}=; expires=...; path=/;`]; neither encodes the name or the
    value.  The browser reads the text up to the first [';'] as the pair,
    what stands before the first ['='] of the pair as the name and what
    stands after it as the value, both without the blanks and tabs around
    them, and the pieces after the first [';'] as attributes, of which it
    ignores those it does not know. *)

Definition is_blank (c : ascii) : bool :=
  let n := N_of_ascii c in ((n =? 32) || (n =? 9))%N.

Fixpoint drop_blanks (s : string) : string :=
  match s with
  | String c rest => if is_blank c then drop_blanks rest else s
  | EmptyString => s
  end.

Fixpoint drop_blanks_back (s : string) : string :=
  match s with
  | EmptyString => EmptyString
  | String c rest =>
      let rest := drop_blanks_back rest in
      if is_blank c && String.eqb rest "" then EmptyString else String c rest
  end.

Definition trim_blanks (s : string) : string := drop_blanks_back (drop_blanks s).

(** What stands after the first ['='], if there is one. *)
Fixpoint after_equals (s : string) : string :=
  match s with
  | EmptyString => EmptyString
  | String c rest => if Ascii.eqb c "=" then rest else after_equals rest
  end.

Definition lower (c : ascii) : ascii :=
  let n := N_of_ascii c in
  if ((65 <=? n) && (n <=? 90))%N then ascii_of_N (n + 32) else c.

(** The attributes that a browser may know, whatever their case. *)
Definition attribute_names : list string :=
  ["expires"; "max-age"; "domain"; "path"; "secure"; "httponly"; "samesite";
   "partitioned"; "priority"; "sameparty"].

Definition names_attribute (piece : string) : bool :=
  existsb (String.eqb (map_string lower (trim_blanks (before_equals piece))))
    attribute_names.

(** A printable character of ASCII, or a tab. *)
Definition is_plain_char (c : ascii) : bool :=
  let n := N_of_ascii c in (((32 <=? n) && (n <=? 126)) || (n =? 9))%N.

(** The name and the value that the browser takes from the pair
    [`${name}=${value}`] of an assignment, where every browser takes the
    same: [None] stands for an assignment with a character that is not
    plain, with a piece of the caller's that names an attribute, with a
    pair without ['='], or with a name that is empty or starts with two
    underscores, which is treated as a prefix. *)
Definition written (name value : string) : option (string * string) :=
  let text := name ++ "=" ++ value in
  let pieces := split_semicolons text in
  let pair := hd "" pieces in
  let cookieName := trim_blanks (before_equals pair) in
  let cookieValue := trim_blanks (after_equals pair) in
  if negb (forallb is_plain_char (list_ascii_of_string text)) then None
  else if existsb names_attribute (tl pieces) then None
  else if lacks "=" pair then None
  else if String.eqb cookieName "" || startsWith cookieName "__" then None
  else Some (cookieName, cookieValue).

(** The jar after the assignment that [setCookie(name, value, days)]
    makes; [deleteCookie(name)] makes the one of [setCookie(name, '', 0)]. *)
Definition assign (name value : string) (days : Z) (jar : Jar) : option Jar :=
  match written name value with
  | Some (cookieName, cookieValue) =>
      Some (if 0 <? days then jar_put cookieName cookieValue jar
            else jar_remove cookieName jar)
  | None => None
  end.

(** The names and values that the browser keeps as they are given: a value
    of printable characters of ASCII other than [';'], with no blank at
    either end, and a name of such characters other than the blank and
    ['='], not empty and not starting with two underscores. *)
Definition text_char (c : ascii) : bool :=
  let n := N_of_ascii c in ((32 <=? n) && (n <=? 126) && negb (n =? 59))%N.

Definition name_char (c : ascii) : bool :=
  let n := N_of_ascii c in
  ((33 <=? n) && (n <=? 126) && negb (n =? 59) && negb (n =? 61))%N.

Definition kept_value (value : string) : bool :=
  forallb text_char (list_ascii_of_string value)
  && String.eqb (trim_blanks value) value.

Definition kept_name (name : string) : bool :=
  forallb name_char (list_ascii_of_string name)
  && negb (String.eqb name "")
  && negb (startsWith name "__").

(** A username whose entries have names that are kept: the names start
    with a prefix of the source's. *)
Definition plain_username (username : string) : bool :=
  forallb name_char (list_ascii_of_string username).

(** A text without a blank, every piece of which is a value that is kept:
    an avatar is cut into pieces wherever its length says. *)
Definition solid (text : string) : bool :=
  forallb (fun c => text_char c && negb (is_blank c)) (list_ascii_of_string text).

Section WithJSON.
Context {J : JSON}.

(** One round of [cookies.forEach] on the piece [cookie]. *)
Definition visit_piece (jar : Jar) (cookie : string) : list UserToken :=
  match username_of_piece cookie with
  | Some username => account_entry jar username
  | None => []
  end.

(** [getAllUserTokens], from the text of [document.cookie]. *)
Definition getAllUserTokens_text (jar : Jar) : list UserToken :=
  flat_map (visit_piece jar) (split_semicolons (document_cookie jar)).

End WithJSON.

End DocumentCookie.

(** ** A JSON runtime for the fragment the store is exercised on

    [stringify] writes any value the way [JSON.stringify] does.  [parse]
    reads the compact texts of arrays of strings (the roster) and of objects
    whose fields are strings (the account data of the examples), with every
    escape of JSON strings, and raises on any other text. *)

Module ConcreteJSON.
Import Js CookieUtils.

Definition dquote : ascii := ascii_of_N 34.
Definition backslash : ascii := ascii_of_N 92.
Definition SyntaxError : string := "SyntaxError".

Definition hex_char (nibble : N) : ascii :=
  if (nibble <? 10)%N then ascii_of_N (48 + nibble) else ascii_of_N (87 + nibble).

(** A code unit within a JSON string. *)
Definition escape_char (c : ascii) : string :=
  let n := N_of_ascii c in
  if (n =? 34)%N then String backslash (String dquote "")
  else if (n =? 92)%N then String backslash (String backslash "")
  else if (n =? 8)%N then String backslash "b"
  else if (n =? 12)%N then String backslash "f"
  else if (n =? 10)%N then String backslash "n"
  else if (n =? 13)%N then String backslash "r"
  else if (n =? 9)%N then String backslash "t"
  else if (n <? 32)%N then
    String backslash
      (String "u" (String "0" (String "0"
         (String (hex_char (n / 16)) (String (hex_char (n mod 16)) "")))))
  else String c "".

Fixpoint escape (s : string) : string :=
  match s with
  | EmptyString => EmptyString
  | String c rest => escape_char c ++ escape rest
  end.

Definition quote (s : string) : string :=
  String dquote (escape s ++ String dquote "").

Definition is_undefined (v : JsVal) : bool :=
  match v with
  | JsUndefined => true
  | _ => false
  end.

(** [JSON.stringify(v)]; [undefined] inside an array is written [null], and
    a field whose value is [undefined] is left out. *)
Fixpoint stringify (v : JsVal) : string :=
  match v with
  | JsUndefined | JsNull | JsNum NaN => "null"
  | JsBool true => "true"
  | JsBool false => "false"
  | JsNum (Num z) => String_of_Z z
  | JsStr s => quote s
  | JsArr elems _ => "[" ++ join "," (map stringify elems) ++ "]"
  | JsObj props =>
      "{" ++ join ","
               ((fix fields (ps : list (string * JsVal)) : list string :=
                   match ps with
                   | [] => []
                   | (k, w) :: rest =>
                       if is_undefined w then fields rest
                       else (quote k ++ ":" ++ stringify w) :: fields rest
                   end) props)
          ++ "}"
  end.

Definition hex_value (c : ascii) : option N :=
  let n := N_of_ascii c in
  if ((48 <=? n) && (n <=? 57))%N then Some (n - 48)%N
  else if ((97 <=? n) && (n <=? 102))%N then Some (n - 87)%N
  else if ((65 <=? n) && (n <=? 70))%N then Some (n - 55)%N
  else None.

(** [\uXXXX] for a code unit that fits in one byte. *)
Definition unicode_escape (h1 h2 h3 h4 : ascii) : option ascii :=
  match hex_value h1, hex_value h2, hex_value h3, hex_value h4 with
  | Some 0%N, Some 0%N, Some hi, Some lo => Some (ascii_of_N (16 * hi + lo))
  | _, _, _, _ => None
  end.

Definition simple_escape (e : ascii) : option ascii :=
  let n := N_of_ascii e in
  if (n =? 34)%N then Some dquote
  else if (n =? 92)%N then Some backslash
  else if (n =? 47)%N then Some "/"%char
  else if (n =? 98)%N then Some (ascii_of_N 8)
  else if (n =? 102)%N then Some (ascii_of_N 12)
  else if (n =? 110)%N then Some (ascii_of_N 10)
  else if (n =? 114)%N then Some (ascii_of_N 13)
  else if (n =? 116)%N then Some (ascii_of_N 9)
  else None.

(** Where the string being read stands. *)
Inductive Position : Type :=
| InArray (elems : list JsVal)
| InKey (props : list (string * JsVal))
| InValue (props : list (string * JsVal)) (key : string).

(** What follows the closing quote of a string. *)
Definition is_char (c : ascii) (code : N) : bool := (N_of_ascii c =? code)%N.

(** Reading a string from just after its opening quote; [cur] is what has
    been read of it. *)
Fixpoint parse_string (text : string) (cur : string) (pos : Position)
  : Completion JsVal :=
  match text with
  | EmptyString => Throw SyntaxError
  | String c rest =>
      if is_char c 34 then
        match pos, rest with
        | InArray elems, String d EmptyString =>
            if is_char d 93 then Return (JsArr (elems ++ [JsStr cur])%list [])
            else Throw SyntaxError
        | InArray elems, String d (String q rest') =>
            if is_char d 44 && is_char q 34
            then parse_string rest' "" (InArray (elems ++ [JsStr cur])%list)
            else Throw SyntaxError
        | InKey props, String d (String q rest') =>
            if is_char d 58 && is_char q 34
            then parse_string rest' "" (InValue props cur)
            else Throw SyntaxError
        | InValue props key, String d EmptyString =>
            if is_char d 125 then Return (JsObj (assign_prop key (JsStr cur) props))
            else Throw SyntaxError
        | InValue props key, String d (String q rest') =>
            if is_char d 44 && is_char q 34
            then parse_string rest' "" (InKey (assign_prop key (JsStr cur) props))
            else Throw SyntaxError
        | _, _ => Throw SyntaxError
        end
      else if is_char c 92 then
        match rest with
        | String e rest' =>
            if is_char e 117 then
              match rest' with
              | String h1 (String h2 (String h3 (String h4 rest''))) =>
                  match unicode_escape h1 h2 h3 h4 with
                  | Some u => parse_string rest'' (cur ++ String u "") pos
                  | None => Throw SyntaxError
                  end
              | _ => Throw SyntaxError
              end
            else
              match simple_escape e with
              | Some u => parse_string rest' (cur ++ String u "") pos
              | None => Throw SyntaxError
              end
        | EmptyString => Throw SyntaxError
        end
      else if (N_of_ascii c <? 32)%N then Throw SyntaxError
      else parse_string rest (cur ++ String c "") pos
  end.

Definition parse (text : string) : Completion JsVal :=
  match text with
  | String b (String c rest) =>
      if is_char b 91 then
        if is_char c 93 then
          match rest with
          | EmptyString => Return (JsArr [] [])
          | _ => Throw SyntaxError
          end
        else if is_char c 34 then parse_string rest "" (InArray [])
        else Throw SyntaxError
      else if is_char b 123 then
        if is_char c 125 then
          match rest with
          | EmptyString => Return (JsObj [])
          | _ => Throw SyntaxError
          end
        else if is_char c 34 then parse_string rest "" (InKey [])
        else Throw SyntaxError
      else Throw SyntaxError
  | _ => Throw SyntaxError
  end.

#[export] Instance runtime : JSON := {|
  JSON_parse := parse;
  JSON_stringify := stringify
|}.

End ConcreteJSON.

(** ** Terms the statements of Part II are written in *)

Module IdUtilsTerms.
Import Js IdUtils.

(** Six digit values, as [allDigits] holds them for a well-formed pair. *)
Definition six (d0 d1 d2 d3 d4 d5 : Z) : list JsNumber :=
  [Num d0; Num d1; Num d2; Num d3; Num d4; Num d5].

(** The sum that both definitions reduce modulo 100. *)
Definition total (d0 d1 d2 d3 d4 d5 : Z) : Z :=
  (d5 + doubled d4 + d3 + doubled d2 + d1 + doubled d0)
  + (d0 * 3 + d1 * 7 + d2 * 11 + d3 * 13 + d4 * 3 + d5 * 7)
  + Z.lxor d0 (Z.lxor d1 (Z.lxor d2 (Z.lxor d3 (Z.lxor d4 (Z.lxor d5 0))))).

(** The two-digit and four-digit renderings of a number. *)
Definition pad2 (z : Z) : string := padStart (String_of_Z z) 2 "0".
Definition pad4 (z : Z) : string := padStart (String_of_Z z) 4 "0".

(** The parts [generateUserId] assembles. *)
Definition generated_prefix (isAdmin : bool) (random : nat -> Q) : string :=
  if isAdmin then ADMIN_PREFIX
  else pad2 (floor_scaled (random 0%nat) (USER_PREFIX_MAX - USER_PREFIX_MIN + 1)
             + USER_PREFIX_MIN).

Definition generated_randomDigits (isAdmin : bool) (random : nat -> Q) : string :=
  pad4 (floor_scaled (if isAdmin then random 0%nat else random 1%nat) 10000).

End IdUtilsTerms.

Module CookieTerms.
Import Js CookieUtils.

(** What is left of [s] from index [i] on. *)
Definition tail_from (i : nat) (s : string) : string :=
  String.substring i (String.length s - i) s.

Definition concat_chunks (chunks : list string) : string :=
  fold_right append "" chunks.


(** The names [deleteUserToken(username)] deletes: the token, the data, the
    base avatar entry and the chunk entries of index 0 to 9. *)
Definition deleted_names (username : string) : list string :=
  [userToken_name username; userData_name username; userAvatar_name username]
  ++ map (userAvatar_chunk_name username) (seq 0 10).

Definition is_deleted_name (username name : string) : bool :=
  existsb (String.eqb name) (deleted_names username).

Section WithJSON.
Context {J : JSON}.

(** What the runtime is relied on for: an array of strings that is written
    out reads back as it was, and the empty text is not JSON. *)
Class JSONLaws : Prop := {
  parse_stringify_strings :
    forall l : list string,
      JSON_parse (JSON_stringify (JsArr (map JsStr l) []))
      = Return (JsArr (map JsStr l) []);
  parse_empty : forall v, JSON_parse "" <> Return v
}.

(** An entry name under which [getAllUserTokens] finds an account: it
    starts with ['userToken_'], its value is not empty, and the data of the
    name that follows is there. *)
Definition names_an_account (jar : Jar) (name : string) : bool :=
  startsWith name "userToken_"
  && truthy_str (getCookie name jar)
  && truthy (getUserData (slice name 10 (String.length name)) jar).

(** The jar once the accounts that [results] reports have been dealt with:
    every account reported invalid has gone through [deleteUserToken]. *)
Definition jar_after (results : list ValidationResult) (jar : Jar) : Jar :=
  fold_left
    (fun jar r =>
       if truthy (isValid r) then jar
       else deleteUserToken (result_username r) jar)
    results jar.

(** The result [r] reports [outcome] for the account [entry]: the value
    resolved to, with the data if it is truthy, or [false] and the message
    of the error. *)
Definition reports (outcome : Outcome) (entry : UserToken) (r : ValidationResult)
  : Prop :=
  result_username r = username entry
  /\ match outcome with
     | Resolves valid =>
         isValid r = valid
         /\ result_userData r = (if truthy valid then userData entry else JsNull)
         /\ error r = JsNull
     | Rejects raised =>
         isValid r = JsBool false /\ result_userData r = JsNull
         /\ error r = get_prop raised "message"
     end.

(** A validator that, when it throws or rejects, does so with a value:
    never with [null] or [undefined]. *)
Definition rejects_with_a_value (validateTokenFn : Validator) : Prop :=
  forall jar username token raised,
    validateTokenFn jar username token = Rejects raised ->
    raised <> JsNull /\ raised <> JsUndefined.

(** The text of a roster of usernames, as [updateLastUsers] writes it. *)
Definition roster_text (roster : list string) : string :=
  JSON_stringify (JsArr (map JsStr roster) []).


(** [updateLastUsers] for [a], then [b], then [c]. *)
Definition updateLastUsers_thrice (a b c : string) (jar : Jar) : Completion Jar :=
  bind (updateLastUsers a jar) (fun jar =>
  bind (updateLastUsers b jar) (fun jar =>
  updateLastUsers c jar)).

End WithJSON.

End CookieTerms.

(* ------------------------------------------------------------------ *)
(** ** More of the runtime: conversions, [+], spread                    *)
(* ------------------------------------------------------------------ *)

Module JsConversions.
Import Js.

Definition has_own (field : string) (props : list (string * JsVal)) : bool :=
  existsb (fun p => String.eqb (fst p) field) props.

(** [ToString].  The values are data: no property holds a function.  An
    object or array with a property of its own called [toString] has lost
    the inherited method and cannot be converted; an array with a property
    of its own called [join] is written like any other object. *)
Fixpoint ToString (v : JsVal) : Completion string :=
  match v with
  | JsUndefined => Return "undefined"
  | JsNull => Return "null"
  | JsBool true => Return "true"
  | JsBool false => Return "false"
  | JsNum n => Return (String_of_number n)
  | JsStr s => Return s
  | JsObj props =>
      if has_own "toString" props then Throw TypeError
      else Return "[object Object]"
  | JsArr elems props =>
      if has_own "toString" props then Throw TypeError
      else if has_own "join" props then Return "[object Array]"
      else
        (fix join_elems (l : list JsVal) : Completion string :=
           match l with
           | [] => Return ""
           | x :: rest =>
               bind (match x with
                     | JsUndefined | JsNull => Return ""
                     | _ => ToString x
                     end) (fun s =>
               match rest with
               | [] => Return s
               | _ :: _ => bind (join_elems rest) (fun t => Return (s ++ "," ++ t))
               end)
           end) elems
  end.

(** [ToPrimitive]: an object or array becomes its text. *)
Definition ToPrimitive (v : JsVal) : Completion JsVal :=
  match v with
  | JsObj _ | JsArr _ _ => bind (ToString v) (fun s => Return (JsStr s))
  | _ => Return v
  end.

(** [ToNumber] of a primitive that is not a string. *)
Definition ToNumber_plain (v : JsVal) : JsNumber :=
  match v with
  | JsNull => Num 0
  | JsBool true => Num 1
  | JsBool false => Num 0
  | JsNum n => n
  | _ => NaN
  end.

Definition is_string (v : JsVal) : bool :=
  match v with
  | JsStr _ => true
  | _ => false
  end.

(** [a + b] *)
Definition js_plus (a b : JsVal) : Completion JsVal :=
  bind (ToPrimitive a) (fun pa =>
  bind (ToPrimitive b) (fun pb =>
  if is_string pa || is_string pb then
    bind (ToString pa) (fun sa =>
    bind (ToString pb) (fun sb => Return (JsStr (sa ++ sb))))
  else Return (JsNum (js_add (ToNumber_plain pa) (ToNumber_plain pb))))).

(** [a || b] *)
Definition js_or (a b : JsVal) : JsVal := if truthy a then a else b.

(** The properties that [{...v}] copies: those of an object, the elements
    of an array under their indices followed by its other properties, the
    characters of a string under their indices, and nothing otherwise. *)
Fixpoint index_props (i : nat) (elems : list JsVal) : list (string * JsVal) :=
  match elems with
  | [] => []
  | x :: rest => (String_of_Z (Z.of_nat i), x) :: index_props (S i) rest
  end.

Definition chars_of (s : string) : list JsVal :=
  map (fun c => JsStr (String c "")) (list_ascii_of_string s).

Definition spread_props (v : JsVal) : list (string * JsVal) :=
  match v with
  | JsObj props => props
  | JsArr elems props => (index_props 0 elems ++ props)%list
  | JsStr s => index_props 0 (chars_of s)
  | _ => []
  end.

(** [{...given, ...v}]: the properties of [v] assigned one after the other. *)
Definition assign_all (given more : list (string * JsVal)) : list (string * JsVal) :=
  fold_left (fun props p => assign_prop (fst p) (snd p) props) more given.

(** [delete o.field] *)
Definition remove_prop (field : string) (props : list (string * JsVal))
  : list (string * JsVal) :=
  filter (fun p => negb (String.eqb (fst p) field)) props.

(** [a === b].  Two objects are the same only if they are one object; the
    comparisons below are between a value just parsed or built and a value
    that was given, which never are. *)
Definition strict_eq (a b : JsVal) : bool :=
  match a, b with
  | JsUndefined, JsUndefined => true
  | JsNull, JsNull => true
  | JsBool x, JsBool y => Bool.eqb x y
  | JsNum (Num x), JsNum (Num y) => x =? y
  | JsStr x, JsStr y => String.eqb x y
  | _, _ => false
  end.

End JsConversions.

(* ------------------------------------------------------------------ *)
(** ** The rest of IdUtils and UserUtils                                *)
(* ------------------------------------------------------------------ *)

Module IdUtilsRest.
Import Js JsConversions IdUtils.

Definition formatForDisplay (userId : JsVal) : Completion string :=
  bind (validateUserId userId) (fun valid =>
  if negb valid then Return "Invalid ID"
  else
    bind (isAdminId userId) (fun isAdmin =>
    let prefix := if isAdmin then "Admin" else "User" in
    bind (ToString userId) (fun text => Return (prefix ++ "-" ++ text)))).

End IdUtilsRest.

Module UserUtilsRest.
Import Js JsConversions IdUtils.

(** A parameter declared [isAdmin = false]. *)
Definition default_false (isAdmin : JsVal) : JsVal :=
  match isAdmin with
  | JsUndefined => JsBool false
  | given => given
  end.

(** [createUser(username, email, isAdmin)]; [now] is what
    [new Date().toISOString()] returns when it is called. *)
Definition createUser (username email isAdmin : JsVal) (random : nat -> Q)
  (now : string) : JsVal :=
  let isAdmin := default_false isAdmin in
  let userId := generateUserId (truthy isAdmin) random in
  JsObj
    [("id", JsStr userId);
     ("username", username);
     ("email", email);
     ("isAdmin", isAdmin);
     ("createdAt", JsStr now);
     ("lastLoginAt", JsNull);
     ("preferences",
      JsObj [("theme", JsStr "default"); ("language", JsStr "zh-CN")]);
     ("stats", JsObj [("loginCount", JsNum (Num 0)); ("lastActiveAt", JsNull)])].

Definition hasPermission (userId requiredPermission : JsVal) : Completion bool :=
  bind (validateUserId userId) (fun valid =>
  if negb valid then Return false
  else
    bind (isAdminId userId) (fun isAdmin =>
    if strict_eq_str requiredPermission "admin" then Return isAdmin
    else if strict_eq_str requiredPermission "user" then Return true
    else Return false)).

Definition getUserRole (userId : JsVal) : Completion string :=
  bind (validateUserId userId) (fun valid =>
  if negb valid then Return "invalid"
  else
    bind (isAdminId userId) (fun isAdmin =>
    Return (if isAdmin then "admin" else "user"))).

Definition needsMigration (userData : JsVal) : Completion bool :=
  if negb (truthy userData) || negb (truthy (get_prop userData "id"))
  then Return true
  else
    bind (validateUserId (get_prop userData "id")) (fun valid =>
    Return (negb valid)).

(** Reading a property of [null] or [undefined] raises. *)
Definition is_nullish (v : JsVal) : bool :=
  match v with
  | JsUndefined | JsNull => true
  | _ => false
  end.

(** [updateLoginInfo(userData)], at the time [now]. *)
Definition updateLoginInfo (userData : JsVal) (now : string) : Completion JsVal :=
  if is_nullish userData then Throw TypeError
  else
    let stats := get_prop userData "stats" in
    bind (js_plus (js_or (get_prop stats "loginCount") (JsNum (Num 0)))
            (JsNum (Num 1))) (fun loginCount =>
    let newStats :=
      JsObj
        (assign_prop "lastActiveAt" (JsStr now)
           (assign_prop "loginCount" loginCount (spread_props stats))) in
    Return
      (JsObj
         (assign_prop "stats" newStats
            (assign_prop "lastLoginAt" (JsStr now) (spread_props userData))))).

(** [id?.split('-')[0]]: nothing for [null] and [undefined], the text
    before the first ['-'] for a string, and an error for anything else,
    which has no method [split]. *)
Definition before_dash (s : string) : string :=
  take_while (fun c => negb (Ascii.eqb c "-")) s.

Definition split_dash_first (id : JsVal) : Completion JsVal :=
  match id with
  | JsUndefined | JsNull => Return JsUndefined
  | JsStr s => Return (JsStr (before_dash s))
  | _ => Throw TypeError
  end.

(** [migrateFromOldVersion(oldUserData, isAdmin)].  The alternatives of an
    [||] are looked at only when what stands before them is falsy. *)
Definition migrateFromOldVersion (oldUserData isAdmin : JsVal)
  (random : nat -> Q) (now : string) : Completion JsVal :=
  let isAdmin := default_false isAdmin in
  let newUserId := generateUserId (truthy isAdmin) random in
  if is_nullish oldUserData then Throw TypeError
  else
    bind (if truthy (get_prop oldUserData "username")
          then Return (get_prop oldUserData "username")
          else
            bind (split_dash_first (get_prop oldUserData "id")) (fun first =>
            Return (js_or first (JsStr "unknown")))) (fun username =>
    let preferences := get_prop oldUserData "preferences" in
    let stats := get_prop oldUserData "stats" in
    Return
      (JsObj
         [("id", JsStr newUserId);
          ("username", username);
          ("email", js_or (get_prop oldUserData "email") (JsStr ""));
          ("isAdmin", isAdmin);
          ("createdAt", js_or (get_prop oldUserData "createdAt") (JsStr now));
          ("lastLoginAt", js_or (get_prop oldUserData "lastLoginAt") JsNull);
          ("preferences",
           JsObj
             (assign_all
                [("theme", js_or (get_prop preferences "theme") (JsStr "default"));
                 ("language",
                  js_or (get_prop preferences "language") (JsStr "zh-CN"))]
                (spread_props preferences)));
          ("stats",
           JsObj
             (assign_all
                [("loginCount", js_or (get_prop stats "loginCount") (JsNum (Num 0)));
                 ("lastActiveAt", js_or (get_prop stats "lastActiveAt") JsNull)]
                (spread_props stats)));
          ("_migrated", JsBool true);
          ("_oldId", get_prop oldUserData "id")])).

End UserUtilsRest.

(* ------------------------------------------------------------------ *)
(** ** The rest of CookieUtils                                          *)
(* ------------------------------------------------------------------ *)

Module CookieUtilsRest.
Import Js JsConversions CookieUtils DocumentCookie.
Import UserUtilsRest (is_nullish).

(** What a function that writes cookies and may raise leaves behind: how
    it ended, and the jar as it stood then. *)
Definition Effect (A : Type) : Type := (Completion A * Jar)%type.

(** [userData.userAvatar], as [setUserToken] can use it.  [setUserAvatar]
    is embedded for a string, as its documentation types [avatarData];
    [OtherAvatar] stands for a truthy value of another type. *)
Inductive AvatarField : Type :=
| NoAvatar
| Avatar (avatarData : string)
| OtherAvatar.

Definition avatar_field (userData : JsVal) : AvatarField :=
  let userAvatar := get_prop userData "userAvatar" in
  if truthy userAvatar then
    match userAvatar with
    | JsStr avatarData => Avatar avatarData
    | _ => OtherAvatar
    end
  else NoAvatar.

Definition getCurrentUserToken (jar : Jar) : option string :=
  let activeUser := getActiveUser jar in
  match activeUser with
  | Some user => if truthy_str activeUser then getUserToken user jar else None
  | None => None
  end.

Record ValidUser : Type := {
  valid_username : string;
  valid_userData : JsVal
}.

Definition getValidUsers (validationResults : list ValidationResult)
  : list ValidUser :=
  map (fun result => {| valid_username := result_username result;
                        valid_userData := result_userData result |})
    (filter (fun result => truthy (isValid result)) validationResults).

(** [usernames.add(username)] on a [Set], which keeps the order in which
    its members came in. *)
Definition set_add (member : string) (members : list string) : list string :=
  if existsb (String.eqb member) members then members
  else (members ++ [member])%list.

(** [getAllSavedUsers()], from the text of [document.cookie]. *)
Definition getAllSavedUsers (jar : Jar) : list string :=
  fold_left
    (fun usernames cookie =>
       match username_of_piece cookie with
       | Some username =>
           if negb (String.eqb username "") then set_add username usernames
           else usernames
       | None => usernames
       end)
    (split_semicolons (document_cookie jar)) [].

Section WithJSON.
Context {J : JSON}.

(** [setUserToken(username, token, userData, days)].  [None] when
    [userData.userAvatar] is truthy and not a string. *)
Definition setUserToken (username token : string) (userData : JsVal) (days : Z)
  (jar : Jar) : option (Effect unit) :=
  let jar := setCookie (userToken_name username) token days jar in
  if is_nullish userData then Some (Throw TypeError, jar)
  else
    let stored : option Jar :=
      match avatar_field userData with
      | Avatar avatarData =>
          let jar := setUserAvatar username avatarData days jar in
          let userDataWithoutAvatar :=
            JsObj (remove_prop "userAvatar" (spread_props userData)) in
          Some (setCookie (userData_name username)
                  (JSON_stringify userDataWithoutAvatar) days jar)
      | NoAvatar =>
          Some (setCookie (userData_name username) (JSON_stringify userData)
                  days jar)
      | OtherAvatar => None
      end in
    match stored with
    | Some jar =>
        let jar := setCookie "activeUser" username days jar in
        match updateLastUsers username jar with
        | Return jar => Some (Return tt, jar)
        | Throw e => Some (Throw e, jar)
        end
    | None => None
    end.

Definition getCurrentUserData (jar : Jar) : JsVal :=
  let activeUser := getActiveUser jar in
  match activeUser with
  | Some user => if truthy_str activeUser then getUserData user jar else JsNull
  | None => JsNull
  end.

Definition clearAllUserTokens (jar : Jar) : Jar :=
  let userTokens := getAllUserTokens jar in
  let jar :=
    fold_left (fun jar account => deleteUserToken (username account) jar)
      userTokens jar in
  let jar := deleteCookie "activeUser" jar in
  deleteCookie "lastUsers" jar.

End WithJSON.

End CookieUtilsRest.

(* ------------------------------------------------------------------ *)
(** ** UserUtils: the stored users                                      *)
(* ------------------------------------------------------------------ *)

Module StoredUsers.
Import Js JsConversions CookieUtils DocumentCookie UserUtilsRest CookieUtilsRest.

(** [decodeURIComponent] is the runtime's; it raises a [URIError] on a
    malformed escape. *)
Class URI : Type := {
  decodeURIComponent : string -> Completion string
}.

(** [text.split('=')] *)
Fixpoint split_equals (text : string) : list string :=
  match text with
  | EmptyString => [""]
  | String c rest =>
      if Ascii.eqb c "=" then "" :: split_equals rest
      else
        match split_equals rest with
        | piece :: pieces => String c piece :: pieces
        | [] => [String c ""]
        end
  end.

(** [ToString] of an element that an array pattern may have left
    [undefined]. *)
Definition text_or_undefined (value : option string) : string :=
  match value with
  | Some text => text
  | None => "undefined"
  end.

Section WithRuntime.
Context {J : JSON} {U : URI}.

(** One round of the loop of [getAllStoredUsers]: what the cookie adds to
    [users]. *)
Definition stored_user (cookie : string) : list JsVal :=
  let parts := split_equals (trim cookie) in
  let name := hd "" parts in
  let value := nth_error parts 1 in
  if startsWith name "userData_" then
    match bind (decodeURIComponent (text_or_undefined value)) JSON_parse with
    | Return userData => [userData]
    | Throw _ => []
    end
  else [].

Definition getAllStoredUsers (jar : Jar) : list JsVal :=
  flat_map stored_user (split_semicolons (document_cookie jar)).

(** [cleanupInvalidUsers()].  [CookieUtils] has no property
    [deleteUserData]: the first statement in the body of the [if] raises a
    [TypeError], for reading [user.username] of [null] or for calling
    [undefined], and the two deletions after it are not reached. *)
Fixpoint cleanup_loop (users : list JsVal) (jar : Jar) : Effect unit :=
  match users with
  | [] => (Return tt, jar)
  | user :: rest =>
      match needsMigration user with
      | Return true => (Throw TypeError, jar)
      | Return false => cleanup_loop rest jar
      | Throw e => (Throw e, jar)
      end
  end.

Definition cleanupInvalidUsers (jar : Jar) : Effect unit :=
  cleanup_loop (getAllStoredUsers jar) jar.

End WithRuntime.

End StoredUsers.

(* ------------------------------------------------------------------ *)
(** ** storageUtils: one interface over cookies and [localStorage]      *)
(* ------------------------------------------------------------------ *)

Module StorageUtils.
Import Js JsConversions CookieUtils.
Import UserUtilsRest (is_nullish).

(** [localStorage] is the browser's.  It is kept here as the list of its
    items; [setItem] replaces the value of an item or adds the item,
    without a quota, and no call on it raises. *)
Record Storage : Type := {
  cookies : Jar;
  localStorage : Jar
}.

Definition getItem (key : string) (st : Storage) : option string :=
  jar_find key (localStorage st).

Definition setItem (key value : string) (st : Storage) : Storage :=
  {| cookies := cookies st; localStorage := jar_put key value (localStorage st) |}.

Definition removeItem (key : string) (st : Storage) : Storage :=
  {| cookies := cookies st; localStorage := jar_remove key (localStorage st) |}.

Definition with_cookies (jar : Jar) (st : Storage) : Storage :=
  {| cookies := jar; localStorage := localStorage st |}.

Definition STORAGE_STRATEGY_cookie : list string :=
  ["authToken"; "username"; "sessionId"].

Definition STORAGE_STRATEGY_localStorage : list string :=
  ["userProfile"; "dailyUsageData"; "userAvatar"; "theme"; "selectedSubjects";
   "browsingHistory"].

(** [STORAGE_STRATEGY.cookie.includes(key)] *)
Definition cookie_includes (key : string) : bool :=
  existsb (String.eqb key) STORAGE_STRATEGY_cookie.

Section WithJSON.
Context {J : JSON}.

(** The text that [JSON.stringify(value)] becomes where a string is
    expected: [JSON.stringify(undefined)] is [undefined]. *)
Definition stringify_text (value : JsVal) : string :=
  match value with
  | JsUndefined => "undefined"
  | _ => JSON_stringify value
  end.

(** [typeof value === 'string' ? value : JSON.stringify(value)] *)
Definition cookie_text (value : JsVal) : string :=
  match value with
  | JsStr text => text
  | _ => stringify_text value
  end.

(** A parameter declared [options = {}]. *)
Definition default_options (options : JsVal) : JsVal :=
  match options with
  | JsUndefined => JsObj []
  | given => given
  end.

(** A parameter declared [defaultValue = null]. *)
Definition default_null (defaultValue : JsVal) : JsVal :=
  match defaultValue with
  | JsUndefined => JsNull
  | given => given
  end.

(** [UnifiedStorage.set(key, value, options)].  [cookieOptions] has no
    property [days], so the cookie is set for 7 days; reading
    [options.expires] of [null] raises, and the [catch] returns [false].
    [setCookie] returns nothing, and that is what [set] returns for a
    cookie key. *)
Definition set (key : string) (value options : JsVal) (st : Storage)
  : JsVal * Storage :=
  let options := default_options options in
  if cookie_includes key then
    if is_nullish options then (JsBool false, st)
    else
      let cookieOptions :=
        JsObj [("expires", js_or (get_prop options "expires") (JsNum (Num 7)));
               ("secure", js_or (get_prop options "secure") (JsBool false));
               ("sameSite", js_or (get_prop options "sameSite") (JsStr "Lax"))] in
      let days :=
        match js_or (get_prop cookieOptions "days") (JsNum (Num 7)) with
        | JsNum (Num days) => days
        | _ => 7
        end in
      (JsUndefined,
       with_cookies (setCookie key (cookie_text value) days (cookies st)) st)
  else (JsBool true, setItem key (stringify_text value) st).

(** [UnifiedStorage.get(key, defaultValue)] *)
Definition get (key : string) (defaultValue : JsVal) (st : Storage) : JsVal :=
  let defaultValue := default_null defaultValue in
  if cookie_includes key then
    match getCookie key (cookies st) with
    | None => defaultValue
    | Some value =>
        match JSON_parse value with
        | Return parsed => parsed
        | Throw _ => JsStr value
        end
    end
  else
    let item := getItem key st in
    match item with
    | Some text =>
        if truthy_str item then
          match JSON_parse text with
          | Return parsed => parsed
          | Throw _ => defaultValue
          end
        else defaultValue
    | None => defaultValue
    end.

(** [UnifiedStorage.remove(key)] *)
Definition remove (key : string) (st : Storage) : JsVal * Storage :=
  if cookie_includes key
  then (JsUndefined, with_cookies (deleteCookie key (cookies st)) st)
  else (JsBool true, removeItem key st).

(** [UnifiedStorage.has(key)] *)
Definition has (key : string) (st : Storage) : bool :=
  if cookie_includes key
  then match getCookie key (cookies st) with Some _ => true | None => false end
  else match getItem key st with Some _ => true | None => false end.

(** A parameter declared [type = 'all']. *)
Definition default_all (type : JsVal) : JsVal :=
  match type with
  | JsUndefined => JsStr "all"
  | given => given
  end.

(** [UnifiedStorage.clear(type)] *)
Definition clear (type : JsVal) (st : Storage) : JsVal * Storage :=
  let type := default_all type in
  let st :=
    if strict_eq_str type "all" || strict_eq_str type "cookie" then
      with_cookies
        (fold_left (fun jar key => deleteCookie key jar) STORAGE_STRATEGY_cookie
           (cookies st)) st
    else st in
  let st :=
    if strict_eq_str type "all" || strict_eq_str type "localStorage" then
      fold_left (fun st key => removeItem key st) STORAGE_STRATEGY_localStorage st
    else st in
  (JsBool true, st).

(** The value that [migrate] reads from the source. *)
Definition migrate_source (key from : string) (st : Storage) : Completion JsVal :=
  if String.eqb from "localStorage" then
    let item := getItem key st in
    match item with
    | Some text => if truthy_str item then JSON_parse text else Return JsNull
    | None => Return JsNull
    end
  else
    let value := getCookie key (cookies st) in
    match value with
    | Some text =>
        if truthy_str value then
          match JSON_parse text with
          | Return parsed => Return parsed
          | Throw _ => Return (JsStr text)
          end
        else Return (JsStr text)
    | None => Return JsNull
    end.

(** The two steps of [migrate] on a value that is not [null]: save it to
    the target, then delete it from the source. *)
Definition migrate_value (key from to : string) (value : JsVal) (st : Storage)
  : Storage :=
  let st :=
    if String.eqb to "localStorage"
    then setItem key (stringify_text value) st
    else with_cookies (setCookie key (cookie_text value) 7 (cookies st)) st in
  if String.eqb from "localStorage"
  then removeItem key st
  else with_cookies (deleteCookie key (cookies st)) st.

(** [UnifiedStorage.migrate(key, from, to)] *)
Definition migrate (key from to : string) (st : Storage) : JsVal * Storage :=
  match migrate_source key from st with
  | Throw _ => (JsBool false, st)
  | Return JsNull => (JsBool false, st)
  | Return value => (JsBool true, migrate_value key from to value st)
  end.



(** [safeLocalStorage] *)
Definition safe_set (key : string) (value : JsVal) (st : Storage)
  : JsVal * Storage :=
  set key value JsUndefined st.

Definition safe_get (key : string) (defaultValue : JsVal) (st : Storage) : JsVal :=
  get key (default_null defaultValue) st.

Definition safe_remove (key : string) (st : Storage) : JsVal * Storage :=
  remove key st.

End WithJSON.

End StorageUtils.

(* ------------------------------------------------------------------ *)
(** ** HistoryUtils                                                     *)
(* ------------------------------------------------------------------ *)

Module HistoryUtils.
Import Js JsConversions CookieUtils StorageUtils.
Import UserUtilsRest (is_nullish).

Section WithJSON.
Context {J : JSON}.

Definition getHistory (st : Storage) : Completion JsVal :=
  let history := safe_get "browsingHistory" (JsStr "[]") st in
  match history with
  | JsStr text => JSON_parse text
  | _ => Return history
  end.

(** [h.id === item.id && h.type === item.type]; reading a property of
    [null] or [undefined] raises. *)
Definition same_entry (item h : JsVal) : Completion bool :=
  if is_nullish h then Throw TypeError
  else if is_nullish item then Throw TypeError
  else
    Return (strict_eq (get_prop h "id") (get_prop item "id")
            && strict_eq (get_prop h "type") (get_prop item "type")).

(** [history.findIndex(...)], counting from [index]; [None] is [-1]. *)
Fixpoint findIndex (item : JsVal) (history : list JsVal) (index : nat)
  : Completion (option nat) :=
  match history with
  | [] => Return None
  | h :: rest =>
      bind (same_entry item h) (fun same =>
      if same then Return (Some index) else findIndex item rest (S index))
  end.

(** [history[existingIndex] = h] *)
Fixpoint replace_at (index : nat) (h : JsVal) (history : list JsVal)
  : list JsVal :=
  match history, index with
  | [], _ => []
  | _ :: rest, O => h :: rest
  | x :: rest, S index => x :: replace_at index h rest
  end.

(** The two assignments to the entry found. *)
Definition visit_again (h : JsVal) (now : string) : Completion JsVal :=
  bind (js_plus (js_or (get_prop h "visitCount") (JsNum (Num 1)))
          (JsNum (Num 1))) (fun visitCount =>
  bind (set_prop h "visitCount" visitCount) (fun h =>
  set_prop h "lastVisited" (JsStr now))).

(** The entry made of an item seen for the first time. *)
Definition first_visit (item : JsVal) (now : string) : JsVal :=
  JsObj
    (assign_prop "lastVisited" (JsStr now)
       (assign_prop "visitCount" (JsNum (Num 1)) (spread_props item))).

(** [history.method(...)]: a property of the array's own called like the
    method hides it, and holds no function. *)
Definition call_method {A : Type} (method : string)
  (props : list (string * JsVal)) (result : Completion A) : Completion A :=
  if has_own method props then Throw TypeError else result.

(** The history that [addToHistory(item)] stores, at the time [now].  A
    value without [findIndex], which is any value but an array, cannot be
    searched. *)
Definition next_history (item : JsVal) (now : string) (history : JsVal)
  : Completion JsVal :=
  match history with
  | JsArr elems props =>
      bind (call_method "findIndex" props (findIndex item elems 0))
        (fun existingIndex =>
      bind (match existingIndex with
            | Some index =>
                bind (visit_again (nth index elems JsUndefined) now) (fun h =>
                Return (replace_at index h elems))
            | None =>
                call_method "unshift" props
                  (Return (first_visit item now :: elems))
            end) (fun elems =>
      call_method "slice" props (Return (JsArr (firstn 50 elems) []))))
  | _ => Throw TypeError
  end.

Definition addToHistory (item : JsVal) (now : string) (st : Storage)
  : Completion unit * Storage :=
  match bind (getHistory st) (next_history item now) with
  | Return history => (Return tt, snd (safe_set "browsingHistory" history st))
  | Throw e => (Throw e, st)
  end.

Definition clearHistory (st : Storage) : Storage :=
  snd (safe_remove "browsingHistory" st).

End WithJSON.

End HistoryUtils.

(* ------------------------------------------------------------------ *)
(** ** The login screen: what it does to the cookies                    *)
(* ------------------------------------------------------------------ *)

(** The component [Login] lists the saved users and lets one of them be
    deleted.  Its state, its messages and its navigation are left out:
    below are the [id] that its effect gives to the entry of a saved user,
    and the call on [CookieUtils] that [handleDeleteUser] makes once the
    user has confirmed. *)
Module LoginScreen.
Import Js JsConversions CookieUtils UserUtilsRest.

Section WithJSON.
Context {J : JSON}.

(** The property [id] of the entry made for [username]:
    [`migration-${username}`] if the record needs migration, and
    [userData?.id || `legacy-${username}`] otherwise. *)
Definition entry_id (username : string) (jar : Jar) : Completion JsVal :=
  let userData := getUserData username jar in
  bind (needsMigration userData) (fun needs =>
  if needs then Return (JsStr ("migration-" ++ username))
  else Return (js_or (get_prop userData "id") (JsStr ("legacy-" ++ username)))).

(** [userId.split('-')[0]]; only a string has a method [split]. *)
Definition split_dash (userId : JsVal) : Completion string :=
  match userId with
  | JsStr text => Return (before_dash text)
  | _ => Throw TypeError
  end.

(** [handleDeleteUser(userId, event)], the deletion confirmed. *)
Definition handleDeleteUser (userId : JsVal) (jar : Jar) : Completion Jar :=
  bind (split_dash userId) (fun username =>
  Return (deleteUserToken username jar)).

End WithJSON.

End LoginScreen.

(* ------------------------------------------------------------------ *)
(** ** Terms of the statements about the user records                   *)
(* ------------------------------------------------------------------ *)

Module UserTerms.
Import Js JsConversions.

(** Every draw of [Math.random()] lies in [[0, 1)]. *)
Definition fair (random : nat -> Q) : Prop :=
  (forall k, 0 <= random k /\ random k < 1)%Q.

(** An argument [isAdmin] that is a boolean, or left out. *)
Definition is_flag (isAdmin : JsVal) : bool :=
  match isAdmin with
  | JsUndefined | JsBool _ => true
  | _ => false
  end.

(** A property name that is not an array index. *)
Definition named (field : string) : Prop := take_while is_digit field <> field.

(** The integers that a number holds exactly. *)
Definition safe_integer (n : Z) : Prop := Z.abs n < 2 ^ 53.

(** An old record whose [id] the migration can take a name from: no [id],
    or a string. *)
Definition id_is_text (id : JsVal) : bool :=
  match id with
  | JsUndefined | JsNull | JsStr _ => true
  | _ => false
  end.

End UserTerms.

(* ------------------------------------------------------------------ *)
(** ** Terms of the statements about the rest of the store              *)
(* ------------------------------------------------------------------ *)

Module StoreTerms.
Import Js JsConversions CookieUtils DocumentCookie CookieUtilsRest.

(** The entries that hold the avatar of [username]. *)
Definition is_avatar_name (username name : string) : Prop :=
  name = userAvatar_name username
  \/ name = userAvatar_chunks_name username
  \/ exists i, name = userAvatar_chunk_name username i.

(** The entries that [setUserToken(username, ...)] may write. *)
Definition is_login_name (username name : string) : Prop :=
  name = userToken_name username
  \/ name = userData_name username
  \/ is_avatar_name username name
  \/ name = "activeUser"
  \/ name = "lastUsers".

(** An avatar that [getUserData] merges into the record it returns. *)
Definition merged_avatar (avatar : option string) : option string :=
  match avatar with
  | Some text =>
      if truthy_str avatar && negb (String.eqb text "default") then Some text
      else None
  | None => None
  end.

(** The username that the entry stands for, if it is a token entry. *)
Definition saved_name (entry : string * string) : option string :=
  if startsWith (fst entry) "userToken_"
  then Some (slice (fst entry) 10 (String.length (fst entry)))
  else None.

(** The usernames found so far, after some more candidates. *)
Definition collect (found : list (option string)) (usernames : list string)
  : list string :=
  fold_left
    (fun usernames candidate =>
       match candidate with
       | Some username =>
           if negb (String.eqb username "") then set_add username usernames
           else usernames
       | None => usernames
       end)
    found usernames.

Section WithJSON.
Context {J : JSON}.

(** The record that [setUserToken] writes out: [userData], without its
    avatar if it has one. *)
Definition stored_record (userData : JsVal) : JsVal :=
  match avatar_field userData with
  | Avatar _ => JsObj (remove_prop "userAvatar" (spread_props userData))
  | _ => userData
  end.

(** The jar after the four statements of [setUserToken] that come before
    [updateLastUsers]. *)
Definition jar_before_roster (username token : string) (userData : JsVal)
  (days : Z) (jar : Jar) : Jar :=
  let jar := setCookie (userToken_name username) token days jar in
  let jar :=
    match avatar_field userData with
    | Avatar avatarData => setUserAvatar username avatarData days jar
    | _ => jar
    end in
  let jar :=
    setCookie (userData_name username) (JSON_stringify (stored_record userData))
      days jar in
  setCookie "activeUser" username days jar.

(** The text that [updateLastUsers(username)] hands to [setCookie], where
    the roster is an array. *)
Definition written_roster (username : string) (jar : Jar) : option string :=
  match getLastUsers jar with
  | JsArr elems _ =>
      Some (JSON_stringify
              (JsArr (firstn 2 (JsStr username :: filter (differs_from username) elems))
                 []))
  | _ => None
  end.

(** The roster that [updateLastUsers(username)] writes, if it writes one,
    is a value that the browser keeps as it is given. *)
Definition keeps_roster (username : string) (jar : Jar) : bool :=
  match written_roster username jar with
  | Some text => kept_value text
  | None => true
  end.

(** What [getUserData] returns for a record [props] that it has parsed. *)
Definition with_avatar (avatar : option string) (props : list (string * JsVal))
  : JsVal :=
  match merged_avatar avatar with
  | Some text => JsObj (assign_prop "userAvatar" (JsStr text) props)
  | None => JsObj props
  end.

End WithJSON.

End StoreTerms.

Module StoredUsersTerms.
Import Js CookieUtils DocumentCookie StoredUsers.

Section WithRuntime.
Context {J : JSON} {U : URI}.

(** What [getAllStoredUsers] makes of one entry of the jar: the record in
    the value of a data entry, the value being read up to its first ['=']
    and without the white space at its end. *)
Definition read_entry (entry : string * string) : list JsVal :=
  if startsWith (fst entry) "userData_" then
    match bind (decodeURIComponent (before_equals (trim_back (snd entry))))
            JSON_parse with
    | Return userData => [userData]
    | Throw _ => []
    end
  else [].

End WithRuntime.

End StoredUsersTerms.

(* ------------------------------------------------------------------ *)
(** ** A decoder for the examples                                       *)
(* ------------------------------------------------------------------ *)

(** [decodeURIComponent] on texts whose code units fit in one byte.  An
    escape [%XX] below [%80] stands for one code unit, and so do the two
    escapes of a two-byte sequence led by [%C2] or [%C3].  A malformed
    escape raises a [URIError], as in the runtime.  Any other sequence
    either raises a [URIError] there or stands for a code unit that does
    not fit in one byte; the decoder stops on it too. *)
Module ConcreteURI.
Import Js ConcreteJSON StoredUsers.

Definition URIError : string := "URIError".
Definition Unrepresented : string := "URIError, or a code unit above 255".

Definition escaped_byte (high low : ascii) : option N :=
  match hex_value high, hex_value low with
  | Some a, Some b => Some (16 * a + b)%N
  | _, _ => None
  end.

Fixpoint decode (text : string) : Completion string :=
  match text with
  | EmptyString => Return ""
  | String c rest =>
      if Ascii.eqb c "%" then
        match rest with
        | String high (String low rest') =>
            match escaped_byte high low with
            | Some byte =>
                if (byte <? 128)%N then
                  bind (decode rest') (fun decoded =>
                  Return (String (ascii_of_N byte) decoded))
                else if ((byte =? 194) || (byte =? 195))%N then
                  match rest' with
                  | String c' (String high' (String low' rest'')) =>
                      if Ascii.eqb c' "%" then
                        match escaped_byte high' low' with
                        | Some continuation =>
                            if ((128 <=? continuation)
                                && (continuation <=? 191))%N
                            then
                              bind (decode rest'') (fun decoded =>
                              Return
                                (String
                                   (ascii_of_N
                                      ((byte - 192) * 64 + (continuation - 128)))
                                   decoded))
                            else Throw URIError
                        | None => Throw URIError
                        end
                      else Throw URIError
                  | _ => Throw URIError
                  end
                else Throw Unrepresented
            | None => Throw URIError
            end
        | _ => Throw URIError
        end
      else bind (decode rest) (fun decoded => Return (String c decoded))
  end.

#[export] Instance decoder : URI := {| decodeURIComponent := decode |}.

End ConcreteURI.

(* ------------------------------------------------------------------ *)
(** ** A JSON reader for nested values                                  *)
(* ------------------------------------------------------------------ *)

(** [JSON.parse] for the texts of values of any depth: [null], [true],
    [false], integers, strings, arrays and objects, with white space
    between the tokens.  Some texts that [JSON.parse] accepts have no
    image among the values of this development, and the reader stops on
    them: a number with a fraction or an exponent, or too large to be held
    exactly; an object with a key made of digits, which the runtime may
    move in front of the other keys; and a string with an escape for a
    code unit that does not fit in one byte. *)
Module FullJSON.
Import Js CookieUtils ConcreteJSON.

Definition Unrepresented : string := "a value outside this development".

Definition is_json_space (c : ascii) : bool :=
  is_char c 32 || is_char c 9 || is_char c 10 || is_char c 13.

Fixpoint skip_ws (text : string) : string :=
  match text with
  | String c rest => if is_json_space c then skip_ws rest else text
  | EmptyString => text
  end.

(** A string, from just after its opening quote: its content and the text
    after its closing quote. *)
Fixpoint read_string (text cur : string) : Completion (string * string) :=
  match text with
  | EmptyString => Throw SyntaxError
  | String c rest =>
      if is_char c 34 then Return (cur, rest)
      else if is_char c 92 then
        match rest with
        | String e rest' =>
            if is_char e 117 then
              match rest' with
              | String h1 (String h2 (String h3 (String h4 rest''))) =>
                  match unicode_escape h1 h2 h3 h4 with
                  | Some u => read_string rest'' (cur ++ String u "")
                  | None => Throw SyntaxError
                  end
              | _ => Throw SyntaxError
              end
            else
              match simple_escape e with
              | Some u => read_string rest' (cur ++ String u "")
              | None => Throw SyntaxError
              end
        | EmptyString => Throw SyntaxError
        end
      else if (N_of_ascii c <? 32)%N then Throw SyntaxError
      else read_string rest (cur ++ String c "")
  end.

Fixpoint drop_while (p : ascii -> bool) (text : string) : string :=
  match text with
  | String c rest => if p c then drop_while p rest else text
  | EmptyString => text
  end.

Definition starts_fraction (text : string) : bool :=
  match text with
  | String c _ => is_char c 46 || is_char c 101 || is_char c 69
  | EmptyString => false
  end.

(** The digits of a number, after its sign if it has one. *)
Definition read_digits (negative : bool) (text : string)
  : Completion (JsVal * string) :=
  let digits := take_while is_digit text in
  let rest := drop_while is_digit text in
  match digits with
  | EmptyString => Throw SyntaxError
  | String first more =>
      if is_char first 48 && negb (String.eqb more "") then Throw SyntaxError
      else if starts_fraction rest then Throw Unrepresented
      else
        match decimal_prefix_value digits with
        | Num z =>
            if z <? 2 ^ 53 then Return (JsNum (Num (if negative then - z else z)), rest)
            else Throw Unrepresented
        | NaN => Throw SyntaxError
        end
  end.

(** A word such as [null], whose first letter has been read. *)
Definition read_word (letters : string) (value : JsVal) (text : string)
  : Completion (JsVal * string) :=
  if startsWith text letters
  then Return (value, slice text (String.length letters) (String.length text))
  else Throw SyntaxError.

Definition is_index (key : string) : bool :=
  negb (String.eqb key "") && String.eqb (take_while is_digit key) key.

(** A value and the text after it.  Each call reads at least one
    character or is made by a call that has, so that twice the length of
    the text is fuel enough. *)
Fixpoint read_value (fuel : nat) (text : string) : Completion (JsVal * string) :=
  match fuel with
  | O => Throw SyntaxError
  | S fuel =>
      match skip_ws text with
      | EmptyString => Throw SyntaxError
      | String c rest =>
          if is_char c 34 then
            bind (read_string rest "") (fun read =>
            Return (JsStr (fst read), snd read))
          else if is_char c 110 then read_word "ull" JsNull rest
          else if is_char c 116 then read_word "rue" (JsBool true) rest
          else if is_char c 102 then read_word "alse" (JsBool false) rest
          else if is_char c 45 then read_digits true rest
          else if is_digit c then read_digits false (String c rest)
          else if is_char c 91 then
            match skip_ws rest with
            | String d rest' =>
                if is_char d 93 then Return (JsArr [] [], rest')
                else read_elements fuel rest []
            | EmptyString => Throw SyntaxError
            end
          else if is_char c 123 then
            match skip_ws rest with
            | String d rest' =>
                if is_char d 125 then Return (JsObj [], rest')
                else read_members fuel rest []
            | EmptyString => Throw SyntaxError
            end
          else Throw SyntaxError
      end
  end

with read_elements (fuel : nat) (text : string) (elems : list JsVal)
  : Completion (JsVal * string) :=
  match fuel with
  | O => Throw SyntaxError
  | S fuel =>
      bind (read_value fuel text) (fun read =>
      let elems := (elems ++ [fst read])%list in
      match skip_ws (snd read) with
      | String d rest =>
          if is_char d 44 then read_elements fuel rest elems
          else if is_char d 93 then Return (JsArr elems [], rest)
          else Throw SyntaxError
      | EmptyString => Throw SyntaxError
      end)
  end

with read_members (fuel : nat) (text : string) (props : list (string * JsVal))
  : Completion (JsVal * string) :=
  match fuel with
  | O => Throw SyntaxError
  | S fuel =>
      match skip_ws text with
      | String q rest =>
          if is_char q 34 then
            bind (read_string rest "") (fun key =>
            if is_index (fst key) then Throw Unrepresented
            else
              match skip_ws (snd key) with
              | String colon rest =>
                  if is_char colon 58 then
                    bind (read_value fuel rest) (fun read =>
                    let props := assign_prop (fst key) (fst read) props in
                    match skip_ws (snd read) with
                    | String d rest =>
                        if is_char d 44 then read_members fuel rest props
                        else if is_char d 125 then Return (JsObj props, rest)
                        else Throw SyntaxError
                    | EmptyString => Throw SyntaxError
                    end)
                  else Throw SyntaxError
              | EmptyString => Throw SyntaxError
              end)
          else Throw SyntaxError
      | EmptyString => Throw SyntaxError
      end
  end.

Definition parse (text : string) : Completion JsVal :=
  bind (read_value (2 * String.length text + 2) text) (fun read =>
  match skip_ws (snd read) with
  | EmptyString => Return (fst read)
  | String _ _ => Throw SyntaxError
  end).

#[export] Instance full : JSON := {|
  JSON_parse := parse;
  JSON_stringify := stringify
|}.

End FullJSON.

(* ================================================================== *)
(** * Part II. Properties                                              *)
(* ================================================================== *)

(** ** Facts about the runtime model *)

Module JsFacts.
Import Js.

Lemma is_digit_range (c : ascii) :
  is_digit c = true -> 0 <= digit_value c <= 9.
Proof.
  unfold is_digit, digit_value.
  rewrite andb_true_iff, N.leb_le, N.leb_le. lia.
Qed.

Lemma ToInt32_small (z : Z) :
  - 2 ^ 31 <= z < 2 ^ 31 -> ToInt32 (Num z) = z.
Proof.
  intros Hz. unfold ToInt32.
  rewrite Z.mod_small; lia.
Qed.

(** Exclusive-or keeps four-bit values within four bits. *)
Lemma lxor_nibble (a b : Z) :
  0 <= a < 16 -> 0 <= b < 16 -> 0 <= Z.lxor a b < 16.
Proof.
  intros Ha Hb. split.
  - apply Z.lxor_nonneg. lia.
  - destruct (Z.eq_dec (Z.lxor a b) 0) as [E | NE]; [lia |].
    assert (0 < Z.lxor a b) by (assert (0 <= Z.lxor a b) by (apply Z.lxor_nonneg; lia); lia).
    apply (Z.log2_lt_pow2 _ 4); [assumption |].
    pose proof (Z.log2_lxor a b ltac:(lia) ltac:(lia)) as Hlog.
    assert (Z.log2 a < 4).
    { destruct (Z.eq_dec a 0) as [-> | ]; [cbn; lia |].
      apply Z.log2_lt_pow2; lia. }
    assert (Z.log2 b < 4).
    { destruct (Z.eq_dec b 0) as [-> | ]; [cbn; lia |].
      apply Z.log2_lt_pow2; lia. }
    lia.
Qed.

Lemma js_xor_nibble (a b : Z) :
  0 <= a < 16 -> 0 <= b < 16 -> js_xor (Num a) (Num b) = Num (Z.lxor a b).
Proof.
  intros Ha Hb. unfold js_xor.
  rewrite !ToInt32_small by lia. reflexivity.
Qed.

Lemma append_nil_r (s : string) : s ++ "" = s.
Proof. induction s as [| c s IH]; cbn; [reflexivity | now rewrite IH]. Qed.

Lemma append_assoc (s t u : string) : (s ++ t) ++ u = s ++ (t ++ u).
Proof. induction s as [| c s IH]; cbn; [reflexivity | now rewrite IH]. Qed.

Lemma length_append (s t : string) :
  String.length (s ++ t) = (String.length s + String.length t)%nat.
Proof. induction s as [| c s IH]; cbn; [reflexivity | now rewrite IH]. Qed.

End JsFacts.

(** ** IdUtils *)

Module IdUtilsFacts.
Import Js JsFacts IdUtils IdUtilsTerms.

Lemma digit_string_2 (s : string) :
  digit_string 2 s = true ->
  exists a b, s = String a (String b "") /\ is_digit a = true /\ is_digit b = true.
Proof.
  unfold digit_string. rewrite andb_true_iff, Nat.eqb_eq. intros [Hlen Hall].
  destruct s as [| a [| b [| c s]]]; cbn in Hlen; try discriminate.
  cbn in Hall. rewrite !andb_true_iff in Hall.
  exists a, b. tauto.
Qed.

Lemma digit_string_4 (s : string) :
  digit_string 4 s = true ->
  exists a b c d, s = String a (String b (String c (String d "")))
    /\ is_digit a = true /\ is_digit b = true
    /\ is_digit c = true /\ is_digit d = true.
Proof.
  unfold digit_string. rewrite andb_true_iff, Nat.eqb_eq. intros [Hlen Hall].
  destruct s as [| a [| b [| c [| d [| e s]]]]]; cbn in Hlen; try discriminate.
  cbn in Hall. rewrite !andb_true_iff in Hall.
  exists a, b, c, d. tauto.
Qed.

Lemma Number_of_digit (c : ascii) :
  is_digit c = true -> Number_of_char c = Num (digit_value c).
Proof. intros H. unfold Number_of_char. now rewrite H. Qed.

(** The three accumulators on six digits, in closed form. *)
Lemma luhn_loop_six (d0 d1 d2 d3 d4 d5 : Z) :
  luhn_loop (six d0 d1 d2 d3 d4 d5) 6 (Num 0)
  = Num (d5 + doubled d4 + d3 + doubled d2 + d1 + doubled d0).
Proof.
  cbn -[Z.mul Z.add Z.sub Z.ltb doubled].
  unfold doubled. rewrite !(Z.mul_comm 2).
  destruct (9 <? d4 * 2), (9 <? d2 * 2), (9 <? d0 * 2);
    cbn -[Z.mul Z.add Z.sub]; f_equal; lia.
Qed.

Lemma weight_loop_six (d0 d1 d2 d3 d4 d5 : Z) :
  weight_loop (six d0 d1 d2 d3 d4 d5) 0 (Num 0)
  = Num (d0 * 3 + d1 * 7 + d2 * 11 + d3 * 13 + d4 * 3 + d5 * 7).
Proof. cbn -[Z.mul Z.add]. f_equal. Qed.

Lemma xor_loop_six (d0 d1 d2 d3 d4 d5 : Z) :
  0 <= d0 <= 9 -> 0 <= d1 <= 9 -> 0 <= d2 <= 9 ->
  0 <= d3 <= 9 -> 0 <= d4 <= 9 -> 0 <= d5 <= 9 ->
  xor_loop (six d0 d1 d2 d3 d4 d5)
  = Num (Z.lxor d0 (Z.lxor d1 (Z.lxor d2 (Z.lxor d3 (Z.lxor d4 (Z.lxor d5 0))))))
  /\ 0 <= Z.lxor d0 (Z.lxor d1 (Z.lxor d2 (Z.lxor d3 (Z.lxor d4 (Z.lxor d5 0))))) < 16.
Proof.
  intros H0 H1 H2 H3 H4 H5.
  unfold xor_loop, six. cbn [fold_left].
  rewrite Z.lxor_0_r.
  assert (N0 : 0 <= Z.lxor 0 d0 < 16) by (apply lxor_nibble; lia).
  assert (N1 : 0 <= Z.lxor (Z.lxor 0 d0) d1 < 16) by (apply lxor_nibble; lia).
  assert (N2 : 0 <= Z.lxor (Z.lxor (Z.lxor 0 d0) d1) d2 < 16)
    by (apply lxor_nibble; lia).
  assert (N3 : 0 <= Z.lxor (Z.lxor (Z.lxor (Z.lxor 0 d0) d1) d2) d3 < 16)
    by (apply lxor_nibble; lia).
  assert (N4 : 0 <= Z.lxor (Z.lxor (Z.lxor (Z.lxor (Z.lxor 0 d0) d1) d2) d3) d4 < 16)
    by (apply lxor_nibble; lia).
  assert (N5 : 0 <= Z.lxor (Z.lxor (Z.lxor (Z.lxor (Z.lxor (Z.lxor 0 d0) d1) d2) d3) d4) d5 < 16)
    by (apply lxor_nibble; lia).
  rewrite (js_xor_nibble 0 d0), js_xor_nibble, js_xor_nibble, js_xor_nibble,
    js_xor_nibble, js_xor_nibble by lia.
  assert (E : Z.lxor (Z.lxor (Z.lxor (Z.lxor (Z.lxor (Z.lxor 0 d0) d1) d2) d3) d4) d5
              = Z.lxor d0 (Z.lxor d1 (Z.lxor d2 (Z.lxor d3 (Z.lxor d4 d5))))).
  { rewrite Z.lxor_0_l, !Z.lxor_assoc. reflexivity. }
  rewrite <- E. split; [reflexivity | assumption].
Qed.

Lemma doubled_range (d : Z) : 0 <= d <= 9 -> 0 <= doubled d <= 9.
Proof. intros H. unfold doubled. destruct (Z.ltb_spec 9 (2 * d)); lia. Qed.

Lemma calculateChecksum_six (a b c d e f : ascii) :
  is_digit a = true -> is_digit b = true -> is_digit c = true ->
  is_digit d = true -> is_digit e = true -> is_digit f = true ->
  calculateChecksum (String a (String b "")) (String c (String d (String e (String f ""))))
  = padStart
      (String_of_Z
         (total (digit_value a) (digit_value b) (digit_value c)
            (digit_value d) (digit_value e) (digit_value f) mod 100))
      2 "0"
  /\ 0 <= total (digit_value a) (digit_value b) (digit_value c)
            (digit_value d) (digit_value e) (digit_value f).
Proof.
  intros Ha Hb Hc Hd He Hf.
  pose proof (is_digit_range _ Ha) as Ra. pose proof (is_digit_range _ Hb) as Rb.
  pose proof (is_digit_range _ Hc) as Rc. pose proof (is_digit_range _ Hd) as Rd.
  pose proof (is_digit_range _ He) as Re. pose proof (is_digit_range _ Hf) as Rf.
  unfold calculateChecksum, allDigits_of.
  cbn [append list_ascii_of_string map].
  rewrite !Number_of_digit by assumption.
  change [Num (digit_value a); Num (digit_value b); Num (digit_value c);
          Num (digit_value d); Num (digit_value e); Num (digit_value f)]
    with (six (digit_value a) (digit_value b) (digit_value c)
            (digit_value d) (digit_value e) (digit_value f)).
  change (List.length (six (digit_value a) (digit_value b) (digit_value c)
            (digit_value d) (digit_value e) (digit_value f))) with 6%nat.
  rewrite luhn_loop_six, weight_loop_six.
  destruct (xor_loop_six _ _ _ _ _ _ Ra Rb Rc Rd Re Rf) as [-> Hx].
  pose proof (doubled_range _ Ra). pose proof (doubled_range _ Rc).
  pose proof (doubled_range _ Re).
  assert (Hpos : 0 <= total (digit_value a) (digit_value b) (digit_value c)
            (digit_value d) (digit_value e) (digit_value f)).
  { unfold total. lia. }
  split; [| exact Hpos].
  cbn [js_add js_rem Z.eqb String_of_number].
  fold (total (digit_value a) (digit_value b) (digit_value c)
            (digit_value d) (digit_value e) (digit_value f)).
  rewrite Z.rem_mod_nonneg by lia. reflexivity.
Qed.

Lemma reference_checksum_six (a b c d e f : ascii) :
  reference_checksum (String a (String b "")) (String c (String d (String e (String f ""))))
  = padStart
      (String_of_Z
         (total (digit_value a) (digit_value b) (digit_value c)
            (digit_value d) (digit_value e) (digit_value f) mod 100))
      2 "0".
Proof.
  unfold reference_checksum, reference_luhnSum, reference_weightSum,
    reference_xorResult, total.
  cbn [append list_ascii_of_string map rev app luhn_walk negb List.length seq
       fold_right nth Nat.modulo Nat.divmod fst snd Nat.sub reference_weights].
  do 3 f_equal. lia.
Qed.

(** *** C2 *)

(** C2.  For every two-digit partition and four-digit random part,
    [calculateChecksum] returns what the reference definition returns: the
    Luhn-style sum taken right-to-left with every second digit doubled and
    reduced by nine, plus the sum of the digits weighted by 3, 7, 11, 13
    left-to-right, plus the exclusive-or of the six digits, modulo 100 and
    padded to two digits. *)
Theorem calculateChecksum_meets_reference (prefix randomDigits : string) :
  digit_string 2 prefix = true ->
  digit_string 4 randomDigits = true ->
  calculateChecksum prefix randomDigits = reference_checksum prefix randomDigits.
Proof.
  intros Hp Hr.
  destruct (digit_string_2 _ Hp) as (a & b & -> & Ha & Hb).
  destruct (digit_string_4 _ Hr) as (c & d & e & f & -> & Hc & Hd & He & Hf).
  rewrite reference_checksum_six.
  now apply calculateChecksum_six.
Qed.

Lemma calculateChecksum_meets_reference_witness :
  digit_string 2 "42" = true /\ digit_string 4 "0007" = true
  /\ calculateChecksum "42" "0007" = reference_checksum "42" "0007".
Proof.
  split; [reflexivity |]. split; [reflexivity |].
  apply (calculateChecksum_meets_reference "42" "0007"); reflexivity.
Defined.

(** *** C1 *)

Lemma floor_scaled_range (r : Q) (n : Z) :
  (0 <= r)%Q -> (r < 1)%Q -> 0 < n -> 0 <= floor_scaled r n < n.
Proof.
  intros Hlo Hhi Hn. unfold floor_scaled.
  assert (Hn' : (0 < inject_Z n)%Q) by (change (inject_Z 0 < inject_Z n)%Q; rewrite <- Zlt_Qlt; exact Hn).
  split.
  - change 0 with (Qfloor (inject_Z 0)) at 1.
    apply Qfloor_resp_le.
    apply Qmult_le_0_compat; [exact Hlo | apply Qlt_le_weak; exact Hn'].
  - rewrite Zlt_Qlt.
    apply Qle_lt_trans with (y := (r * inject_Z n)%Q); [apply Qfloor_le |].
    setoid_replace (inject_Z n) with (1 * inject_Z n)%Q at 2 by ring.
    apply Qmult_lt_compat_r; assumption.
Qed.

(** The renderings, checked entry by entry. *)
Lemma pad2_table :
  forallb (fun n => digit_string 2 (pad2 (Z.of_nat n))
                    && ((n =? 0)%nat || negb (String.eqb (pad2 (Z.of_nat n)) "00")))
    (seq 0 100) = true.
Proof. vm_compute. reflexivity. Qed.

Lemma pad4_table :
  forallb (fun n => digit_string 4 (pad4 (Z.of_nat n))) (seq 0 (Z.to_nat 10000)) = true.
Proof. vm_compute. reflexivity. Qed.

Lemma pad2_digits (z : Z) : 0 <= z < 100 -> digit_string 2 (pad2 z) = true.
Proof.
  intros Hz. pose proof pad2_table as T. rewrite forallb_forall in T.
  specialize (T (Z.to_nat z)). rewrite Z2Nat.id in T by lia.
  apply andb_true_iff in T; [tauto |]. apply in_seq. lia.
Qed.

Lemma pad2_not_admin (z : Z) : 1 <= z < 100 -> String.eqb (pad2 z) "00" = false.
Proof.
  intros Hz. pose proof pad2_table as T. rewrite forallb_forall in T.
  specialize (T (Z.to_nat z)). rewrite Z2Nat.id in T by lia.
  apply andb_true_iff in T; [| apply in_seq; lia].
  destruct T as [_ T]. apply orb_true_iff in T. destruct T as [T | T].
  - apply Nat.eqb_eq in T. lia.
  - now apply negb_true_iff in T.
Qed.

Lemma pad4_digits (z : Z) : 0 <= z < 10000 -> digit_string 4 (pad4 z) = true.
Proof.
  intros Hz. pose proof pad4_table as T. rewrite forallb_forall in T.
  specialize (T (Z.to_nat z)). rewrite Z2Nat.id in T by lia.
  apply T. apply in_seq. lia.
Qed.

Lemma calculateChecksum_two_digits (prefix randomDigits : string) :
  digit_string 2 prefix = true ->
  digit_string 4 randomDigits = true ->
  digit_string 2 (calculateChecksum prefix randomDigits) = true.
Proof.
  intros Hp Hr.
  destruct (digit_string_2 _ Hp) as (a & b & -> & Ha & Hb).
  destruct (digit_string_4 _ Hr) as (c & d & e & f & -> & Hc & Hd & He & Hf).
  destruct (calculateChecksum_six a b c d e f) as [-> Hpos]; try assumption.
  apply pad2_digits. apply Z.mod_pos_bound. lia.
Qed.

(** An identifier put together from well-formed parts: what the pattern
    gives back, and whether it starts with the administrator prefix. *)
Lemma match_idPattern_assembled (prefix checksum randomDigits : string) :
  digit_string 2 prefix = true ->
  digit_string 2 checksum = true ->
  digit_string 4 randomDigits = true ->
  match_idPattern (prefix ++ checksum ++ "-" ++ randomDigits)
  = Some (prefix, checksum, randomDigits)
  /\ startsWith (prefix ++ checksum ++ "-" ++ randomDigits) ADMIN_PREFIX
     = String.eqb prefix ADMIN_PREFIX.
Proof.
  intros Hp Hc Hr.
  destruct (digit_string_2 _ Hp) as (a & b & -> & Ha & Hb).
  destruct (digit_string_2 _ Hc) as (c & d & -> & Hc' & Hd).
  destruct (digit_string_4 _ Hr) as (e & f & g & i & -> & He & Hf & Hg & Hi).
  split.
  - cbn [append match_idPattern].
    rewrite Ha, Hb, Hc', Hd, He, Hf, Hg, Hi. reflexivity.
  - unfold startsWith, ADMIN_PREFIX. cbn [append String.prefix String.eqb].
    destruct (ascii_dec "0" a) as [<- | Na].
    + rewrite Ascii.eqb_refl.
      destruct (ascii_dec "0" b) as [<- | Nb].
      * reflexivity.
      * apply Ascii.eqb_neq in Nb. rewrite Ascii.eqb_sym in Nb.
        now rewrite Nb.
    + apply Ascii.eqb_neq in Na. rewrite Ascii.eqb_sym in Na.
      now rewrite Na.
Qed.

Lemma generateUserId_parts (isAdmin : bool) (random : nat -> Q) :
  generateUserId isAdmin random
  = generated_prefix isAdmin random
    ++ calculateChecksum (generated_prefix isAdmin random)
         (generated_randomDigits isAdmin random)
    ++ "-" ++ generated_randomDigits isAdmin random.
Proof. reflexivity. Qed.

Lemma generated_prefix_spec (isAdmin : bool) (random : nat -> Q) :
  (forall k, 0 <= random k /\ random k < 1)%Q ->
  digit_string 2 (generated_prefix isAdmin random) = true
  /\ String.eqb (generated_prefix isAdmin random) ADMIN_PREFIX = isAdmin.
Proof.
  intros Hrandom. unfold generated_prefix. destruct isAdmin.
  - split; reflexivity.
  - destruct (Hrandom 0%nat) as [Hlo Hhi].
    pose proof (floor_scaled_range (random 0%nat)
                  (USER_PREFIX_MAX - USER_PREFIX_MIN + 1) Hlo Hhi) as Hk.
    unfold USER_PREFIX_MAX, USER_PREFIX_MIN in *.
    specialize (Hk ltac:(lia)).
    split; [apply pad2_digits | apply pad2_not_admin]; lia.
Qed.

Lemma generated_randomDigits_spec (isAdmin : bool) (random : nat -> Q) :
  (forall k, 0 <= random k /\ random k < 1)%Q ->
  digit_string 4 (generated_randomDigits isAdmin random) = true.
Proof.
  intros Hrandom. unfold generated_randomDigits.
  apply pad4_digits. apply floor_scaled_range; try lia;
    destruct isAdmin; apply Hrandom.
Qed.

(** C1.  Whatever [Math.random()] draws, the identifier that
    [generateUserId(isAdmin)] returns passes [validateUserId], and
    [isAdminId] reads back exactly the requested role: [true] for
    [generateUserId(true)] and [false] for [generateUserId(false)]. *)
Theorem generateUserId_valid_with_role (isAdmin : bool) (random : nat -> Q) :
  (forall k, 0 <= random k /\ random k < 1)%Q ->
  validateUserId (JsStr (generateUserId isAdmin random)) = Return true
  /\ isAdminId (JsStr (generateUserId isAdmin random)) = Return isAdmin.
Proof.
  intros Hrandom.
  destruct (generated_prefix_spec isAdmin random Hrandom) as [Hp Hrole].
  pose proof (generated_randomDigits_spec isAdmin random Hrandom) as Hr.
  pose proof (calculateChecksum_two_digits _ _ Hp Hr) as Hc.
  destruct (match_idPattern_assembled _ _ _ Hp Hc Hr) as [Hmatch Hstart].
  rewrite <- generateUserId_parts in Hmatch, Hstart.
  assert (Hvalid : validateUserId (JsStr (generateUserId isAdmin random)) = Return true).
  { unfold validateUserId.
    assert (Htruthy : truthy (JsStr (generateUserId isAdmin random)) = true).
    { cbn [truthy]. destruct (generateUserId isAdmin random); [discriminate Hmatch |].
      reflexivity. }
    rewrite Htruthy. cbn [negb orb typeof_is_string call_match_idPattern bind].
    rewrite Hmatch. now rewrite String.eqb_refl. }
  split; [exact Hvalid |].
  unfold isAdminId. rewrite Hvalid. cbn [bind negb call_startsWith].
  now rewrite Hstart, Hrole.
Qed.

Lemma generateUserId_valid_with_role_witness :
  validateUserId (JsStr (generateUserId false (fun _ => 1 # 2)%Q)) = Return true
  /\ isAdminId (JsStr (generateUserId false (fun _ => 1 # 2)%Q)) = Return false.
Proof.
  apply (generateUserId_valid_with_role false (fun _ => 1 # 2)%Q).
  intros k. split; [discriminate | reflexivity].
Defined.

(** *** C9 *)

Lemma validateUserId_returns (userId : JsVal) :
  validateUserId userId = Return true \/ validateUserId userId = Return false.
Proof.
  unfold validateUserId.
  destruct userId as [| | b | n | s | props | elems props];
    cbn [truthy typeof_is_string negb orb call_match_idPattern bind];
    rewrite ?orb_true_r; try (right; reflexivity).
  destruct (negb (String.eqb s "")); cbn [negb orb bind];
    [| right; reflexivity].
  destruct (match_idPattern s) as [[[p c] r] |]; [| right; reflexivity].
  destruct (String.eqb c (calculateChecksum p r)); [left | right]; reflexivity.
Qed.

(** C9.  An identifier that [validateUserId] rejects, be it a string of the
    wrong shape, a string with the wrong check digits or not a string at all,
    is never an administrator identifier and has neither a prefix nor random
    digits: the three operations return [false], [null] and [null], and none
    of them raises. *)
Theorem invalid_id_is_inert (userId : JsVal) :
  validateUserId userId = Return false ->
  isAdminId userId = Return false
  /\ getPrefix userId = Return None
  /\ getRandomDigits userId = Return None.
Proof.
  intros Hinvalid.
  unfold isAdminId, getPrefix, getRandomDigits.
  rewrite Hinvalid. cbn. repeat split.
Qed.

Lemma invalid_id_is_inert_witness :
  validateUserId (JsStr "0093-1234") = Return false
  /\ isAdminId (JsStr "0093-1234") = Return false
  /\ getPrefix (JsStr "0093-1234") = Return None
  /\ getRandomDigits (JsStr "0093-1234") = Return None.
Proof.
  split; [reflexivity |].
  apply (invalid_id_is_inert (JsStr "0093-1234")). reflexivity.
Defined.

(** No operation of the codec raises, whatever it is given. *)
Lemma codec_never_throws (userId : JsVal) :
  (exists b, validateUserId userId = Return b)
  /\ (exists b, isAdminId userId = Return b)
  /\ (exists p, getPrefix userId = Return p)
  /\ (exists r, getRandomDigits userId = Return r).
Proof.
  unfold isAdminId, getPrefix, getRandomDigits.
  destruct (validateUserId_returns userId) as [Hv | Hv]; rewrite Hv.
  - assert (exists s, userId = JsStr s) as [s ->].
    { unfold validateUserId in Hv.
      destruct userId;
        cbn [truthy typeof_is_string negb orb] in Hv;
        rewrite ?orb_true_r in Hv; try discriminate Hv.
      eauto. }
    cbn. repeat split; eauto.
  - cbn. repeat split; eauto.
Qed.

Lemma codec_never_throws_id (userId : JsVal) :
  (exists b, validateUserId userId = Return b)
  /\ (exists b, isAdminId userId = Return b).
Proof.
  destruct (codec_never_throws userId) as (Hv & Ha & _). now split.
Qed.

Example non_string_ids_rejected :
  validateUserId JsNull = Return false
  /\ validateUserId JsUndefined = Return false
  /\ validateUserId (JsNum (Num 921234)) = Return false
  /\ validateUserId (JsObj []) = Return false
  /\ validateUserId (JsStr "") = Return false
  /\ validateUserId (JsStr "0092-1234") = Return true
  /\ isAdminId (JsStr "0092-1234") = Return true
  /\ getPrefix (JsStr "0092-1234") = Return (Some "00")
  /\ getRandomDigits (JsStr "0092-1234") = Return (Some "1234").
Proof. repeat split. Qed.

End IdUtilsFacts.

(** ** UserUtils *)

Module UserUtilsFacts.
Import Js JsFacts IdUtils UserUtils IdUtilsTerms IdUtilsFacts.

(** C3.  [validateUserData] never raises.  It returns [false] whenever the
    record's id fails [validateUserId], and whenever the stored [isAdmin]
    flag is not the role that [isAdminId] derives from the id.  It returns
    [true] only when id, username and email are present, the id is valid and
    the stored flag is that derived role. *)
Theorem validateUserData_rejects_inconsistency (userData : JsVal) :
  (exists b, validateUserData userData = Return b)
  /\ (validateUserId (get_prop userData "id") = Return false ->
      validateUserData userData = Return false)
  /\ (forall role,
        isAdminId (get_prop userData "id") = Return role ->
        get_prop userData "isAdmin" <> JsBool role ->
        validateUserData userData = Return false)
  /\ (validateUserData userData = Return true ->
      truthy (get_prop userData "id") = true
      /\ truthy (get_prop userData "username") = true
      /\ truthy (get_prop userData "email") = true
      /\ validateUserId (get_prop userData "id") = Return true
      /\ exists role,
           isAdminId (get_prop userData "id") = Return role
           /\ get_prop userData "isAdmin" = JsBool role).
Proof.
  unfold validateUserData.
  destruct (negb (truthy userData) || negb (typeof_is_object userData)) eqn:Hobj.
  { repeat split; eauto; discriminate. }
  cbn [requiredFields existsb].
  destruct (truthy (get_prop userData "id")) eqn:Hid;
    [| cbn; repeat split; eauto; discriminate].
  destruct (truthy (get_prop userData "username")) eqn:Hname;
    [| cbn; repeat split; eauto; discriminate].
  destruct (truthy (get_prop userData "email")) eqn:Hmail;
    [| cbn; repeat split; eauto; discriminate].
  cbn [negb orb].
  destruct (codec_never_throws_id (get_prop userData "id")) as [Hv Ha].
  destruct Hv as [[] Hv]; rewrite Hv; cbn [bind negb];
    [| repeat split; eauto; discriminate].
  destruct Ha as [role Ha]. rewrite Ha. cbn [bind].
  destruct (get_prop userData "isAdmin") as [| | flag | | | |] eqn:Hflag;
    cbn [strict_eq_bool negb];
    try (repeat split; eauto; try discriminate;
         intros role' Hrole' _; reflexivity).
  destruct (Bool.eqb flag role) eqn:Hcmp; cbn [negb].
  - apply Bool.eqb_prop in Hcmp. subst flag.
    repeat split; eauto; try discriminate.
    intros role' Hrole' Hne. congruence.
  - repeat split; eauto; discriminate.
Qed.

Example consistent_record_accepted :
  validateUserData
    (JsObj [("id", JsStr "0092-1234"); ("username", JsStr "root");
            ("email", JsStr "root@example.org"); ("isAdmin", JsBool true)])
  = Return true.
Proof. reflexivity. Qed.

Example inconsistent_record_rejected :
  validateUserData
    (JsObj [("id", JsStr "0092-1234"); ("username", JsStr "root");
            ("email", JsStr "root@example.org"); ("isAdmin", JsBool false)])
  = Return false
  /\ validateUserData
       (JsObj [("id", JsStr "0092-1234"); ("username", JsStr "root");
               ("email", JsStr "root@example.org"); ("isAdmin", JsStr "true")])
     = Return false
  /\ validateUserData
       (JsObj [("id", JsStr "0093-1234"); ("username", JsStr "root");
               ("email", JsStr "root@example.org"); ("isAdmin", JsBool true)])
     = Return false
  /\ validateUserData
       (JsObj [("id", JsStr "0092-1234"); ("username", JsStr "");
               ("email", JsStr "root@example.org"); ("isAdmin", JsBool true)])
     = Return false
  /\ validateUserData JsNull = Return false.
Proof. repeat split. Qed.

End UserUtilsFacts.

(** ** The cookie jar and the entry names *)

Module JarFacts.
Import Js JsFacts CookieUtils.

Lemma jar_find_put_same (name value : string) (jar : Jar) :
  jar_find name (jar_put name value jar) = Some value.
Proof.
  induction jar as [| [n v] jar IH]; cbn.
  - now rewrite String.eqb_refl.
  - destruct (String.eqb n name) eqn:E; cbn; now rewrite E.
Qed.

Lemma jar_find_put_other (name name' value : string) (jar : Jar) :
  name <> name' ->
  jar_find name (jar_put name' value jar) = jar_find name jar.
Proof.
  intros Hne. induction jar as [| [n v] jar IH]; cbn.
  - destruct (String.eqb_spec name' name); congruence.
  - destruct (String.eqb_spec n name') as [-> | Hn]; cbn.
    + destruct (String.eqb_spec name' name); congruence.
    + destruct (String.eqb_spec n name); congruence.
Qed.

Lemma jar_find_remove_same (name : string) (jar : Jar) :
  jar_find name (jar_remove name jar) = None.
Proof.
  unfold jar_remove.
  induction jar as [| [n v] jar IH]; cbn; [reflexivity |].
  destruct (String.eqb_spec n name) as [-> | Hn]; cbn; [exact IH |].
  destruct (String.eqb_spec n name); congruence.
Qed.

Lemma jar_find_remove_other (name name' : string) (jar : Jar) :
  name <> name' ->
  jar_find name (jar_remove name' jar) = jar_find name jar.
Proof.
  intros Hne. unfold jar_remove.
  induction jar as [| [n v] jar IH]; cbn; [reflexivity |].
  destruct (String.eqb_spec n name') as [-> | Hn]; cbn.
  - destruct (String.eqb_spec name' name); congruence.
  - destruct (String.eqb_spec n name); congruence.
Qed.

Lemma getCookie_setCookie_same (name value : string) (days : Z) (jar : Jar) :
  0 < days -> getCookie name (setCookie name value days jar) = Some value.
Proof.
  intros Hdays. unfold getCookie, setCookie.
  apply Z.ltb_lt in Hdays. rewrite Hdays. apply jar_find_put_same.
Qed.

Lemma getCookie_setCookie_other (name name' value : string) (days : Z) (jar : Jar) :
  name <> name' ->
  getCookie name (setCookie name' value days jar) = getCookie name jar.
Proof.
  intros Hne. unfold getCookie, setCookie. destruct (0 <? days).
  - now apply jar_find_put_other.
  - now apply jar_find_remove_other.
Qed.

Lemma getCookie_deleteCookie_same (name : string) (jar : Jar) :
  getCookie name (deleteCookie name jar) = None.
Proof. apply jar_find_remove_same. Qed.


(** *** Decimal indices *)

Lemma String_of_nat_uint (n : nat) :
  String_of_nat n = DecimalString.NilEmpty.string_of_uint (N.to_uint (N.of_nat n)).
Proof.
  unfold String_of_nat, String_of_Z. destruct n as [| n]; reflexivity.
Qed.

Lemma string_of_uint_digits (d : Decimal.uint) :
  take_while is_digit (DecimalString.NilEmpty.string_of_uint d)
  = DecimalString.NilEmpty.string_of_uint d.
Proof. induction d; cbn; congruence. Qed.

Lemma to_uint_nonnil (n : N) : N.to_uint n <> Decimal.Nil.
Proof.
  destruct n as [| p]; cbn; [discriminate |].
  apply DecimalPos.Unsigned.to_uint_nonnil.
Qed.

Lemma decimal_prefix_value_to_uint (n : N) :
  decimal_prefix_value (DecimalString.NilEmpty.string_of_uint (N.to_uint n))
  = Num (Z.of_N n).
Proof.
  unfold decimal_prefix_value.
  rewrite string_of_uint_digits, DecimalString.NilEmpty.usu.
  pose proof (to_uint_nonnil n) as Hnil.
  pose proof (DecimalN.Unsigned.of_to n) as Hback.
  destruct (N.to_uint n); try congruence.
Qed.

Lemma has_hex_marker_digits (d : Decimal.uint) :
  has_hex_marker (DecimalString.NilEmpty.string_of_uint d) = false.
Proof. destruct d as [| d | d | d | d | d | d | d | d | d | d]; try reflexivity;
  destruct d; reflexivity. Qed.

(** A text made of decimal digits is read in radix ten from its first
    character on. *)
Lemma parseInt_digits (d : Decimal.uint) :
  d <> Decimal.Nil ->
  parseInt (DecimalString.NilEmpty.string_of_uint d)
  = decimal_prefix_value (DecimalString.NilEmpty.string_of_uint d).
Proof.
  intros Hnil. unfold parseInt.
  pose proof (has_hex_marker_digits d) as Hhex.
  destruct d as [| d | d | d | d | d | d | d | d | d | d];
    try congruence;
    cbn [DecimalString.NilEmpty.string_of_uint] in *;
    cbn [skip_spaces is_space N_of_ascii]; cbn -[unsigned_prefix_value];
    unfold unsigned_prefix_value; now rewrite Hhex.
Qed.

Lemma parseInt_String_of_nat (n : nat) :
  parseInt (String_of_nat n) = Num (Z.of_nat n).
Proof.
  rewrite String_of_nat_uint, parseInt_digits by apply to_uint_nonnil.
  rewrite decimal_prefix_value_to_uint. now rewrite nat_N_Z.
Qed.

Lemma String_of_nat_inj (i j : nat) : String_of_nat i = String_of_nat j -> i = j.
Proof.
  intros E. apply (f_equal parseInt) in E.
  rewrite !parseInt_String_of_nat in E. injection E. lia.
Qed.

Lemma String_of_nat_nonempty (n : nat) : String_of_nat n <> "".
Proof.
  intros E. apply (f_equal parseInt) in E.
  rewrite parseInt_String_of_nat in E. discriminate E.
Qed.

(** *** Entry names *)

Lemma append_cancel_l (s a b : string) : s ++ a = s ++ b -> a = b.
Proof. induction s as [| c s IH]; cbn; intros E; [exact E |]. injection E. auto. Qed.

Lemma append_length_absurd (s t : string) : t <> "" -> s <> s ++ t.
Proof.
  intros Ht E. apply (f_equal String.length) in E.
  rewrite length_append in E. destruct t; [congruence | cbn in E; lia].
Qed.

Lemma chunk_name_inj (username : string) (i j : nat) :
  userAvatar_chunk_name username i = userAvatar_chunk_name username j -> i = j.
Proof.
  unfold userAvatar_chunk_name. intros E.
  apply append_cancel_l, append_cancel_l, append_cancel_l in E.
  now apply String_of_nat_inj.
Qed.

Lemma avatar_name_not_chunks (username : string) :
  userAvatar_name username <> userAvatar_chunks_name username.
Proof.
  unfold userAvatar_name, userAvatar_chunks_name. intros E.
  apply append_cancel_l in E. revert E. now apply append_length_absurd.
Qed.

Lemma avatar_name_not_chunk (username : string) (i : nat) :
  userAvatar_name username <> userAvatar_chunk_name username i.
Proof.
  unfold userAvatar_name, userAvatar_chunk_name. intros E.
  apply append_cancel_l in E. revert E. now apply append_length_absurd.
Qed.

Lemma chunks_name_not_chunk (username : string) (i : nat) :
  userAvatar_chunks_name username <> userAvatar_chunk_name username i.
Proof.
  unfold userAvatar_chunks_name, userAvatar_chunk_name. intros E.
  apply append_cancel_l, append_cancel_l in E.
  cbn in E. discriminate E.
Qed.

End JarFacts.

(** ** Avatars: chunked storage *)

Module AvatarFacts.
Import Js JsFacts CookieUtils DocumentCookie CookieTerms JarFacts.

(** *** Substrings *)

Lemma substring_empty (i m : nat) : String.substring i m "" = "".
Proof. destruct i, m; reflexivity. Qed.

Lemma substring_length (s : string) :
  forall i m,
    String.length (String.substring i m s) = Nat.min m (String.length s - i).
Proof.
  induction s as [| c s IH]; intros i m.
  - rewrite substring_empty. cbn. now rewrite Nat.min_0_r.
  - destruct i as [| i]; destruct m as [| m]; cbn [String.substring String.length].
    + reflexivity.
    + rewrite IH. cbn. now rewrite Nat.sub_0_r.
    + rewrite IH. reflexivity.
    + rewrite IH. reflexivity.
Qed.

Lemma tail_from_0 (s : string) : tail_from 0 s = s.
Proof.
  unfold tail_from. rewrite Nat.sub_0_r.
  induction s as [| c s IH]; cbn; [reflexivity | now rewrite IH].
Qed.

Lemma tail_from_cons (c : ascii) (s : string) (i : nat) :
  tail_from (S i) (String c s) = tail_from i s.
Proof. reflexivity. Qed.

Lemma tail_from_end (s : string) (i : nat) :
  (String.length s <= i)%nat -> tail_from i s = "".
Proof.
  intros Hi. unfold tail_from.
  pose proof (substring_length s i (String.length s - i)) as Hlen.
  destruct (String.substring i (String.length s - i) s); [reflexivity |].
  cbn in Hlen. lia.
Qed.

(** A substring followed by the rest is the rest from where it starts. *)
Lemma substring_then_tail (s : string) :
  forall i m, String.substring i m s ++ tail_from (i + m) s = tail_from i s.
Proof.
  induction s as [| c s IH]; intros i m.
  - unfold tail_from. now rewrite !substring_empty.
  - destruct i as [| i].
    + destruct m as [| m]; [reflexivity |].
      cbn [Nat.add]. rewrite tail_from_cons.
      specialize (IH 0%nat m). cbn [Nat.add] in IH.
      unfold tail_from at 2. cbn [String.length Nat.sub String.substring append].
      rewrite IH. unfold tail_from. now rewrite Nat.sub_0_r.
    + cbn [Nat.add]. rewrite !tail_from_cons. cbn [String.substring]. apply IH.
Qed.

Lemma slice_chunk (s : string) (i : nat) :
  slice s i (i + chunkSize) = String.substring i chunkSize s.
Proof. unfold slice. f_equal. lia. Qed.

(** *** Splitting *)

Lemma concat_split_loop (s : string) :
  forall rounds i,
    (String.length s - i <= rounds)%nat ->
    concat_chunks (split_loop s rounds i) = tail_from i s.
Proof.
  induction rounds as [| rounds IH]; intros i Hrounds; cbn [split_loop].
  - cbn. symmetry. apply tail_from_end. lia.
  - destruct (Nat.ltb_spec i (String.length s)) as [Hi | Hi].
    + cbn [concat_chunks fold_right]. fold (concat_chunks (split_loop s rounds (i + chunkSize))).
      rewrite IH by (unfold chunkSize; lia).
      rewrite slice_chunk. apply substring_then_tail.
    + cbn. symmetry. now apply tail_from_end.
Qed.

Lemma concat_split_chunks (s : string) : concat_chunks (split_chunks s) = s.
Proof.
  unfold split_chunks. rewrite concat_split_loop by lia. apply tail_from_0.
Qed.

Lemma split_loop_nonempty (s : string) :
  forall rounds i chunk, In chunk (split_loop s rounds i) -> chunk <> "".
Proof.
  induction rounds as [| rounds IH]; intros i chunk Hin; cbn [split_loop] in Hin.
  - contradiction.
  - destruct (Nat.ltb_spec i (String.length s)) as [Hi | Hi]; [| contradiction].
    destruct Hin as [<- | Hin]; [| now apply (IH (i + chunkSize)%nat)].
    intros E. apply (f_equal String.length) in E.
    rewrite slice_chunk, substring_length in E. unfold chunkSize in E.
    cbn [String.length] in E. lia.
Qed.

(** The chunk of index [j] is the slice that starts [j] chunk sizes in. *)
Lemma split_loop_nth (s : string) :
  forall rounds i j,
    (j < List.length (split_loop s rounds i))%nat ->
    nth j (split_loop s rounds i) ""
    = slice s (i + j * chunkSize) (i + j * chunkSize + chunkSize).
Proof.
  induction rounds as [| rounds IH]; intros i j Hj; cbn [split_loop] in *.
  - cbn in Hj. lia.
  - destruct (Nat.ltb_spec i (String.length s)) as [Hi | Hi]; [| cbn in Hj; lia].
    destruct j as [| j]; cbn [nth].
    + now rewrite Nat.mul_0_l, Nat.add_0_r.
    + cbn [List.length] in Hj. rewrite IH by lia. f_equal; lia.
Qed.

(** The number of chunks: the length divided by the chunk size, rounded up. *)
Lemma split_loop_length (s : string) :
  forall rounds i,
    (String.length s - i <= rounds)%nat ->
    List.length (split_loop s rounds i)
    = ((String.length s - i + (chunkSize - 1)) / chunkSize)%nat.
Proof.
  induction rounds as [| rounds IH]; intros i Hrounds; cbn [split_loop].
  - replace (String.length s - i)%nat with 0%nat by lia. reflexivity.
  - destruct (Nat.ltb_spec i (String.length s)) as [Hi | Hi].
    + cbn [List.length]. rewrite IH by (unfold chunkSize; lia).
      unfold chunkSize.
      destruct (Nat.le_gt_cases (String.length s - i) 3000) as [Hsmall | Hbig].
      * replace (String.length s - (i + 3000))%nat with 0%nat by lia.
        cbn [Nat.add]. rewrite (Nat.div_small (3000 - 1)) by lia.
        apply (Nat.div_unique _ _ 1 (String.length s - i - 1)); lia.
      * replace (String.length s - i + (3000 - 1))%nat
          with (String.length s - (i + 3000) + (3000 - 1) + 1 * 3000)%nat by lia.
        rewrite Nat.div_add by lia. lia.
    + replace (String.length s - i)%nat with 0%nat by lia. reflexivity.
Qed.

Lemma split_chunks_length (s : string) :
  List.length (split_chunks s)
  = ((String.length s + (chunkSize - 1)) / chunkSize)%nat.
Proof.
  unfold split_chunks. rewrite split_loop_length by lia. now rewrite Nat.sub_0_r.
Qed.

(** *** Writing the chunks and reading them back *)

Lemma store_chunks_other (username name : string) (days : Z) :
  (forall k, name <> userAvatar_chunk_name username k) ->
  forall chunks index jar,
    getCookie name (store_chunks username chunks index days jar)
    = getCookie name jar.
Proof.
  intros Hname. induction chunks as [| chunk chunks IH]; intros index jar;
    cbn [store_chunks]; [reflexivity |].
  rewrite IH. apply getCookie_setCookie_other, Hname.
Qed.

Lemma store_chunks_below (username : string) (days : Z) :
  forall chunks index k jar,
    (k < index)%nat ->
    getCookie (userAvatar_chunk_name username k)
      (store_chunks username chunks index days jar)
    = getCookie (userAvatar_chunk_name username k) jar.
Proof.
  induction chunks as [| chunk chunks IH]; intros index k jar Hk;
    cbn [store_chunks]; [reflexivity |].
  rewrite IH by lia. apply getCookie_setCookie_other.
  intros E. apply chunk_name_inj in E. lia.
Qed.

Lemma store_chunks_get (username : string) (days : Z) :
  0 < days ->
  forall chunks index j jar,
    (j < List.length chunks)%nat ->
    getCookie (userAvatar_chunk_name username (index + j))
      (store_chunks username chunks index days jar)
    = Some (nth j chunks "").
Proof.
  intros Hdays.
  induction chunks as [| chunk chunks IH]; intros index j jar Hj;
    cbn [List.length] in Hj; [lia |].
  cbn [store_chunks]. destruct j as [| j]; cbn [nth].
  - rewrite Nat.add_0_r, store_chunks_below by lia.
    now apply getCookie_setCookie_same.
  - replace (index + S j)%nat with (S index + j)%nat by lia.
    apply IH. lia.
Qed.

Lemma truthy_str_Some (s : string) : s <> "" -> truthy_str (Some s) = true.
Proof. intros Hs. cbn. now destruct (String.eqb_spec s ""). Qed.

Lemma chunks_loop_read (username : string) (jar : Jar) :
  forall chunks index avatarData,
    (forall j, (j < List.length chunks)%nat ->
       getCookie (userAvatar_chunk_name username (index + j)) jar
       = Some (nth j chunks "")) ->
    (forall chunk, In chunk chunks -> chunk <> "") ->
    chunks_loop username jar (List.length chunks) index avatarData
    = Some (avatarData ++ concat_chunks chunks).
Proof.
  induction chunks as [| chunk chunks IH]; intros index avatarData Hget Hne.
  - cbn. now rewrite append_nil_r.
  - cbn [List.length chunks_loop].
    pose proof (Hget 0%nat ltac:(cbn; lia)) as H0.
    rewrite Nat.add_0_r in H0. cbn [nth] in H0. rewrite H0.
    rewrite truthy_str_Some by (apply Hne; now left). cbn [negb].
    rewrite IH.
    + cbn [concat_chunks fold_right]. now rewrite append_assoc.
    + intros j Hj. specialize (Hget (S j) ltac:(cbn; lia)).
      now replace (index + S j)%nat with (S index + j)%nat in Hget by lia.
    + intros c Hc. apply Hne. now right.
Qed.

(** One missing chunk below the bound makes the whole loop fail. *)
Lemma chunks_loop_missing (username : string) (jar : Jar) :
  forall rounds index avatarData i,
    (index <= i < index + rounds)%nat ->
    getCookie (userAvatar_chunk_name username i) jar = None ->
    chunks_loop username jar rounds index avatarData = None.
Proof.
  induction rounds as [| rounds IH]; intros index avatarData i Hi Hmissing;
    [lia |].
  cbn [chunks_loop].
  destruct (getCookie (userAvatar_chunk_name username index) jar) as [c |] eqn:Hc;
    [| reflexivity].
  destruct (negb (truthy_str (Some c))); [reflexivity |].
  apply (IH _ _ i); [| exact Hmissing].
  assert (i <> index) by congruence. lia.
Qed.

(** *** The layout [setAvatarChunks] leaves behind *)

Lemma setAvatarChunks_layout (username avatarData : string) (days : Z) (jar : Jar) :
  0 < days ->
  let jar' := setAvatarChunks username avatarData days jar in
  getCookie (userAvatar_name username) jar' = Some chunkMarker
  /\ getCookie (userAvatar_chunks_name username) jar'
     = Some (String_of_nat (List.length (split_chunks avatarData)))
  /\ forall j, (j < List.length (split_chunks avatarData))%nat ->
       getCookie (userAvatar_chunk_name username j) jar'
       = Some (nth j (split_chunks avatarData) "").
Proof.
  intros Hdays jar'. subst jar'. unfold setAvatarChunks. repeat split.
  - rewrite store_chunks_other by (intros k; apply avatar_name_not_chunk).
    rewrite getCookie_setCookie_other by apply avatar_name_not_chunks.
    now apply getCookie_setCookie_same.
  - rewrite store_chunks_other by (intros k; apply chunks_name_not_chunk).
    now apply getCookie_setCookie_same.
  - intros j Hj.
    now apply (store_chunks_get username days Hdays (split_chunks avatarData) 0%nat j).
Qed.

Lemma getAvatarChunks_after_set (username avatarData : string) (days : Z) (jar : Jar) :
  0 < days -> avatarData <> "" ->
  getAvatarChunks username (setAvatarChunks username avatarData days jar)
  = Some avatarData.
Proof.
  intros Hdays Hne.
  destruct (setAvatarChunks_layout username avatarData days jar Hdays)
    as (_ & Hcount & Hchunks).
  set (jar' := setAvatarChunks username avatarData days jar) in *.
  unfold getAvatarChunks, stored_chunkCount. rewrite Hcount.
  unfold or_zero. rewrite truthy_str_Some by apply String_of_nat_nonempty.
  rewrite parseInt_String_of_nat.
  assert (Hpos : (0 < List.length (split_chunks avatarData))%nat).
  { unfold split_chunks. destruct avatarData as [| c rest]; [congruence |].
    cbn. lia. }
  cbn [is_zero loop_bound].
  destruct (Z.eqb_spec (Z.of_nat (List.length (split_chunks avatarData))) 0);
    [lia |].
  rewrite Nat2Z.id.
  rewrite (chunks_loop_read username jar' (split_chunks avatarData) 0 "").
  - cbn [append]. now rewrite concat_split_chunks.
  - intros j Hj. cbn [Nat.add]. now apply Hchunks.
  - intros chunk Hin. unfold split_chunks in Hin.
    now apply split_loop_nonempty in Hin.
Qed.

(** Any value but the empty string and the marker reads back as written. *)
Lemma avatar_reads_back (username avatarData : string) (days : Z) (jar : Jar) :
  0 < days -> avatarData <> "" -> avatarData <> chunkMarker ->
  getUserAvatar username (setUserAvatar username avatarData days jar)
  = Some avatarData.
Proof.
  intros Hdays Hne Hmarker. unfold getUserAvatar, setUserAvatar.
  destruct (Nat.ltb_spec chunkThreshold (String.length avatarData)) as [Hbig | Hsmall].
  - destruct (setAvatarChunks_layout username avatarData days jar Hdays) as (-> & _).
    cbn [truthy_str is_marker]. rewrite String.eqb_refl.
    rewrite andb_false_r.
    now apply getAvatarChunks_after_set.
  - rewrite getCookie_setCookie_same by assumption.
    rewrite truthy_str_Some by assumption. cbn [is_marker].
    destruct (String.eqb_spec avatarData chunkMarker); [congruence |].
    reflexivity.
Qed.

(** The empty string is stored, and reads back as [null]. *)
Lemma empty_avatar_reads_null (username : string) (days : Z) (jar : Jar) :
  0 < days ->
  getCookie (userAvatar_name username) (setUserAvatar username "" days jar) = Some ""
  /\ getUserAvatar username (setUserAvatar username "" days jar) = None.
Proof.
  intros Hdays. unfold getUserAvatar, setUserAvatar. cbn [String.length].
  change (chunkThreshold <? 0)%nat with false. cbn iota.
  rewrite getCookie_setCookie_same by assumption. split; reflexivity.
Qed.

(** *** C4 *)

(** C4, as the claim has it, fails on the empty string: it is written to the
    base entry, and [getUserAvatar] takes an empty base entry for no avatar
    at all. *)
Lemma empty_avatar_reads_back_null :
  String.length "" = 0%nat
  /\ getUserAvatar "alice" (setUserAvatar "alice" "" 7 []) = None
  /\ getUserAvatar "alice" (setUserAvatar "alice" "" 7 []) <> Some "".
Proof. repeat split. discriminate. Qed.

(** C4, amended.  For a username [u] and a value [v] that the browser
    keeps as they are given (printable characters other than [';'] and the
    blank, and other than ['='] in [u]): after [setUserAvatar(u, v)],
    [getUserAvatar(u)] returns exactly [v] for every [v] of length
    [chunkThreshold - 1], of length [chunkThreshold] and of length
    [5 * chunkSize + 37]; for the [v] of length 0 it returns [null].  In the
    multi-chunk case the base entry holds the marker, the count entry holds
    6, and the chunk entry of index [j] holds the [chunkSize] characters of
    [v] from [j * chunkSize] on. *)
Theorem avatar_round_trip (username avatarData : string) (jar : Jar) :
  plain_username username = true ->
  solid avatarData = true ->
  In (String.length avatarData)
     [0; chunkThreshold - 1; chunkThreshold; 5 * chunkSize + 37]%nat ->
  let jar' := setUserAvatar username avatarData 7 jar in
  getUserAvatar username jar'
  = (if (String.length avatarData =? 0)%nat then None else Some avatarData)
  /\ ((String.length avatarData = 5 * chunkSize + 37)%nat ->
      getCookie (userAvatar_name username) jar' = Some chunkMarker
      /\ getCookie (userAvatar_chunks_name username) jar' = Some "6"
      /\ forall j, (j < 6)%nat ->
           getCookie (userAvatar_chunk_name username j) jar'
           = Some (slice avatarData (j * chunkSize) (j * chunkSize + chunkSize))).
Proof.
  intros _ _ Hlen jar'. subst jar'. split.
  - destruct (Nat.eqb_spec (String.length avatarData) 0) as [Hzero | Hpos].
    + destruct avatarData; [| discriminate Hzero].
      now apply empty_avatar_reads_null.
    + apply avatar_reads_back; [lia | |].
      * intros ->. now apply Hpos.
      * intros ->. cbn in Hlen. unfold chunkThreshold, chunkSize in Hlen.
        cbn in Hlen. lia.
  - intros Hbig. unfold setUserAvatar.
    assert (Hover : (chunkThreshold <? String.length avatarData)%nat = true).
    { apply Nat.ltb_lt. rewrite Hbig. unfold chunkThreshold, chunkSize. lia. }
    rewrite Hover.
    destruct (setAvatarChunks_layout username avatarData 7 jar ltac:(lia))
      as (Hbase & Hcount & Hchunks).
    assert (Hsix : List.length (split_chunks avatarData) = 6%nat).
    { rewrite split_chunks_length, Hbig. reflexivity. }
    rewrite Hsix in Hcount, Hchunks.
    repeat split; [exact Hbase | exact Hcount |].
    intros j Hj. rewrite Hchunks by exact Hj.
    unfold split_chunks. rewrite split_loop_nth; [reflexivity |].
    fold (split_chunks avatarData). now rewrite Hsix.
Qed.

Lemma avatar_round_trip_witness :
  getUserAvatar "alice"
    (setUserAvatar "alice" (repeat_char "A" (chunkThreshold - 1)) 7 [])
  = Some (repeat_char "A" (chunkThreshold - 1)).
Proof.
  apply (avatar_round_trip "alice" (repeat_char "A" (chunkThreshold - 1)) []).
  - reflexivity.
  - vm_compute. reflexivity.
  - right. left. vm_compute. reflexivity.
Defined.

(** An avatar is not always such a value: a data URL has a [';'], and of
    [data:image/png;base64,...] the browser keeps [data:image/png]. *)
Example data_url_reads_back_cut :
  let avatarData := "data:image/png;base64,iVBORw0KGgo=" in
  (String.length avatarData <=? chunkThreshold)%nat = true
  /\ assign (userAvatar_name "alice") avatarData 7 []
     = Some [("userAvatar_alice", "data:image/png")]
  /\ getUserAvatar "alice" [("userAvatar_alice", "data:image/png")]
     = Some "data:image/png".
Proof. vm_compute. repeat split. Qed.

Example avatar_of_five_chunks_and_a_remainder :
  let avatarData := repeat_char "A" (5 * chunkSize + 37) in
  let jar := setUserAvatar "alice" avatarData 7 [] in
  map (fun entry => (fst entry, String.length (snd entry))) jar
  = [("userAvatar_alice", 7%nat); ("userAvatar_alice_chunks", 1%nat);
     ("userAvatar_alice_chunk_0", 3000%nat); ("userAvatar_alice_chunk_1", 3000%nat);
     ("userAvatar_alice_chunk_2", 3000%nat); ("userAvatar_alice_chunk_3", 3000%nat);
     ("userAvatar_alice_chunk_4", 3000%nat); ("userAvatar_alice_chunk_5", 37%nat)]
  /\ getUserAvatar "alice" jar = Some avatarData.
Proof. vm_compute. split; reflexivity. Qed.

(** *** C5 *)

(** C5.  When the base avatar entry of [u] is the marker and a chunk entry
    whose index lies below the stored chunk count is absent,
    [getUserAvatar(u)] returns [null]: no concatenation of the chunks that
    remain is ever returned. *)
Theorem missing_chunk_reads_null (username : string) (jar : Jar)
  (chunkCount : Z) (i : nat) :
  getCookie (userAvatar_name username) jar = Some chunkMarker ->
  stored_chunkCount username jar = Num chunkCount ->
  Z.of_nat i < chunkCount ->
  getCookie (userAvatar_chunk_name username i) jar = None ->
  getUserAvatar username jar = None.
Proof.
  intros Hbase Hcount Hi Hmissing.
  unfold getUserAvatar. rewrite Hbase.
  cbn [truthy_str is_marker]. rewrite String.eqb_refl, andb_false_r.
  unfold getAvatarChunks. rewrite Hcount. cbn [is_zero loop_bound].
  destruct (chunkCount =? 0); [reflexivity |].
  apply (chunks_loop_missing username jar _ _ _ i); [lia | exact Hmissing].
Qed.

Lemma missing_chunk_reads_null_witness :
  getUserAvatar "alice"
    [("userAvatar_alice", "chunked"); ("userAvatar_alice_chunks", "3");
     ("userAvatar_alice_chunk_0", "AAA"); ("userAvatar_alice_chunk_2", "CCC")]
  = None.
Proof.
  apply (missing_chunk_reads_null "alice" _ 3 1); reflexivity.
Defined.

(** *** C10 *)

(** C10, as the claim has it, fails: the marker can be what the chunk
    entries add up to. *)
Lemma marker_returned_from_chunks :
  getUserAvatar "alice"
    [("userAvatar_alice", "chunked"); ("userAvatar_alice_chunks", "2");
     ("userAvatar_alice_chunk_0", "chun"); ("userAvatar_alice_chunk_1", "ked")]
  = Some "chunked".
Proof. reflexivity. Qed.

(** C10, amended.  [getUserAvatar(u)] never returns the marker as the value
    of the base entry: when it returns ["chunked"], the base entry is the
    marker and ["chunked"] is what the chunk entries add up to.  The value
    ["chunked"] is below the threshold, so [setUserAvatar(u, "chunked")]
    writes it to the base entry as it is; with no count entry present the
    following [getUserAvatar(u)] returns [null], not ["chunked"]. *)
Theorem marker_is_not_round_trippable (username : string) (jar : Jar) :
  (getUserAvatar username jar = Some chunkMarker ->
   getCookie (userAvatar_name username) jar = Some chunkMarker
   /\ getAvatarChunks username jar = Some chunkMarker)
  /\ (getCookie (userAvatar_chunks_name username) jar = None ->
      setUserAvatar username chunkMarker 7 jar
      = setCookie (userAvatar_name username) chunkMarker 7 jar
      /\ getUserAvatar username (setUserAvatar username chunkMarker 7 jar) = None).
Proof.
  split.
  - unfold getUserAvatar.
    destruct (getCookie (userAvatar_name username) jar) as [avatar |] eqn:Hbase;
      [| discriminate].
    cbn [is_marker]. destruct (String.eqb_spec avatar chunkMarker) as [-> | Hne].
    + rewrite andb_false_r. now split.
    + rewrite andb_true_r. destruct (truthy_str (Some avatar)); [| discriminate].
      intros E. congruence.
  - intros Hcount. split; [reflexivity |].
    unfold getUserAvatar, setUserAvatar.
    change (chunkThreshold <? String.length chunkMarker)%nat with false. cbn iota.
    rewrite getCookie_setCookie_same by lia.
    cbn [truthy_str is_marker]. rewrite String.eqb_refl, andb_false_r.
    unfold getAvatarChunks, stored_chunkCount.
    rewrite getCookie_setCookie_other
      by (intros E; symmetry in E; revert E; apply avatar_name_not_chunks).
    rewrite Hcount. reflexivity.
Qed.

Lemma marker_is_not_round_trippable_witness :
  getUserAvatar "alice" (setUserAvatar "alice" chunkMarker 7 []) = None.
Proof.
  apply (marker_is_not_round_trippable "alice" []). reflexivity.
Defined.

(** Stale chunk entries can even make the marker read back as an older
    avatar. *)
Example marker_reads_back_stale_chunks :
  let avatarData := repeat_char "A" 4000 in
  let jar := setUserAvatar "alice" avatarData 7 [] in
  getUserAvatar "alice" (setUserAvatar "alice" "chunked" 7 jar) = Some avatarData.
Proof. vm_compute. reflexivity. Qed.

End AvatarFacts.

(** ** The concrete runtime meets the laws *)

Module ConcreteJSONFacts.
Import Js JsFacts CookieUtils CookieTerms ConcreteJSON.

Lemma parse_string_escape_char (c : ascii) (rest cur : string) (pos : Position) :
  parse_string (escape_char c ++ rest) cur pos
  = parse_string rest (cur ++ String c "") pos.
Proof. destruct c as [[] [] [] [] [] [] [] []]; reflexivity. Qed.

Lemma parse_string_escape (s : string) :
  forall rest cur pos,
    parse_string (escape s ++ rest) cur pos = parse_string rest (cur ++ s) pos.
Proof.
  induction s as [| c s IH]; intros rest cur pos; cbn [escape append].
  - now rewrite append_nil_r.
  - rewrite append_assoc, parse_string_escape_char, IH.
    rewrite append_assoc. reflexivity.
Qed.

Lemma join_quote_cons (s : string) (l : list string) :
  join "," (map quote (s :: l)) ++ "]"
  = String dquote
      (escape s ++
       String dquote
         match l with
         | [] => "]"
         | _ :: _ => "," ++ join "," (map quote l) ++ "]"
         end).
Proof.
  destruct l as [| s' l]; cbn [map join]; unfold quote at 1;
    cbn [append]; rewrite !append_assoc; reflexivity.
Qed.

Lemma parse_string_array (l : list string) :
  forall s elems,
    parse_string
      (escape s ++
       String dquote
         match l with
         | [] => "]"
         | _ :: _ => "," ++ join "," (map quote l) ++ "]"
         end) "" (InArray elems)
    = Return (JsArr (elems ++ JsStr s :: map JsStr l) []).
Proof.
  induction l as [| s' l IH]; intros s elems;
    rewrite parse_string_escape; cbn [append].
  - reflexivity.
  - rewrite join_quote_cons.
    cbn [parse_string is_char dquote N_of_ascii ascii_of_N ascii_of_pos
         N.eqb Pos.eqb append andb].
    change (parse_string (String dquote ("," ++ String dquote ?x)) s (InArray elems))
      with (parse_string x "" (InArray (elems ++ [JsStr s])%list)).
    rewrite IH, <- app_assoc. reflexivity.
Qed.

Lemma stringify_strings (l : list string) :
  stringify (JsArr (map JsStr l) []) = "[" ++ join "," (map quote l) ++ "]".
Proof.
  cbn [stringify]. do 2 f_equal. rewrite map_map. reflexivity.
Qed.

Lemma runtime_laws : @JSONLaws runtime.
Proof.
  split.
  - intros l. cbn [JSON_parse JSON_stringify runtime].
    rewrite stringify_strings. destruct l as [| s l]; [reflexivity |].
    cbn [append]. rewrite join_quote_cons.
    exact (parse_string_array l s []).
  - intros v. discriminate.
Qed.

End ConcreteJSONFacts.

(** ** Deleting an account *)

Module DeleteFacts.
Import Js JsFacts CookieUtils DocumentCookie CookieTerms JarFacts AvatarFacts.

Lemma filter_twice {A : Type} (p q : A -> bool) (l : list A) :
  filter p (filter q l) = filter (fun x => q x && p x) l.
Proof.
  induction l as [| x l IH]; cbn; [reflexivity |].
  destruct (q x); cbn; [destruct (p x) |]; now rewrite IH.
Qed.

(** Removing names one after the other filters them all out at once. *)
Lemma remove_all (names : list string) :
  forall jar,
    fold_left (fun jar name => deleteCookie name jar) names jar
    = filter (fun entry => negb (existsb (String.eqb (fst entry)) names)) jar.
Proof.
  induction names as [| name names IH]; intros jar; cbn [fold_left existsb].
  - induction jar as [| e jar IHjar]; cbn; [reflexivity | now f_equal].
  - rewrite IH. unfold deleteCookie, jar_remove. rewrite filter_twice.
    apply filter_ext. intros entry. now rewrite negb_orb.
Qed.

Lemma fold_left_map {A B C : Type} (f : A -> B -> A) (g : C -> B) (l : list C) :
  forall a, fold_left f (map g l) a = fold_left (fun a c => f a (g c)) l a.
Proof. induction l as [| c l IH]; intros a; cbn; [reflexivity | apply IH]. Qed.

Lemma deleteUserToken_filter (username : string) (jar : Jar) :
  deleteUserToken username jar
  = filter (fun entry => negb (is_deleted_name username (fst entry))) jar.
Proof.
  unfold is_deleted_name. rewrite <- remove_all.
  unfold deleteUserToken, deleteUserAvatar, deleted_names.
  cbn [app fold_left]. now rewrite fold_left_map.
Qed.

Lemma jar_find_filter (keep : string -> bool) (name : string) (jar : Jar) :
  jar_find name (filter (fun entry => keep (fst entry)) jar)
  = if keep name then jar_find name jar else None.
Proof.
  induction jar as [| [n v] jar IH]; cbn [filter fst jar_find].
  - now destruct (keep name).
  - destruct (String.eqb_spec n name) as [-> | Hn].
    + destruct (keep name); cbn [jar_find]; [now rewrite String.eqb_refl | exact IH].
    + destruct (keep n); cbn [jar_find]; [| exact IH].
      destruct (String.eqb_spec n name); [congruence | exact IH].
Qed.

Lemma getCookie_deleteUserToken (username name : string) (jar : Jar) :
  getCookie name (deleteUserToken username jar)
  = if is_deleted_name username name then None else getCookie name jar.
Proof.
  rewrite deleteUserToken_filter. unfold getCookie.
  rewrite (jar_find_filter (fun n => negb (is_deleted_name username n))).
  now destruct (is_deleted_name username name).
Qed.

Lemma is_deleted_name_In (username name : string) :
  is_deleted_name username name = true <-> In name (deleted_names username).
Proof.
  unfold is_deleted_name. rewrite existsb_exists. split.
  - intros (n & Hin & E). apply String.eqb_eq in E. now subst.
  - intros Hin. exists name. split; [exact Hin | apply String.eqb_refl].
Qed.

Lemma chunk_is_deleted (username : string) (i : nat) :
  (i < 10)%nat -> is_deleted_name username (userAvatar_chunk_name username i) = true.
Proof.
  intros Hi. apply is_deleted_name_In. unfold deleted_names.
  apply in_or_app. right. apply in_map, in_seq. lia.
Qed.

(** Names that differ from every deleted one. *)
Lemma not_deleted (username name : string) :
  name <> userToken_name username ->
  name <> userData_name username ->
  name <> userAvatar_name username ->
  (forall i, name <> userAvatar_chunk_name username i) ->
  is_deleted_name username name = false.
Proof.
  intros Ht Hd Ha Hc.
  destruct (is_deleted_name username name) eqn:E; [| reflexivity].
  apply is_deleted_name_In in E. unfold deleted_names in E.
  apply in_app_or in E. destruct E as [E | E].
  - cbn [In] in E. destruct E as [E | [E | [E | []]]]; congruence.
  - apply in_map_iff in E. destruct E as (i & E & _). now elim (Hc i).
Qed.

Lemma lastUsers_not_deleted (username : string) :
  is_deleted_name username "lastUsers" = false.
Proof. apply not_deleted; [| | | intros i]; discriminate. Qed.

Lemma activeUser_not_deleted (username : string) :
  is_deleted_name username "activeUser" = false.
Proof. apply not_deleted; [| | | intros i]; discriminate. Qed.

Lemma other_token_not_deleted (username other : string) :
  other <> username ->
  is_deleted_name username (userToken_name other) = false.
Proof.
  intros Hne. apply not_deleted; [| | | intros i]; try discriminate.
  unfold userToken_name. intros E. apply append_cancel_l in E. congruence.
Qed.

Lemma other_data_not_deleted (username other : string) :
  other <> username ->
  is_deleted_name username (userData_name other) = false.
Proof.
  intros Hne. apply not_deleted; [| | | intros i]; try discriminate.
  unfold userData_name. intros E. apply append_cancel_l in E. congruence.
Qed.

Lemma chunks_name_not_deleted (username : string) :
  is_deleted_name username (userAvatar_chunks_name username) = false.
Proof.
  apply not_deleted; try discriminate.
  - intros E. symmetry in E. revert E. apply avatar_name_not_chunks.
  - intros i. apply chunks_name_not_chunk.
Qed.

Lemma late_chunk_not_deleted (username : string) (i : nat) :
  (10 <= i)%nat ->
  is_deleted_name username (userAvatar_chunk_name username i) = false.
Proof.
  intros Hi.
  destruct (is_deleted_name username (userAvatar_chunk_name username i)) eqn:E;
    [| reflexivity].
  apply is_deleted_name_In in E. unfold deleted_names in E.
  apply in_app_or in E. destruct E as [E | E].
  - cbn [In] in E. destruct E as [E | [E | [E | []]]]; try discriminate E.
    now apply avatar_name_not_chunk in E.
  - apply in_map_iff in E. destruct E as (j & E & Hj).
    apply chunk_name_inj in E. apply in_seq in Hj. lia.
Qed.

Section WithJSON.
Context {J : JSON}.

(** [getLastUsers] reads nothing but the [lastUsers] entry. *)
Lemma getLastUsers_ext (jar jar' : Jar) :
  getCookie "lastUsers" jar' = getCookie "lastUsers" jar ->
  getLastUsers jar' = getLastUsers jar.
Proof. intros E. unfold getLastUsers. now rewrite E. Qed.

(** *** C7 *)

(** C7, as the claim has it, fails: deleting the active account leaves the
    active pointer on it. *)
Lemma deleted_account_stays_active :
  let jar := [("userToken_bob", "t0k3n"); ("userData_bob", "{}");
              ("activeUser", "bob"); ("lastUsers", "[]")] in
  getActiveUser jar = Some "bob"
  /\ deleteUserToken "bob" jar = [("activeUser", "bob"); ("lastUsers", "[]")]
  /\ getActiveUser (deleteUserToken "bob" jar) = Some "bob".
Proof. repeat split. Qed.

(** C7, amended.  For a username [u] of printable characters other than
    [';'], ['='] and the blank, [deleteUserToken(u)] removes the token entry
    of [u], its data entry, its base avatar entry and its chunk entries of
    index 0 to 9, after which [u] has neither token nor data nor avatar.
    The entries under every other name stay as they are and in the order
    they were in: in particular the token and data entries of any other
    username, the roster, and the active pointer, which still names [u] if
    it did.  The names looked at are names without ['=']. *)
Theorem deleteUserToken_frame (username : string) (jar : Jar) :
  plain_username username = true ->
  let jar' := deleteUserToken username jar in
  jar' = filter (fun entry => negb (is_deleted_name username (fst entry))) jar
  /\ (forall name,
        lacks "=" name = true ->
        getCookie name jar'
        = if is_deleted_name username name then None else getCookie name jar)
  /\ (getUserToken username jar' = None
      /\ getCookie (userData_name username) jar' = None
      /\ getUserData username jar' = JsNull
      /\ getCookie (userAvatar_name username) jar' = None
      /\ getUserAvatar username jar' = None
      /\ forall i, (i < 10)%nat ->
           getCookie (userAvatar_chunk_name username i) jar' = None)
  /\ (forall other,
        lacks "=" other = true ->
        other <> username ->
        getUserToken other jar' = getUserToken other jar
        /\ getCookie (userData_name other) jar' = getCookie (userData_name other) jar)
  /\ getLastUsers jar' = getLastUsers jar
  /\ getActiveUser jar' = getActiveUser jar.
Proof.
  intros _ jar'. subst jar'.
  assert (Hdel : forall name, In name (deleted_names username) ->
            getCookie name (deleteUserToken username jar) = None).
  { intros name Hin. rewrite getCookie_deleteUserToken.
    apply is_deleted_name_In in Hin. now rewrite Hin. }
  assert (Hbase : getCookie (userAvatar_name username) (deleteUserToken username jar) = None).
  { apply Hdel. cbn. tauto. }
  assert (Hdata : getCookie (userData_name username) (deleteUserToken username jar) = None).
  { apply Hdel. cbn. tauto. }
  split; [apply deleteUserToken_filter |].
  split; [intros name _; apply getCookie_deleteUserToken |].
  split; [| split; [| split]].
  - repeat split.
    + apply Hdel. cbn. tauto.
    + exact Hdata.
    + unfold getUserData. now rewrite Hdata.
    + exact Hbase.
    + unfold getUserAvatar. now rewrite Hbase.
    + intros i Hi. rewrite getCookie_deleteUserToken.
      now rewrite chunk_is_deleted.
  - intros other _ Hother. unfold getUserToken.
    rewrite !getCookie_deleteUserToken.
    rewrite other_token_not_deleted, other_data_not_deleted by exact Hother.
    split; reflexivity.
  - apply getLastUsers_ext. rewrite getCookie_deleteUserToken.
    now rewrite lastUsers_not_deleted.
  - unfold getActiveUser. rewrite getCookie_deleteUserToken.
    now rewrite activeUser_not_deleted.
Qed.

(** What the bounded scan leaves behind: the count entry and the chunks
    from index 10 on. *)
Lemma deleteUserToken_leftovers (username : string) (jar : Jar) :
  getCookie (userAvatar_chunks_name username) (deleteUserToken username jar)
  = getCookie (userAvatar_chunks_name username) jar
  /\ forall i, (10 <= i)%nat ->
       getCookie (userAvatar_chunk_name username i) (deleteUserToken username jar)
       = getCookie (userAvatar_chunk_name username i) jar.
Proof.
  split; [| intros i Hi]; rewrite getCookie_deleteUserToken.
  - now rewrite chunks_name_not_deleted.
  - now rewrite late_chunk_not_deleted.
Qed.

End WithJSON.

Import ConcreteJSON.

Lemma deleteUserToken_frame_witness :
  let jar := [("userToken_bob", "t0k3n"); ("userData_bob", "{}");
              ("userToken_eve", "0th3r"); ("activeUser", "bob")] in
  deleteUserToken "bob" jar = [("userToken_eve", "0th3r"); ("activeUser", "bob")]
  /\ getUserToken "eve" (deleteUserToken "bob" jar) = Some "0th3r"
  /\ getActiveUser (deleteUserToken "bob" jar) = Some "bob".
Proof.
  cbv zeta.
  destruct (deleteUserToken_frame (J := runtime) "bob"
              [("userToken_bob", "t0k3n"); ("userData_bob", "{}");
               ("userToken_eve", "0th3r"); ("activeUser", "bob")] eq_refl)
    as (Hjar & _ & _ & Hother & _ & Hactive).
  split; [exact Hjar |].
  split; [| exact Hactive].
  rewrite (proj1 (Hother "eve" eq_refl ltac:(discriminate))). reflexivity.
Defined.

(** A username with an ['='] is not such a username: the browser reads
    [userToken_x=y=] as an assignment to [userToken_x], and
    [deleteCookie('userToken_x=y')] takes the token of [x]. *)
Example delete_with_equals_takes_another :
  assign (userToken_name "x=y") "" 0
    [("userToken_x", "t0k3n"); ("userData_x", "{}")]
  = Some [("userData_x", "{}")].
Proof. reflexivity. Qed.

End DeleteFacts.

(** ** The roster *)

Module RosterFacts.
Import Js JsFacts CookieUtils DocumentCookie CookieTerms JarFacts AvatarFacts.
Import DeleteFacts.

Section WithJSON.
Context {J : JSON}.

Lemma chunks_loop_ext (username : string) (jar jar' : Jar) :
  (forall i, getCookie (userAvatar_chunk_name username i) jar'
             = getCookie (userAvatar_chunk_name username i) jar) ->
  forall rounds index avatarData,
    chunks_loop username jar' rounds index avatarData
    = chunks_loop username jar rounds index avatarData.
Proof.
  intros Hsame. induction rounds as [| rounds IH]; intros index avatarData;
    cbn [chunks_loop]; [reflexivity |].
  rewrite Hsame.
  destruct (getCookie (userAvatar_chunk_name username index) jar) as [c |];
    [| reflexivity].
  now rewrite IH.
Qed.

(** What is read for an account does not depend on the [lastUsers] entry. *)
Lemma account_reads_ext (jar jar' : Jar) :
  (forall name, name <> "lastUsers" -> getCookie name jar' = getCookie name jar) ->
  forall username,
    getUserToken username jar' = getUserToken username jar
    /\ getUserAvatar username jar' = getUserAvatar username jar
    /\ getUserData username jar' = getUserData username jar.
Proof.
  intros Hsame username.
  assert (Htoken : getUserToken username jar' = getUserToken username jar).
  { unfold getUserToken. apply Hsame. discriminate. }
  assert (Havatar : getUserAvatar username jar' = getUserAvatar username jar).
  { unfold getUserAvatar, getAvatarChunks, stored_chunkCount.
    rewrite (Hsame (userAvatar_name username)) by discriminate.
    rewrite (Hsame (userAvatar_chunks_name username)) by discriminate.
    rewrite (chunks_loop_ext username jar jar'); [reflexivity |].
    intros i. apply Hsame. discriminate. }
  repeat split; [exact Htoken | exact Havatar |].
  unfold getUserData.
  rewrite (Hsame (userData_name username)) by discriminate.
  now rewrite Havatar.
Qed.



Context {L : JSONLaws}.




(** *** C8 *)


End WithJSON.

Import ConcreteJSON ConcreteJSONFacts.



Example roster_after_a_b_c :
  let jar := [("userToken_a", "t0k3n");
              ("userData_a", stringify (JsObj [("username", JsStr "a")]))] in
  exists jar',
    updateLastUsers_thrice "a" "b" "c" jar = Return jar'
    /\ map fst jar' = ["userToken_a"; "userData_a"; "lastUsers"]
    /\ getLastUsers jar' = JsArr [JsStr "c"; JsStr "b"] []
    /\ getUserData "a" jar' = JsObj [("username", JsStr "a")].
Proof. eexists. repeat split. Qed.

End RosterFacts.

(** ** Batch validation *)

Module BatchFacts.
Import Js JsFacts CookieUtils DocumentCookie CookieTerms JarFacts AvatarFacts.
Import DeleteFacts.

Lemma prefix_then_rest (p : string) :
  forall s,
    String.prefix p s = true ->
    p ++ String.substring (String.length p) (String.length s - String.length p) s = s.
Proof.
  induction p as [| c p IH]; intros s Hprefix.
  - cbn [append String.length]. apply tail_from_0.
  - destruct s as [| c' s]; cbn [String.prefix] in Hprefix; [discriminate |].
    destruct (ascii_dec c c') as [<- | _]; [| discriminate].
    cbn [append String.length Nat.sub String.substring]. f_equal. now apply IH.
Qed.

Lemma userToken_name_of_slice (name : string) :
  startsWith name "userToken_" = true ->
  userToken_name (slice name 10 (String.length name)) = name.
Proof. intros Hstart. exact (prefix_then_rest "userToken_" name Hstart). Qed.

Section WithJSON.
Context {J : JSON}.

(** One round of the enumeration, by cases. *)
Lemma visit_cookie_cases (jar : Jar) (entry : string * string) :
  (names_an_account jar (fst entry) = true
   /\ exists account,
        visit_cookie jar entry = [account]
        /\ userToken_name (username account) = fst entry
        /\ getUserToken (username account) jar = Some (token account)
        /\ token account <> ""
        /\ userData account = getUserData (username account) jar
        /\ truthy (userData account) = true)
  \/ (names_an_account jar (fst entry) = false /\ visit_cookie jar entry = []).
Proof.
  unfold visit_cookie, account_entry, names_an_account.
  destruct (startsWith (fst entry) "userToken_") eqn:Hstart;
    [| right; now split].
  pose proof (userToken_name_of_slice _ Hstart) as Hname.
  set (user := slice (fst entry) 10 (String.length (fst entry))) in *.
  unfold getUserToken. rewrite Hname. cbn [andb].
  destruct (getCookie (fst entry) jar) as [t |] eqn:Htoken;
    [| right; now split].
  destruct (truthy_str (Some t)) eqn:Ht; [| right; now split].
  destruct (truthy (getUserData user jar)) eqn:Hdata; [| right; now split].
  left. split; [reflexivity |]. eexists. split; [reflexivity |].
  cbn [username token userData]. rewrite Hname. repeat split; try assumption.
  intros ->. discriminate Ht.
Qed.

Lemma getAllUserTokens_names (jar : Jar) :
  forall entries,
    map (fun account => userToken_name (username account))
      (flat_map (visit_cookie jar) entries)
    = filter (names_an_account jar) (map fst entries).
Proof.
  induction entries as [| entry entries IH]; cbn [flat_map map filter];
    [reflexivity |].
  rewrite map_app, IH.
  destruct (visit_cookie_cases jar entry)
    as [(-> & account & -> & Hname & _) | (-> & ->)].
  - cbn [map app]. now rewrite Hname.
  - reflexivity.
Qed.

Lemma getAllUserTokens_reads (jar : Jar) :
  forall entries account,
    In account (flat_map (visit_cookie jar) entries) ->
    getUserToken (username account) jar = Some (token account)
    /\ token account <> ""
    /\ userData account = getUserData (username account) jar
    /\ truthy (userData account) = true.
Proof.
  induction entries as [| entry entries IH]; intros account Hin;
    cbn [flat_map] in Hin; [contradiction |].
  apply in_app_or in Hin. destruct Hin as [Hin | Hin]; [| now apply IH].
  destruct (visit_cookie_cases jar entry)
    as [(_ & found & Hvisit & _ & Hfacts) | (_ & Hvisit)];
    rewrite Hvisit in Hin; [| contradiction].
  destruct Hin as [<- | []]. exact Hfacts.
Qed.

Lemma jar_after_cons (r : ValidationResult) (results : list ValidationResult)
  (jar : Jar) :
  jar_after (r :: results) jar
  = jar_after results
      (if truthy (isValid r) then jar else deleteUserToken (result_username r) jar).
Proof. reflexivity. Qed.

Lemma error_message_reads (raised message : JsVal) :
  error_message raised = Return message -> message = get_prop raised "message".
Proof. destruct raised; cbn [error_message]; congruence. Qed.

Lemma error_message_of_a_value (raised : JsVal) :
  raised <> JsNull -> raised <> JsUndefined ->
  error_message raised = Return (get_prop raised "message").
Proof. destruct raised; cbn [error_message]; congruence. Qed.

(** The loop, account by account, when it comes to its end: each account
    is validated against the jar that the accounts before it have left. *)
Lemma validate_loop_returns (validateTokenFn : Validator) :
  forall allTokens validationResults jar returned jar',
    validate_loop validateTokenFn allTokens validationResults jar
    = (Return returned, jar') ->
    exists results,
      returned = (validationResults ++ results)%list
      /\ jar' = jar_after results jar
      /\ List.length results = List.length allTokens
      /\ forall k entry,
           nth_error allTokens k = Some entry ->
           exists r,
             nth_error results k = Some r
             /\ reports
                  (validateTokenFn (jar_after (firstn k results) jar)
                     (username entry) (token entry))
                  entry r.
Proof.
  induction allTokens as [| entry allTokens IH];
    intros validationResults jar returned jar' Hrun; cbn [validate_loop] in Hrun.
  - injection Hrun as <- <-. exists []. rewrite app_nil_r.
    repeat split. intros [| k] e Hk; discriminate Hk.
  - destruct (validateTokenFn jar (username entry) (token entry))
      as [valid | raised] eqn:Hcall.
    + set (r := {| result_username := username entry;
                   isValid := valid;
                   result_userData :=
                     if truthy valid then userData entry else JsNull;
                   error := JsNull |}) in Hrun.
      apply IH in Hrun. destruct Hrun as (results & -> & -> & Hlen & Hnth).
      exists (r :: results). rewrite <- app_assoc, jar_after_cons.
      cbn [isValid result_username r].
      assert (Hjar : (if negb (truthy valid)
                      then deleteUserToken (username entry) jar else jar)
                     = (if truthy valid then jar
                        else deleteUserToken (username entry) jar))
        by now destruct (truthy valid).
      rewrite Hjar in *.
      repeat split; [cbn [List.length]; now rewrite Hlen |].
      intros [| k] e Hk; cbn [nth_error] in Hk.
      * injection Hk as <-. exists r. split; [reflexivity |].
        cbn [firstn jar_after fold_left]. rewrite Hcall.
        subst r. repeat split.
      * destruct (Hnth k e Hk) as (r' & Hr' & Hreports).
        exists r'. split; [exact Hr' |].
        cbn [firstn]. rewrite jar_after_cons. exact Hreports.
    + destruct (error_message raised) as [message | thrown] eqn:Hmessage;
        [| discriminate Hrun].
      apply error_message_reads in Hmessage. subst message.
      set (r := {| result_username := username entry;
                   isValid := JsBool false;
                   result_userData := JsNull;
                   error := get_prop raised "message" |}) in Hrun.
      apply IH in Hrun. destruct Hrun as (results & -> & -> & Hlen & Hnth).
      exists (r :: results). rewrite <- app_assoc, jar_after_cons.
      cbn [isValid result_username r truthy].
      repeat split; [cbn [List.length]; now rewrite Hlen |].
      intros [| k] e Hk; cbn [nth_error] in Hk.
      * injection Hk as <-. exists r. split; [reflexivity |].
        cbn [firstn jar_after fold_left]. rewrite Hcall.
        subst r. repeat split.
      * destruct (Hnth k e Hk) as (r' & Hr' & Hreports).
        exists r'. split; [exact Hr' |].
        cbn [firstn]. rewrite jar_after_cons. exact Hreports.
Qed.

(** Under a validator that never throws [null] or [undefined], the loop
    comes to its end. *)
Lemma validate_loop_ends (validateTokenFn : Validator) :
  rejects_with_a_value validateTokenFn ->
  forall allTokens validationResults jar,
  exists returned jar',
    validate_loop validateTokenFn allTokens validationResults jar
    = (Return returned, jar').
Proof.
  intros Hvalue.
  induction allTokens as [| entry allTokens IH]; intros validationResults jar;
    cbn [validate_loop]; [eauto |].
  destruct (validateTokenFn jar (username entry) (token entry))
    as [valid | raised] eqn:Hcall; [apply IH |].
  destruct (Hvalue _ _ _ _ Hcall) as [Hnull Hundefined].
  rewrite (error_message_of_a_value raised Hnull Hundefined). apply IH.
Qed.

(** The batch ends at the first account for which the validator throws
    [null] or [undefined]: the accounts before it have been dealt with,
    this one and those after it have not, and no list is returned. *)
Lemma validate_loop_stops (validateTokenFn : Validator) (entry : UserToken)
  (rest : list UserToken) (validationResults : list ValidationResult) (jar : Jar)
  (raised : JsVal) :
  validateTokenFn jar (username entry) (token entry) = Rejects raised ->
  raised = JsNull \/ raised = JsUndefined ->
  validate_loop validateTokenFn (entry :: rest) validationResults jar
  = (Throw TypeError, jar).
Proof.
  intros Hcall Hraised. cbn [validate_loop]. rewrite Hcall.
  now destruct Hraised as [-> | ->].
Qed.

(** An entry is gone from [jar_after results jar] when one of the accounts
    reported invalid had it deleted, and is as in [jar] otherwise. *)
Lemma getCookie_jar_after (name : string) :
  forall results jar,
    getCookie name (jar_after results jar)
    = if existsb
           (fun r => negb (truthy (isValid r))
                     && is_deleted_name (result_username r) name)
           results
      then None
      else getCookie name jar.
Proof.
  induction results as [| r results IH]; intros jar; [reflexivity |].
  rewrite jar_after_cons, IH. cbn [existsb].
  destruct (existsb _ results).
  - now rewrite orb_true_r.
  - rewrite orb_false_r. destruct (truthy (isValid r)); cbn [negb andb];
      [reflexivity |].
    apply getCookie_deleteUserToken.
Qed.

(** *** C6 *)

(** C6, amended.  Under a validator that, when it throws or rejects, does
    so with a value other than [null] and [undefined],
    [batchValidateTokens(validateFn)] returns a list.  It processes, in the
    order of enumeration, the accounts whose token entry is not empty and
    whose data reads as a truthy value, with the token and the data read
    before the first validation.  The list has one result per account in
    that order; each account is validated against the store as the accounts
    before it have left it, and its result reports what [validateFn] came
    to: the value resolved to, with the data if that value is truthy and
    [null] data otherwise, or [false] with [null] data and the [message] of
    what was thrown.  An account whose validation resolved to a falsy value
    or threw has gone through [deleteUserToken] before the next is
    validated: its token, data and base avatar entries and its chunk
    entries of index 0 to 9 are gone, and every entry under another name
    without ['='] is as it was. *)
Theorem batchValidateTokens_spec (validateTokenFn : Validator) (jar : Jar) :
  rejects_with_a_value validateTokenFn ->
  let allTokens := getAllUserTokens jar in
  exists results,
    batchValidateTokens validateTokenFn jar
    = (Return results, jar_after results jar)
    /\ map (fun account => userToken_name (username account)) allTokens
       = filter (names_an_account jar) (map fst jar)
    /\ (forall account, In account allTokens ->
          getUserToken (username account) jar = Some (token account)
          /\ token account <> ""
          /\ userData account = getUserData (username account) jar
          /\ truthy (userData account) = true)
    /\ List.length results = List.length allTokens
    /\ (forall k account,
          nth_error allTokens k = Some account ->
          exists r,
            nth_error results k = Some r
            /\ reports
                 (validateTokenFn (jar_after (firstn k results) jar)
                    (username account) (token account))
                 account r)
    /\ (forall k name,
          lacks "=" name = true ->
          getCookie name (jar_after (firstn k results) jar)
          = if existsb
                 (fun r => negb (truthy (isValid r))
                           && is_deleted_name (result_username r) name)
                 (firstn k results)
            then None
            else getCookie name jar).
Proof.
  intros Hvalue allTokens. subst allTokens. unfold batchValidateTokens.
  destruct (validate_loop_ends validateTokenFn Hvalue (getAllUserTokens jar) [] jar)
    as (returned & jar' & Hrun).
  destruct (validate_loop_returns validateTokenFn _ _ _ _ _ Hrun)
    as (results & -> & -> & Hlen & Hnth).
  exists results. cbn [app] in Hrun.
  split; [exact Hrun |].
  split; [apply getAllUserTokens_names |].
  split; [apply getAllUserTokens_reads |].
  split; [exact Hlen |].
  split; [exact Hnth |].
  intros k name _. apply getCookie_jar_after.
Qed.

End WithJSON.

Import ConcreteJSON ConcreteJSONFacts.

Lemma batchValidateTokens_spec_witness :
  let profile := stringify (JsObj [("username", JsStr "bob")]) in
  let jar := [("userToken_bob", "t0k3n"); ("userData_bob", profile);
              ("userAvatar_bob", "portrait")] in
  let validateTokenFn : Validator :=
    fun _ _ _ => Rejects (JsObj [("message", JsStr "Network Error")]) in
  exists results,
    batchValidateTokens validateTokenFn jar
    = (Return results, jar_after results jar)
    /\ List.length results = 1%nat.
Proof.
  cbv zeta.
  destruct (batchValidateTokens_spec
              (fun _ _ _ => Rejects (JsObj [("message", JsStr "Network Error")]))
              [("userToken_bob", "t0k3n");
               ("userData_bob", stringify (JsObj [("username", JsStr "bob")]));
               ("userAvatar_bob", "portrait")])
    as (results & Hrun & _ & _ & Hlength & _).
  - intros jar username token raised Hcall. injection Hcall as <-.
    split; discriminate.
  - exists results. split; [exact Hrun | exact Hlength].
Defined.

(** C6, as the claim has it, fails: an avatar of eleven chunks outlives the
    account it belonged to. *)
Lemma rejected_account_keeps_a_chunk :
  let profile := stringify (JsObj [("username", JsStr "bob")]) in
  let jar :=
    setUserAvatar "bob" (repeat_char "A" (10 * chunkSize + 1)) 7
      [("userToken_bob", "t0k3n"); ("userData_bob", profile)] in
  let validateTokenFn : Validator := fun _ _ _ => Resolves (JsBool false) in
  map username (getAllUserTokens jar) = ["bob"]
  /\ batchValidateTokens validateTokenFn jar
     = (Return [{| result_username := "bob"; isValid := JsBool false;
                   result_userData := JsNull; error := JsNull |}],
        [("userAvatar_bob_chunks", "11"); ("userAvatar_bob_chunk_10", "A")]).
Proof. vm_compute. repeat split. Qed.

(** A validator that throws [undefined] for [bad]: the batch ends there.
    [good1] has been validated, [bad] keeps its entries, [good2] is not
    looked at, and the caller gets no list. *)
Example batch_ends_at_a_throw_of_undefined :
  let profile name := stringify (JsObj [("username", JsStr name)]) in
  let jar :=
    [("userToken_good1", "t1"); ("userData_good1", profile "good1");
     ("userToken_bad", "t2"); ("userData_bad", profile "bad");
     ("userToken_good2", "t3"); ("userData_good2", profile "good2")] in
  let validateTokenFn : Validator :=
    fun _ username _ =>
      if String.eqb username "bad" then Rejects JsUndefined
      else Resolves (JsBool true) in
  batchValidateTokens validateTokenFn jar = (Throw TypeError, jar).
Proof. vm_compute. reflexivity. Qed.

(** Two accounts whose names overlap: rejecting [bob] takes the avatar of the
    valid account [bob_chunk_0] with it. *)
Example rejected_account_takes_another_avatar :
  let profile := stringify (JsObj [("email", JsStr "b@example.org")]) in
  let jar :=
    [("userToken_bob", "t0k3n"); ("userData_bob", profile);
     ("userToken_bob_chunk_0", "4n0th3r"); ("userData_bob_chunk_0", profile);
     ("userAvatar_bob_chunk_0", "portrait")] in
  let validateTokenFn : Validator :=
    fun _ username _ => Resolves (JsBool (negb (String.eqb username "bob"))) in
  getUserAvatar "bob_chunk_0" jar = Some "portrait"
  /\ option_map (map (fun r => (result_username r, isValid r)))
       (match fst (batchValidateTokens validateTokenFn jar) with
        | Return results => Some results
        | Throw _ => None
        end)
     = Some [("bob", JsBool false); ("bob_chunk_0", JsBool true)]
  /\ getUserAvatar "bob_chunk_0" (snd (batchValidateTokens validateTokenFn jar))
     = None.
Proof. vm_compute. repeat split. Qed.

(** The accounts [good1], [bad], [good2] under a validator that rejects
    [bad]. *)
Example batch_of_three :
  let profile name := stringify (JsObj [("username", JsStr name)]) in
  let jar :=
    [("userToken_good1", "t1"); ("userData_good1", profile "good1");
     ("userToken_bad", "t2"); ("userData_bad", profile "bad");
     ("userAvatar_bad", "portrait");
     ("userToken_good2", "t3"); ("userData_good2", profile "good2")] in
  let validateTokenFn : Validator :=
    fun _ username _ => Resolves (JsBool (negb (String.eqb username "bad"))) in
  fst (batchValidateTokens validateTokenFn jar)
  = Return
      [{| result_username := "good1"; isValid := JsBool true;
          result_userData := JsObj [("username", JsStr "good1")];
          error := JsNull |};
       {| result_username := "bad"; isValid := JsBool false;
          result_userData := JsNull; error := JsNull |};
       {| result_username := "good2"; isValid := JsBool true;
          result_userData := JsObj [("username", JsStr "good2")];
          error := JsNull |}]
  /\ map fst (snd (batchValidateTokens validateTokenFn jar))
     = ["userToken_good1"; "userData_good1"; "userToken_good2"; "userData_good2"]
  /\ getUserData "good1" (snd (batchValidateTokens validateTokenFn jar))
     = JsObj [("username", JsStr "good1")]
  /\ getUserData "bad" (snd (batchValidateTokens validateTokenFn jar)) = JsNull.
Proof. vm_compute. repeat split. Qed.

End BatchFacts.

(** ** The text of [document.cookie] and the jar *)

Module DocumentCookieFacts.
Import Js JsFacts CookieUtils CookieTerms JarFacts AvatarFacts BatchFacts.
Import DocumentCookie.

Lemma lacks_cons (c x : ascii) (s : string) :
  lacks c (String x s) = negb (Ascii.eqb x c) && lacks c s.
Proof. reflexivity. Qed.

Lemma lacks_app (c : ascii) (s t : string) :
  lacks c (s ++ t) = lacks c s && lacks c t.
Proof.
  induction s as [| x s IH]; [reflexivity |].
  cbn [append]. rewrite !lacks_cons, IH. now rewrite andb_assoc.
Qed.

Lemma split_semicolons_nonempty (text : string) : split_semicolons text <> [].
Proof.
  destruct text as [| c rest]; cbn [split_semicolons]; [discriminate |].
  destruct (Ascii.eqb c ";"); [discriminate |].
  destruct (split_semicolons rest); discriminate.
Qed.

(** A stretch without [';'] stays in front of the first piece. *)
Lemma split_semicolons_app (s t : string) :
  lacks ";" s = true ->
  split_semicolons (s ++ t)
  = (s ++ hd "" (split_semicolons t)) :: tl (split_semicolons t).
Proof.
  induction s as [| c s IH]; intros Hs.
  - cbn [append]. pose proof (split_semicolons_nonempty t).
    now destruct (split_semicolons t).
  - rewrite lacks_cons in Hs. apply andb_true_iff in Hs. destruct Hs as [Hc Hs].
    apply negb_true_iff in Hc.
    cbn [append split_semicolons]. rewrite Hc, (IH Hs). reflexivity.
Qed.

Lemma render_entry_lacks (entry : string * string) :
  plain_entry entry = true -> lacks ";" (render_entry entry) = true.
Proof.
  unfold plain_entry, plain_name, render_entry.
  rewrite !andb_true_iff. intros [[[Hn _] _] Hv].
  rewrite !lacks_app, Hn, Hv. reflexivity.
Qed.

(** The pieces that [split(';')] cuts [document.cookie] into: the first entry,
    then the others with the blank that follows each [';']. *)
Lemma split_document_cookie (jar : Jar) :
  forallb plain_entry jar = true ->
  split_semicolons (document_cookie jar)
  = match jar with
    | [] => [""]
    | entry :: rest =>
        render_entry entry :: map (fun e => " " ++ render_entry e) rest
    end.
Proof.
  unfold document_cookie.
  induction jar as [| entry rest IH]; intros Hplain; [reflexivity |].
  cbn [forallb] in Hplain. apply andb_true_iff in Hplain.
  destruct Hplain as [Hentry Hrest]. pose proof (render_entry_lacks _ Hentry) as He.
  destruct rest as [| entry' rest].
  - cbn [map join]. rewrite <- (append_nil_r (render_entry entry)) at 1.
    rewrite split_semicolons_app by exact He. cbn. now rewrite append_nil_r.
  - specialize (IH Hrest).
    change (join "; " (map render_entry (entry :: entry' :: rest)))
      with (render_entry entry
            ++ String ";" (String " " (join "; " (map render_entry (entry' :: rest))))).
    rewrite split_semicolons_app by exact He.
    cbn [split_semicolons Ascii.eqb Bool.eqb hd tl]. rewrite IH.
    cbn [map]. now rewrite append_nil_r.
Qed.

Lemma strip_blanks_plain (name rest : string) :
  starts_with_space name = false ->
  strip_blanks (name ++ String "=" rest) = name ++ String "=" rest.
Proof.
  intros Hname. destruct name as [| c name]; [reflexivity |].
  cbn [append strip_blanks]. cbn [starts_with_space] in Hname.
  destruct (Ascii.eqb_spec c " ") as [-> | _]; [discriminate Hname | reflexivity].
Qed.

Lemma strip_blanks_entry (entry : string * string) :
  plain_entry entry = true ->
  strip_blanks (render_entry entry) = render_entry entry
  /\ strip_blanks (" " ++ render_entry entry) = render_entry entry.
Proof.
  unfold plain_entry, plain_name. rewrite !andb_true_iff, negb_true_iff.
  intros [[_ Hspace] _].
  assert (H : strip_blanks (render_entry entry) = render_entry entry)
    by (now apply strip_blanks_plain).
  split; [exact H |]. cbn [append strip_blanks Ascii.eqb Bool.eqb]. exact H.
Qed.

Lemma prefix_nil (s : string) : String.prefix "" s = true.
Proof. now destruct s. Qed.

(** With no ['='] inside either name, [name=] starts [n=v] just when the
    names are the same. *)
Lemma startsWith_nameEQ (name : string) :
  forall n v,
    lacks "=" name = true -> lacks "=" n = true ->
    startsWith (n ++ String "=" v) (name ++ "=") = String.eqb n name.
Proof.
  unfold startsWith.
  induction name as [| a name IH]; intros n v Hname Hn.
  - destruct n as [| c n].
    { cbn [append String.prefix String.eqb].
      destruct (ascii_dec "=" "="); [now destruct v | congruence]. }
    rewrite lacks_cons in Hn. apply andb_true_iff in Hn. destruct Hn as [Hc _].
    apply negb_true_iff in Hc. cbn [append String.prefix String.eqb].
    destruct (ascii_dec "=" c) as [<- | _]; [discriminate Hc | reflexivity].
  - rewrite lacks_cons in Hname. apply andb_true_iff in Hname.
    destruct Hname as [Ha Hname]. apply negb_true_iff in Ha.
    destruct n as [| c n]; cbn [append String.prefix String.eqb].
    + destruct (ascii_dec a "=") as [-> | _]; [discriminate Ha | reflexivity].
    + rewrite lacks_cons in Hn. apply andb_true_iff in Hn. destruct Hn as [_ Hn].
      destruct (ascii_dec a c) as [<- | Hac].
      * rewrite Ascii.eqb_refl. now apply IH.
      * destruct (Ascii.eqb_spec c a); [congruence | reflexivity].
Qed.

Lemma prefix_app (p s : string) : String.prefix p (p ++ s) = true.
Proof.
  induction p as [| c p IH]; [apply prefix_nil |].
  cbn [append String.prefix]. destruct (ascii_dec c c); [exact IH | congruence].
Qed.

Lemma slice_after_prefix (p s : string) :
  slice (p ++ s) (String.length p) (String.length (p ++ s)) = s.
Proof.
  pose proof (prefix_then_rest p (p ++ s) (prefix_app p s)) as H.
  now apply append_cancel_l in H.
Qed.

(** One piece of the text, as the loop of [getCookie] sees it. *)
Lemma scan_piece (name : string) (entry : string * string) (piece : string)
  (rest : list string) :
  plain_entry entry = true ->
  lacks "=" name = true ->
  strip_blanks piece = render_entry entry ->
  scan_pieces (name ++ "=") (piece :: rest)
  = if String.eqb (fst entry) name then Some (snd entry)
    else scan_pieces (name ++ "=") rest.
Proof.
  intros Hentry Hname Hpiece. cbn [scan_pieces]. rewrite Hpiece.
  assert (Hn : lacks "=" (fst entry) = true).
  { unfold plain_entry, plain_name in Hentry.
    rewrite !andb_true_iff in Hentry. tauto. }
  unfold render_entry. cbn [append].
  rewrite startsWith_nameEQ by assumption.
  destruct (String.eqb_spec (fst entry) name) as [-> | _]; [| reflexivity].
  f_equal.
  change (name ++ String "=" (snd entry)) with (name ++ "=" ++ snd entry).
  rewrite <- append_assoc. apply slice_after_prefix.
Qed.

Lemma scan_later_pieces (name : string) (jar : Jar) :
  forallb plain_entry jar = true ->
  lacks "=" name = true ->
  scan_pieces (name ++ "=") (map (fun e => " " ++ render_entry e) jar)
  = jar_find name jar.
Proof.
  intros Hplain Hname. induction jar as [| [n v] jar IH]; [reflexivity |].
  cbn [forallb] in Hplain. apply andb_true_iff in Hplain.
  destruct Hplain as [Hentry Hrest]. cbn [map jar_find].
  rewrite (scan_piece name (n, v)); try assumption.
  - cbn [fst snd]. destruct (String.eqb n name); [reflexivity | now apply IH].
  - now apply strip_blanks_entry.
Qed.

(** X25.  On a jar of plain entries (no [';'] in a name or a value, no
    ['='] and no leading white space in a name), the scan of [getCookie]
    over the text of [document.cookie] returns, for a name without ['='],
    the value of the entry of that name, and [null] if there is none. *)
Theorem getCookie_text_agrees (name : string) (jar : Jar) :
  forallb plain_entry jar = true ->
  lacks "=" name = true ->
  getCookie_text name (document_cookie jar) = getCookie name jar.
Proof.
  intros Hplain Hname. unfold getCookie_text, getCookie.
  rewrite split_document_cookie by exact Hplain.
  destruct jar as [| [n v] jar]; [now destruct name |].
  cbn [forallb] in Hplain. apply andb_true_iff in Hplain.
  destruct Hplain as [Hentry Hrest]. cbn [jar_find].
  rewrite (scan_piece name (n, v)); try assumption.
  - cbn [fst snd]. destruct (String.eqb n name); [reflexivity |].
    now apply scan_later_pieces.
  - now apply strip_blanks_entry.
Qed.

Lemma getCookie_text_agrees_witness :
  getCookie_text "userAvatar_alice"
    (document_cookie [("userToken_alice", "t0k3n"); ("userAvatar_alice", "portrait")])
  = getCookie "userAvatar_alice"
      [("userToken_alice", "t0k3n"); ("userAvatar_alice", "portrait")].
Proof.
  apply (getCookie_text_agrees "userAvatar_alice"
           [("userToken_alice", "t0k3n"); ("userAvatar_alice", "portrait")]);
    reflexivity.
Defined.

(** *** The enumeration *)

Lemma skip_spaces_plain (name rest : string) :
  starts_with_space name = false ->
  skip_spaces (name ++ String "=" rest) = name ++ String "=" rest.
Proof.
  intros Hname. destruct name as [| c name]; [reflexivity |].
  cbn [append skip_spaces]. cbn [starts_with_space] in Hname. now rewrite Hname.
Qed.

Lemma trim_back_keeps_name (name : string) :
  forall rest,
    trim_back (name ++ String "=" rest) = name ++ String "=" (trim_back rest).
Proof.
  induction name as [| c name IH]; intros rest.
  - cbn [append trim_back]. reflexivity.
  - cbn [append trim_back]. rewrite IH.
    destruct name; cbn [append String.eqb]; now rewrite andb_false_r.
Qed.

Lemma before_equals_name (name rest : string) :
  lacks "=" name = true ->
  before_equals (name ++ String "=" rest) = name.
Proof.
  unfold before_equals. induction name as [| c name IH]; intros Hname.
  - reflexivity.
  - rewrite lacks_cons in Hname. apply andb_true_iff in Hname.
    destruct Hname as [Hc Hname]. cbn [append take_while].
    rewrite Hc. now rewrite IH.
Qed.

(** A prefix without ['='] starts [n=v] just when it starts [n]. *)
Lemma startsWith_before_equals (p : string) :
  forall n v,
    lacks "=" p = true -> lacks "=" n = true ->
    startsWith (n ++ String "=" v) p = startsWith n p.
Proof.
  unfold startsWith. induction p as [| a p IH]; intros n v Hp Hn.
  { now rewrite !prefix_nil. }
  rewrite lacks_cons in Hp. apply andb_true_iff in Hp. destruct Hp as [Ha Hp].
  apply negb_true_iff in Ha.
  destruct n as [| c n]; cbn [append String.prefix].
  - destruct (ascii_dec a "=") as [-> | _]; [discriminate Ha | reflexivity].
  - rewrite lacks_cons in Hn. apply andb_true_iff in Hn. destruct Hn as [_ Hn].
    destruct (ascii_dec a c); [now apply IH | reflexivity].
Qed.

Lemma username_of_entry (entry : string * string) (piece : string) :
  plain_entry entry = true ->
  (piece = render_entry entry \/ piece = " " ++ render_entry entry) ->
  username_of_piece piece
  = if startsWith (fst entry) "userToken_"
    then Some (slice (fst entry) 10 (String.length (fst entry)))
    else None.
Proof.
  intros Hentry Hpiece.
  unfold plain_entry, plain_name in Hentry.
  rewrite !andb_true_iff, negb_true_iff in Hentry.
  destruct Hentry as [[[_ Heq] Hspace] _].
  assert (Htrim : trim piece
                  = fst entry ++ String "=" (trim_back (snd entry))).
  { unfold trim.
    destruct Hpiece as [-> | ->]; unfold render_entry;
      cbn [append skip_spaces is_space N_of_ascii];
      cbn -[skip_spaces trim_back append];
      rewrite skip_spaces_plain by exact Hspace;
      apply trim_back_keeps_name. }
  unfold username_of_piece. rewrite Htrim.
  rewrite startsWith_before_equals by (reflexivity || exact Heq).
  destruct (startsWith (fst entry) "userToken_") eqn:Hstart; [| reflexivity].
  rewrite before_equals_name by exact Heq.
  destruct (fst entry) as [| c n]; [discriminate Hstart |].
  cbn [remove_first]. now rewrite Hstart.
Qed.

Section WithJSON.
Context {J : JSON}.

Lemma visit_piece_entry (jar : Jar) (entry : string * string) (piece : string) :
  plain_entry entry = true ->
  (piece = render_entry entry \/ piece = " " ++ render_entry entry) ->
  visit_piece jar piece = visit_cookie jar entry.
Proof.
  intros Hentry Hpiece. unfold visit_piece, visit_cookie.
  rewrite (username_of_entry entry piece Hentry Hpiece).
  now destruct (startsWith (fst entry) "userToken_").
Qed.

Lemma visit_later_pieces (jar : Jar) :
  forall entries,
    forallb plain_entry entries = true ->
    flat_map (visit_piece jar) (map (fun e => " " ++ render_entry e) entries)
    = flat_map (visit_cookie jar) entries.
Proof.
  induction entries as [| entry entries IH]; intros Hplain; [reflexivity |].
  cbn [forallb] in Hplain. apply andb_true_iff in Hplain.
  destruct Hplain as [Hentry Hrest]. cbn [map flat_map].
  rewrite (visit_piece_entry jar entry) by (assumption || now right).
  now rewrite IH.
Qed.

(** X26.  On a jar of plain entries, [getAllUserTokens] finds in the text
    of [document.cookie] one account for each entry named
    [userToken_<username>] whose token is not empty and whose record
    [getUserData] returns, in the order of the jar, and nothing else. *)
Theorem getAllUserTokens_text_agrees (jar : Jar) :
  forallb plain_entry jar = true ->
  getAllUserTokens_text jar = getAllUserTokens jar.
Proof.
  intros Hplain. unfold getAllUserTokens_text, getAllUserTokens.
  rewrite split_document_cookie by exact Hplain.
  generalize jar at 1 3. intros whole.
  destruct jar as [| entry rest]; [reflexivity |].
  cbn [forallb] in Hplain. apply andb_true_iff in Hplain.
  destruct Hplain as [Hentry Hrest]. cbn [flat_map].
  rewrite (visit_piece_entry whole entry) by (assumption || now left).
  now rewrite (visit_later_pieces whole rest Hrest).
Qed.

End WithJSON.

Import ConcreteJSON.

Lemma getAllUserTokens_text_agrees_witness :
  getAllUserTokens_text
    [("theme", "dark"); ("userToken_alice", "t0k3n");
     ("userData_alice", stringify (JsObj [("username", JsStr "alice")]))]
  = getAllUserTokens
      [("theme", "dark"); ("userToken_alice", "t0k3n");
       ("userData_alice", stringify (JsObj [("username", JsStr "alice")]))].
Proof.
  apply (getAllUserTokens_text_agrees (J := runtime)
           [("theme", "dark"); ("userToken_alice", "t0k3n");
            ("userData_alice", stringify (JsObj [("username", JsStr "alice")]))]).
  reflexivity.
Defined.

End DocumentCookieFacts.

(** ** What the browser keeps of an assignment *)

Module AssignmentFacts.
Import Js JsFacts CookieUtils CookieTerms JarFacts AvatarFacts.
Import DocumentCookie DocumentCookieFacts.

(** *** Characters *)

Lemma name_char_cases (c : ascii) :
  name_char c = true ->
  text_char c = true /\ is_blank c = false /\ Ascii.eqb c "=" = false.
Proof.
  destruct c as [[] [] [] [] [] [] [] []]; vm_compute; intuition congruence.
Qed.

Lemma text_char_cases (c : ascii) :
  text_char c = true -> is_plain_char c = true /\ Ascii.eqb c ";" = false.
Proof.
  destruct c as [[] [] [] [] [] [] [] []]; vm_compute; intuition congruence.
Qed.

Lemma digit_is_name_char (c : ascii) : is_digit c = true -> name_char c = true.
Proof.
  destruct c as [[] [] [] [] [] [] [] []]; vm_compute; intuition congruence.
Qed.

Lemma chars_app (s t : string) :
  list_ascii_of_string (s ++ t)
  = (list_ascii_of_string s ++ list_ascii_of_string t)%list.
Proof. induction s as [| c s IH]; cbn; [reflexivity | now rewrite IH]. Qed.

Lemma every_char_app (p : ascii -> bool) (s t : string) :
  forallb p (list_ascii_of_string (s ++ t))
  = forallb p (list_ascii_of_string s) && forallb p (list_ascii_of_string t).
Proof. now rewrite chars_app, forallb_app. Qed.

Lemma every_char_weaken (p q : ascii -> bool) (s : string) :
  (forall c, p c = true -> q c = true) ->
  forallb p (list_ascii_of_string s) = true ->
  forallb q (list_ascii_of_string s) = true.
Proof.
  intros Hpq Hp. apply forallb_forall. intros c Hc. apply Hpq.
  now apply (proj1 (forallb_forall p _) Hp).
Qed.

Lemma every_char_substring (p : ascii -> bool) (s : string) :
  forallb p (list_ascii_of_string s) = true ->
  forall i n, forallb p (list_ascii_of_string (String.substring i n s)) = true.
Proof.
  induction s as [| c s IH]; intros Hs i n.
  - now destruct i, n.
  - cbn [list_ascii_of_string forallb] in Hs. apply andb_true_iff in Hs.
    destruct Hs as [Hc Hs].
    destruct i as [| i], n as [| n]; cbn [String.substring];
      try reflexivity; try (now apply IH).
    cbn [list_ascii_of_string forallb]. rewrite Hc. now apply IH.
Qed.

(** *** A text without blanks, or with none at either end *)

Lemma drop_blanks_back_end (c : ascii) :
  is_blank c = false ->
  forall s, drop_blanks_back (s ++ String c "") = s ++ String c "".
Proof.
  intros Hc. induction s as [| a s IH]; cbn [append drop_blanks_back].
  - now rewrite Hc.
  - rewrite IH.
    assert (String.eqb (s ++ String c "") "" = false) as ->
      by now destruct s.
    now rewrite andb_false_r.
Qed.

Lemma trim_blanks_without_blanks (s : string) :
  forallb (fun c => negb (is_blank c)) (list_ascii_of_string s) = true ->
  trim_blanks s = s.
Proof.
  unfold trim_blanks. intros Hs.
  assert (Hfront : drop_blanks s = s).
  { destruct s as [| c s]; [reflexivity |].
    cbn [list_ascii_of_string forallb] in Hs. apply andb_true_iff in Hs.
    destruct Hs as [Hc _]. apply negb_true_iff in Hc.
    cbn [drop_blanks]. now rewrite Hc. }
  rewrite Hfront. clear Hfront.
  induction s as [| c s IH]; [reflexivity |].
  cbn [list_ascii_of_string forallb] in Hs. apply andb_true_iff in Hs.
  destruct Hs as [Hc Hs]. apply negb_true_iff in Hc.
  cbn [drop_blanks_back]. rewrite (IH Hs), Hc. reflexivity.
Qed.

(** *** The pair of an assignment *)

Lemma split_semicolons_whole (s : string) :
  lacks ";" s = true -> split_semicolons s = [s].
Proof.
  induction s as [| c s IH]; intros Hs; [reflexivity |].
  rewrite lacks_cons in Hs. apply andb_true_iff in Hs. destruct Hs as [Hc Hs].
  apply negb_true_iff in Hc. cbn [split_semicolons]. now rewrite Hc, (IH Hs).
Qed.

Lemma after_equals_name (name rest : string) :
  lacks "=" name = true -> after_equals (name ++ String "=" rest) = rest.
Proof.
  induction name as [| c name IH]; intros Hname; [reflexivity |].
  rewrite lacks_cons in Hname. apply andb_true_iff in Hname.
  destruct Hname as [Hc Hname]. apply negb_true_iff in Hc.
  cbn [append after_equals]. now rewrite Hc, (IH Hname).
Qed.

Lemma name_chars (name : string) :
  forallb name_char (list_ascii_of_string name) = true ->
  forallb is_plain_char (list_ascii_of_string name) = true
  /\ lacks ";" name = true
  /\ lacks "=" name = true
  /\ trim_blanks name = name.
Proof.
  intros Hname. repeat split.
  - apply (every_char_weaken name_char); [| exact Hname].
    intros c Hc. now apply text_char_cases, name_char_cases.
  - apply (every_char_weaken name_char); [| exact Hname].
    intros c Hc. apply negb_true_iff. now apply text_char_cases, name_char_cases.
  - apply (every_char_weaken name_char); [| exact Hname].
    intros c Hc. apply negb_true_iff. now apply name_char_cases.
  - apply trim_blanks_without_blanks.
    apply (every_char_weaken name_char); [| exact Hname].
    intros c Hc. apply negb_true_iff. now apply name_char_cases.
Qed.

Lemma text_chars (value : string) :
  forallb text_char (list_ascii_of_string value) = true ->
  forallb is_plain_char (list_ascii_of_string value) = true
  /\ lacks ";" value = true.
Proof.
  intros Hvalue. split.
  - apply (every_char_weaken text_char); [| exact Hvalue].
    intros c Hc. now apply text_char_cases.
  - apply (every_char_weaken text_char); [| exact Hvalue].
    intros c Hc. apply negb_true_iff. now apply text_char_cases.
Qed.

(** A name and a value that are kept are what the browser takes from the
    assignment. *)
Lemma written_kept (name value : string) :
  kept_name name = true -> kept_value value = true ->
  written name value = Some (name, value).
Proof.
  unfold kept_name, kept_value. rewrite !andb_true_iff.
  intros [[Hname Hfull] Hprefix] [Hvalue Htrim].
  apply negb_true_iff in Hfull, Hprefix. apply String.eqb_eq in Htrim.
  destruct (name_chars name Hname) as (Nplain & Nsemi & Nequals & Ntrim).
  destruct (text_chars value Hvalue) as (Vplain & Vsemi).
  unfold written. cbn [append].
  assert (Hplain : forallb is_plain_char
                     (list_ascii_of_string (name ++ String "=" value)) = true).
  { rewrite every_char_app, Nplain. cbn [list_ascii_of_string forallb andb].
    exact Vplain. }
  assert (Hsemi : lacks ";" (name ++ String "=" value) = true).
  { rewrite lacks_app, Nsemi, lacks_cons, Vsemi. reflexivity. }
  assert (Hequals : lacks "=" (name ++ String "=" value) = false).
  { rewrite lacks_app, lacks_cons. cbn [Ascii.eqb Bool.eqb negb andb].
    apply andb_false_r. }
  rewrite Hplain, (split_semicolons_whole _ Hsemi).
  cbn [negb hd tl existsb]. rewrite Hequals.
  rewrite (before_equals_name name value Nequals).
  rewrite (after_equals_name name value Nequals).
  rewrite Ntrim, Htrim, Hfull, Hprefix. reflexivity.
Qed.

(** On such a name and value [setCookie] leaves the jar that the browser
    is left with. *)
Lemma assign_kept (name value : string) (days : Z) (jar : Jar) :
  kept_name name = true -> kept_value value = true ->
  assign name value days jar = Some (setCookie name value days jar).
Proof.
  intros Hname Hvalue. unfold assign.
  now rewrite (written_kept name value Hname Hvalue).
Qed.

Lemma assign_deletes (name : string) (jar : Jar) :
  kept_name name = true ->
  assign name "" 0 jar = Some (deleteCookie name jar).
Proof.
  intros Hname. unfold assign.
  now rewrite (written_kept name "" Hname eq_refl).
Qed.

(** *** The names and the values of the store *)

Lemma String_of_nat_chars (i : nat) :
  forallb name_char (list_ascii_of_string (String_of_nat i)) = true.
Proof.
  rewrite String_of_nat_uint.
  induction (N.to_uint (N.of_nat i)); cbn; try reflexivity; exact IHu.
Qed.

Lemma prefixed_name_kept (a b : ascii) (prefix rest : string) :
  kept_name (String a (String b prefix)) = true ->
  forallb name_char (list_ascii_of_string rest) = true ->
  kept_name (String a (String b prefix) ++ rest) = true.
Proof.
  unfold kept_name. rewrite !andb_true_iff, !negb_true_iff.
  intros [[Hchars Hfull] Hstart] Hrest.
  rewrite every_char_app, Hchars, Hrest. repeat split.
  unfold startsWith in *. cbn [append String.prefix] in *.
  destruct (ascii_dec "_" a); [| reflexivity].
  destruct (ascii_dec "_" b); [| reflexivity].
  now rewrite prefix_nil in Hstart.
Qed.

(** The entries of a plain username have names that are kept. *)
Lemma account_names_kept (username : string) :
  plain_username username = true ->
  kept_name (userToken_name username) = true
  /\ kept_name (userData_name username) = true
  /\ kept_name (userAvatar_name username) = true
  /\ kept_name (userAvatar_chunks_name username) = true
  /\ forall i, kept_name (userAvatar_chunk_name username i) = true.
Proof.
  unfold plain_username. intros Hname.
  repeat split; try intros i;
    unfold userToken_name, userData_name, userAvatar_name,
      userAvatar_chunks_name, userAvatar_chunk_name;
    apply prefixed_name_kept; try reflexivity; try exact Hname;
    rewrite every_char_app, Hname; [reflexivity |].
  rewrite every_char_app, String_of_nat_chars. reflexivity.
Qed.

(** As the value of the active user, a plain username is kept. *)
Lemma plain_username_kept (username : string) :
  plain_username username = true -> kept_value username = true.
Proof.
  unfold plain_username, kept_value. intros Hname.
  destruct (name_chars username Hname) as (_ & _ & _ & ->).
  rewrite String.eqb_refl, andb_true_r.
  apply (every_char_weaken name_char); [| exact Hname].
  intros c Hc. now apply name_char_cases.
Qed.

Lemma solid_kept (text : string) : solid text = true -> kept_value text = true.
Proof.
  unfold solid, kept_value. intros Htext.
  rewrite trim_blanks_without_blanks, String.eqb_refl, andb_true_r.
  - revert Htext. apply every_char_weaken.
    intros c Hc. now apply andb_true_iff in Hc.
  - revert Htext. apply every_char_weaken.
    intros c Hc. now apply andb_true_iff in Hc.
Qed.

(** Every chunk of a solid avatar is kept, and so are the marker and the
    count that go with the chunks. *)
Lemma solid_chunks_kept (avatarData : string) :
  solid avatarData = true ->
  (forall chunk, In chunk (split_chunks avatarData) -> kept_value chunk = true)
  /\ kept_value chunkMarker = true
  /\ kept_value (String_of_nat (List.length (split_chunks avatarData))) = true.
Proof.
  intros Hsolid. split; [| split; [reflexivity |]].
  - unfold split_chunks. generalize (String.length avatarData) at 1.
    intros rounds. generalize 0%nat.
    induction rounds as [| rounds IH]; intros i chunk Hin;
      cbn [split_loop] in Hin; [contradiction |].
    destruct (i <? String.length avatarData)%nat; [| contradiction].
    destruct Hin as [<- | Hin]; [| now apply (IH (i + chunkSize)%nat)].
    apply solid_kept. unfold solid, slice.
    now apply every_char_substring.
  - apply plain_username_kept, String_of_nat_chars.
Qed.

Import ConcreteJSON.

Lemma escape_char_text (c : ascii) :
  text_char c = true ->
  forallb text_char (list_ascii_of_string (escape_char c)) = true.
Proof.
  destruct c as [[] [] [] [] [] [] [] []]; vm_compute; intuition congruence.
Qed.

Lemma quote_text (s : string) :
  forallb text_char (list_ascii_of_string s) = true ->
  forallb text_char (list_ascii_of_string (quote s)) = true.
Proof.
  intros Hs. unfold quote. cbn [list_ascii_of_string forallb].
  rewrite every_char_app. cbn [list_ascii_of_string forallb].
  assert (forallb text_char (list_ascii_of_string (escape s)) = true) as ->;
    [| reflexivity].
  induction s as [| c s IH]; [reflexivity |].
  cbn [list_ascii_of_string forallb] in Hs. apply andb_true_iff in Hs.
  destruct Hs as [Hc Hs]. cbn [escape].
  now rewrite every_char_app, (escape_char_text c Hc), (IH Hs).
Qed.

(** The text of a roster of usernames made of printable characters other
    than [';'] is a value that is kept. *)
Lemma roster_text_kept (roster : list string) :
  forallb (fun user => forallb text_char (list_ascii_of_string user)) roster
  = true ->
  kept_value (roster_text (J := runtime) roster) = true.
Proof.
  intros Hroster. unfold roster_text, kept_value.
  cbn [JSON_stringify runtime stringify].
  assert (Hjoin : forallb text_char
                    (list_ascii_of_string
                       (join "," (map stringify (map JsStr roster)))) = true).
  { induction roster as [| user roster IH]; [reflexivity |].
    cbn [forallb] in Hroster. apply andb_true_iff in Hroster.
    destruct Hroster as [Huser Hroster]. cbn [map join stringify].
    destruct roster as [| next roster]; [now apply quote_text |].
    specialize (IH Hroster). cbn [map] in *.
    rewrite !every_char_app, (quote_text user Huser).
    cbn [list_ascii_of_string forallb andb]. exact IH. }
  apply andb_true_iff. split.
  - cbn [append list_ascii_of_string forallb].
    rewrite every_char_app, Hjoin. reflexivity.
  - apply String.eqb_eq. unfold trim_blanks. cbn [append drop_blanks].
    change (is_blank "[") with false. cbn iota.
    change (String "[" (join "," (map stringify (map JsStr roster)) ++ "]"))
      with (("[" ++ join "," (map stringify (map JsStr roster))) ++ "]").
    now apply drop_blanks_back_end.
Qed.

(** The names that the sources give themselves are kept. *)
Lemma fixed_names_kept :
  kept_name "activeUser" = true
  /\ kept_name "lastUsers" = true
  /\ forallb kept_name StorageUtils.STORAGE_STRATEGY_cookie = true.
Proof. repeat split. Qed.

(** *** Where the browser keeps something else *)

(** A value that brings an attribute of its own is not followed further. *)
Example value_with_an_attribute :
  written "lastUsers" "[];Max-Age=0" = None.
Proof. reflexivity. Qed.

End AssignmentFacts.

(** ** The rest of IdUtils and UserUtils *)

Module UserRestFacts.
Import Js JsFacts JsConversions IdUtils UserUtils IdUtilsTerms IdUtilsFacts.
Import IdUtilsRest UserUtilsRest UserTerms.

(** What the two checks of the codec make of a generated identifier. *)
Lemma generated_id_checks (isAdmin : bool) (random : nat -> Q) :
  fair random ->
  truthy (JsStr (generateUserId isAdmin random)) = true
  /\ validateUserId (JsStr (generateUserId isAdmin random)) = Return true
  /\ isAdminId (JsStr (generateUserId isAdmin random)) = Return isAdmin.
Proof.
  intros Hrandom.
  destruct (generated_prefix_spec isAdmin random Hrandom) as [Hp Hrole].
  pose proof (generated_randomDigits_spec isAdmin random Hrandom) as Hr.
  pose proof (calculateChecksum_two_digits _ _ Hp Hr) as Hc.
  destruct (match_idPattern_assembled _ _ _ Hp Hc Hr) as [Hmatch Hstart].
  rewrite <- generateUserId_parts in Hmatch, Hstart.
  assert (Htruthy : truthy (JsStr (generateUserId isAdmin random)) = true).
  { cbn [truthy]. destruct (generateUserId isAdmin random); [discriminate Hmatch |].
    reflexivity. }
  assert (Hvalid : validateUserId (JsStr (generateUserId isAdmin random)) = Return true).
  { unfold validateUserId. rewrite Htruthy.
    cbn [negb orb typeof_is_string call_match_idPattern bind].
    rewrite Hmatch. now rewrite String.eqb_refl. }
  repeat split; [exact Htruthy | exact Hvalid |].
  unfold isAdminId. rewrite Hvalid. cbn [bind negb call_startsWith].
  now rewrite Hstart, Hrole.
Qed.

(** Only a string passes [validateUserId]. *)
Lemma valid_id_is_string (userId : JsVal) :
  validateUserId userId = Return true -> exists s, userId = JsStr s.
Proof.
  unfold validateUserId. intros Hv.
  destruct userId;
    cbn [truthy typeof_is_string negb orb] in Hv;
    rewrite ?orb_true_r in Hv; try discriminate Hv.
  eauto.
Qed.

Lemma isAdminId_returns (userId : JsVal) :
  exists role, isAdminId userId = Return role.
Proof. destruct (codec_never_throws userId) as (_ & Ha & _). exact Ha. Qed.

(** X1.  [formatForDisplay] never raises.  It returns ["Invalid ID"] for
    exactly the identifiers that [validateUserId] rejects; a valid
    identifier is shown whole, after ["Admin-"] when [isAdminId] holds of
    it and after ["User-"] otherwise. *)
Theorem formatForDisplay_cases (userId : JsVal) :
  (validateUserId userId = Return false
   /\ formatForDisplay userId = Return "Invalid ID")
  \/ (exists id role,
        userId = JsStr id
        /\ validateUserId userId = Return true
        /\ isAdminId userId = Return role
        /\ formatForDisplay userId
           = Return ((if role then "Admin-" else "User-") ++ id)).
Proof.
  unfold formatForDisplay.
  destruct (validateUserId_returns userId) as [Hv | Hv]; rewrite Hv;
    cbn [bind negb]; [right | left; split; reflexivity].
  destruct (valid_id_is_string _ Hv) as [id ->].
  destruct (isAdminId_returns (JsStr id)) as [role Ha]. rewrite Ha.
  exists id, role. cbn [bind ToString]. repeat split.
  now destruct role.
Qed.

(** X2.  The identifier that [generateUserId(isAdmin)] returns is never
    shown as ["Invalid ID"]: [formatForDisplay] puts ["Admin-"] before an
    administrator's identifier and ["User-"] before a user's. *)
Theorem formatForDisplay_generated (isAdmin : bool) (random : nat -> Q) :
  fair random ->
  formatForDisplay (JsStr (generateUserId isAdmin random))
  = Return ((if isAdmin then "Admin-" else "User-")
            ++ generateUserId isAdmin random).
Proof.
  intros Hrandom.
  destruct (generated_id_checks isAdmin random Hrandom) as (_ & Hv & Ha).
  unfold formatForDisplay. rewrite Hv. cbn [bind negb]. rewrite Ha.
  cbn [bind ToString]. now destruct isAdmin.
Qed.

Lemma formatForDisplay_generated_witness :
  formatForDisplay (JsStr (generateUserId true (fun _ => 1 # 2)%Q))
  = Return ("Admin-" ++ generateUserId true (fun _ => 1 # 2)%Q).
Proof.
  apply (formatForDisplay_generated true (fun _ => 1 # 2)%Q).
  intros k. split; [discriminate | reflexivity].
Defined.

(** X3.  [getUserRole] and [hasPermission] never raise and agree.  The
    role is one of ["invalid"], ["admin"] and ["user"]; the permission
    ['admin'] is granted exactly to the role ["admin"], the permission
    ['user'] to every role but ["invalid"], and any other permission to
    nobody. *)
Theorem role_and_permission (userId : JsVal) :
  exists role,
    getUserRole userId = Return role
    /\ In role ["invalid"; "admin"; "user"]
    /\ hasPermission userId (JsStr "admin") = Return (String.eqb role "admin")
    /\ hasPermission userId (JsStr "user")
       = Return (negb (String.eqb role "invalid"))
    /\ forall requiredPermission,
         requiredPermission <> JsStr "admin" ->
         requiredPermission <> JsStr "user" ->
         hasPermission userId requiredPermission = Return false.
Proof.
  unfold getUserRole, hasPermission.
  destruct (validateUserId_returns userId) as [Hv | Hv]; rewrite Hv;
    cbn [bind negb].
  - destruct (isAdminId_returns userId) as [admin Ha]. rewrite Ha.
    cbn [bind].
    assert (Hother : forall p, p <> JsStr "admin" -> p <> JsStr "user" ->
              (if strict_eq_str p "admin" then Return admin
               else if strict_eq_str p "user" then Return true
               else Return false) = Return false).
    { intros p Hna Hnu. destruct p; cbn [strict_eq_str]; try reflexivity.
      destruct (String.eqb s "admin") eqn:E1.
      { apply String.eqb_eq in E1. congruence. }
      destruct (String.eqb s "user") eqn:E2.
      { apply String.eqb_eq in E2. congruence. }
      reflexivity. }
    destruct admin.
    + exists "admin". cbn. repeat split; auto.
    + exists "user". cbn. repeat split; auto.
  - exists "invalid". cbn. repeat split; auto.
Qed.

(** *** Records *)

Lemma lookup_assign_same (field : string) (v : JsVal) (props : list (string * JsVal)) :
  lookup_prop field (assign_prop field v props) = v.
Proof.
  induction props as [| [k w] rest IH]; cbn [assign_prop lookup_prop].
  - now rewrite String.eqb_refl.
  - destruct (String.eqb k field) eqn:E; cbn [lookup_prop]; now rewrite E.
Qed.

Lemma lookup_assign_other (field other : string) (v : JsVal)
  (props : list (string * JsVal)) :
  other <> field ->
  lookup_prop other (assign_prop field v props) = lookup_prop other props.
Proof.
  intros Hne. induction props as [| [k w] rest IH]; cbn [assign_prop lookup_prop].
  - apply String.eqb_neq in Hne. rewrite String.eqb_sym in Hne. now rewrite Hne.
  - destruct (String.eqb k field) eqn:E; cbn [lookup_prop].
    + apply String.eqb_eq in E. subst k.
      assert (String.eqb field other = false) as ->; [| reflexivity].
      apply String.eqb_neq. congruence.
    + now rewrite IH.
Qed.

Lemma index_is_not_named (i : nat) (field : string) :
  named field -> String.eqb (String_of_Z (Z.of_nat i)) field = false.
Proof.
  intros Hnamed. apply String.eqb_neq. intros <-. apply Hnamed.
  change (String_of_Z (Z.of_nat i)) with (CookieUtils.String_of_nat i).
  rewrite JarFacts.String_of_nat_uint. apply JarFacts.string_of_uint_digits.
Qed.

Lemma lookup_index_props (field : string) (elems : list JsVal)
  (props : list (string * JsVal)) (i : nat) :
  named field ->
  lookup_prop field (index_props i elems ++ props)%list = lookup_prop field props.
Proof.
  intros Hnamed. revert i.
  induction elems as [| x rest IH]; intros i; cbn [index_props app lookup_prop].
  - reflexivity.
  - now rewrite index_is_not_named, IH.
Qed.

Lemma named_is_no_index (field : string) : named field -> index_of field = None.
Proof.
  intros Hnamed. destruct field as [| c rest]; [reflexivity |].
  unfold index_of.
  destruct (String.eqb_spec (take_while is_digit (String c rest)) (String c rest))
    as [E | _]; [contradiction | reflexivity].
Qed.

(** [{...v}] has the named properties of [v], its [length] apart. *)
Lemma lookup_spread (field : string) (v : JsVal) :
  named field -> field <> "length" ->
  lookup_prop field (spread_props v) = get_prop v field.
Proof.
  intros Hnamed Hlength. apply String.eqb_neq in Hlength.
  destruct v; cbn [spread_props get_prop lookup_prop];
    rewrite ?Hlength, ?(named_is_no_index field Hnamed); try reflexivity.
  - rewrite <- (app_nil_r (index_props 0 (chars_of s))).
    now rewrite lookup_index_props.
  - now apply lookup_index_props.
Qed.

(** [validateUserData] looks at four properties of what it is given. *)
Lemma validateUserData_fields (a b : JsVal) :
  truthy a = truthy b ->
  typeof_is_object a = typeof_is_object b ->
  get_prop a "id" = get_prop b "id" ->
  get_prop a "username" = get_prop b "username" ->
  get_prop a "email" = get_prop b "email" ->
  get_prop a "isAdmin" = get_prop b "isAdmin" ->
  validateUserData a = validateUserData b.
Proof.
  intros Ht Ho Hid Hname Hmail Hflag. unfold validateUserData.
  cbn [requiredFields existsb].
  now rewrite Ht, Ho, Hid, Hname, Hmail, Hflag.
Qed.

(** A record whose [id] came out of [generateUserId]. *)
Lemma validateUserData_generated (userData : JsVal) (role : bool)
  (random : nat -> Q) :
  fair random ->
  truthy userData = true ->
  typeof_is_object userData = true ->
  get_prop userData "id" = JsStr (generateUserId role random) ->
  validateUserData userData
  = Return (truthy (get_prop userData "username")
            && truthy (get_prop userData "email")
            && strict_eq_bool (get_prop userData "isAdmin") role)
  /\ needsMigration userData = Return false.
Proof.
  intros Hrandom Ht Ho Hid.
  destruct (generated_id_checks role random Hrandom) as (Htruthy & Hv & Ha).
  unfold validateUserData, needsMigration.
  rewrite Ht, Ho. cbn [requiredFields existsb negb orb].
  rewrite Hid, Htruthy, Hv, Ha. cbn [bind negb orb].
  split; [| reflexivity].
  destruct (truthy (get_prop userData "username")); cbn [negb orb andb];
    [| reflexivity].
  destruct (truthy (get_prop userData "email")); cbn [negb orb andb];
    [| reflexivity].
  now destruct (strict_eq_bool (get_prop userData "isAdmin") role).
Qed.

Lemma flag_matches_role (isAdmin : JsVal) :
  strict_eq_bool (default_false isAdmin) (truthy (default_false isAdmin))
  = is_flag isAdmin.
Proof. destruct isAdmin as [| | [] | | | |]; reflexivity. Qed.

(** X4.  The record that [createUser] returns never needs migration, and
    [validateUserData] accepts it exactly when the username and the email
    are truthy and [isAdmin] is a boolean or left out: with any other
    truthy [isAdmin] the id is an administrator's while the stored flag is
    not [true]. *)
Theorem createUser_validity (username email isAdmin : JsVal)
  (random : nat -> Q) (now : string) :
  fair random ->
  validateUserData (createUser username email isAdmin random now)
  = Return (truthy username && truthy email && is_flag isAdmin)
  /\ needsMigration (createUser username email isAdmin random now)
     = Return false.
Proof.
  intros Hrandom.
  destruct (validateUserData_generated
              (createUser username email isAdmin random now)
              (truthy (default_false isAdmin)) random Hrandom
              eq_refl eq_refl eq_refl) as [Hvalid Hfresh].
  split; [| exact Hfresh].
  rewrite Hvalid.
  change (get_prop (createUser username email isAdmin random now) "username")
    with username.
  change (get_prop (createUser username email isAdmin random now) "email")
    with email.
  change (get_prop (createUser username email isAdmin random now) "isAdmin")
    with (default_false isAdmin).
  now rewrite flag_matches_role.
Qed.

Lemma createUser_validity_witness :
  validateUserData
    (createUser (JsStr "ann") (JsStr "ann@example.org") (JsNum (Num 1))
       (fun _ => 1 # 2)%Q "2024-01-01T00:00:00.000Z")
  = Return false
  /\ needsMigration
       (createUser (JsStr "ann") (JsStr "ann@example.org") (JsNum (Num 1))
          (fun _ => 1 # 2)%Q "2024-01-01T00:00:00.000Z")
     = Return false.
Proof.
  apply (createUser_validity (JsStr "ann") (JsStr "ann@example.org")
           (JsNum (Num 1)) (fun _ => 1 # 2)%Q "2024-01-01T00:00:00.000Z").
  intros k. split; [discriminate | reflexivity].
Defined.

Lemma needsMigration_returns (userData : JsVal) :
  exists b, needsMigration userData = Return b.
Proof.
  unfold needsMigration.
  destruct (negb (truthy userData) || _); [eauto |].
  destruct (validateUserId_returns (get_prop userData "id")) as [Hv | Hv];
    rewrite Hv; cbn [bind]; eauto.
Qed.

(** X5.  [needsMigration] never raises, and a record that
    [validateUserData] accepts does not need migration. *)
Theorem accepted_record_is_current (userData : JsVal) :
  (exists b, needsMigration userData = Return b)
  /\ (validateUserData userData = Return true ->
      needsMigration userData = Return false).
Proof.
  split; [apply needsMigration_returns |].
  unfold validateUserData, needsMigration. intros Hok.
  destruct (truthy userData); cbn [negb orb] in *; [| discriminate Hok].
  destruct (typeof_is_object userData); cbn [negb orb] in *;
    [| discriminate Hok].
  cbn [requiredFields existsb] in Hok.
  destruct (truthy (get_prop userData "id")); cbn [negb orb] in *;
    [| discriminate Hok].
  destruct (negb (truthy (get_prop userData "username")) || _) in Hok;
    [discriminate Hok |].
  destruct (validateUserId_returns (get_prop userData "id")) as [Hv | Hv];
    rewrite Hv in *; cbn [bind negb] in *; [reflexivity | discriminate Hok].
Qed.

Lemma accepted_record_is_current_witness :
  needsMigration
    (JsObj [("id", JsStr "0092-1234"); ("username", JsStr "root");
            ("email", JsStr "root@example.org"); ("isAdmin", JsBool true)])
  = Return false.
Proof.
  apply (accepted_record_is_current
           (JsObj [("id", JsStr "0092-1234"); ("username", JsStr "root");
                   ("email", JsStr "root@example.org"); ("isAdmin", JsBool true)])).
  reflexivity.
Defined.

(** *** Logging in *)

Lemma named_literal (field : string) :
  String.eqb (take_while is_digit field) field = false -> named field.
Proof. intros H. now apply String.eqb_neq. Qed.

(** The record that [updateLoginInfo] builds, with the count it worked
    out. *)
Lemma updateLoginInfo_record (userData : JsVal) (now : string) (r : JsVal) :
  updateLoginInfo userData now = Return r ->
  is_nullish userData = false
  /\ exists loginCount,
       js_plus (js_or (get_prop (get_prop userData "stats") "loginCount")
                  (JsNum (Num 0))) (JsNum (Num 1)) = Return loginCount
       /\ r = JsObj
                (assign_prop "stats"
                   (JsObj
                      (assign_prop "lastActiveAt" (JsStr now)
                         (assign_prop "loginCount" loginCount
                            (spread_props (get_prop userData "stats")))))
                   (assign_prop "lastLoginAt" (JsStr now)
                      (spread_props userData))).
Proof.
  unfold updateLoginInfo. intros H.
  destruct (is_nullish userData); [discriminate H |]. split; [reflexivity |].
  destruct (js_plus _ _) as [loginCount | e]; cbn [bind] in H;
    [| discriminate H].
  exists loginCount. split; [reflexivity | congruence].
Qed.

Lemma updated_field (userData : JsVal) (now field : string) (r : JsVal) :
  updateLoginInfo userData now = Return r ->
  named field -> field <> "length" ->
  field <> "lastLoginAt" -> field <> "stats" ->
  get_prop r field = get_prop userData field.
Proof.
  intros H Hnamed Hlength Hlast Hstats.
  destruct (updateLoginInfo_record _ _ _ H) as (_ & loginCount & _ & ->).
  cbn [get_prop].
  rewrite !lookup_assign_other by assumption. now apply lookup_spread.
Qed.

(** X6.  Where [updateLoginInfo] returns, [validateUserData] says of the
    updated record what it says of the record given: logging in neither
    breaks a consistent record nor repairs a broken one. *)
Theorem updateLoginInfo_keeps_validity (userData : JsVal) (now : string)
  (r : JsVal) :
  updateLoginInfo userData now = Return r ->
  validateUserData r = validateUserData userData.
Proof.
  intros H.
  assert (Hfield : forall field,
            In field ["id"; "username"; "email"; "isAdmin"] ->
            get_prop r field = get_prop userData field).
  { intros field Hin. apply (updated_field userData now); [exact H | | | |];
      cbn [In] in Hin;
      repeat (destruct Hin as [<- | Hin];
              [first [now apply named_literal | discriminate] |]);
      destruct Hin. }
  destruct (updateLoginInfo_record _ _ _ H) as (Hnull & loginCount & _ & Hr).
  destruct (typeof_is_object userData) eqn:Ho.
  - apply validateUserData_fields; try (apply Hfield; cbn; tauto).
    + rewrite Hr. destruct userData; try discriminate Ho; try discriminate Hnull;
        reflexivity.
    + rewrite Hr, Ho. reflexivity.
  - assert (Hid : get_prop r "id" = JsUndefined).
    { rewrite Hfield by (cbn; tauto).
      destruct userData; try discriminate Ho; reflexivity. }
    unfold validateUserData at 2. rewrite Ho, orb_true_r.
    unfold validateUserData. rewrite Hr in *. cbn [truthy typeof_is_object negb orb].
    cbn [requiredFields existsb]. rewrite Hid. reflexivity.
Qed.

Lemma updateLoginInfo_keeps_validity_witness :
  validateUserData
    (JsObj
       [("id", JsStr "0092-1234"); ("username", JsStr "root");
        ("email", JsStr "root@example.org"); ("isAdmin", JsBool true);
        ("lastLoginAt", JsStr "2024-05-01T08:00:00.000Z");
        ("stats", JsObj [("loginCount", JsNum (Num 1));
                         ("lastActiveAt", JsStr "2024-05-01T08:00:00.000Z")])])
  = validateUserData
      (JsObj [("id", JsStr "0092-1234"); ("username", JsStr "root");
              ("email", JsStr "root@example.org"); ("isAdmin", JsBool true)]).
Proof.
  apply (updateLoginInfo_keeps_validity
           (JsObj [("id", JsStr "0092-1234"); ("username", JsStr "root");
                   ("email", JsStr "root@example.org"); ("isAdmin", JsBool true)])
           "2024-05-01T08:00:00.000Z").
  reflexivity.
Defined.

(** X7.  [updateLoginInfo] raises a [TypeError] on [null] and on
    [undefined].  Given a record whose login count is falsy or missing
    (even with no [stats] at all) it returns one that counts 1; given a
    count [n] it returns one that counts [n + 1].  Either way both times
    are the present one, and every other property of a record that is an
    object is as it was. *)
Theorem updateLoginInfo_counts (userData : JsVal) (now : string) :
  (is_nullish userData = true -> updateLoginInfo userData now = Throw TypeError)
  /\ (is_nullish userData = false ->
      forall count,
        (truthy (get_prop (get_prop userData "stats") "loginCount") = false
         /\ count = 0
         \/ get_prop (get_prop userData "stats") "loginCount" = JsNum (Num count)
            /\ safe_integer count /\ safe_integer (count + 1)) ->
        exists r,
          updateLoginInfo userData now = Return r
          /\ get_prop (get_prop r "stats") "loginCount" = JsNum (Num (count + 1))
          /\ get_prop (get_prop r "stats") "lastActiveAt" = JsStr now
          /\ get_prop r "lastLoginAt" = JsStr now
          /\ forall props field,
               userData = JsObj props ->
               field <> "lastLoginAt" -> field <> "stats" ->
               get_prop r field = lookup_prop field props).
Proof.
  split.
  { intros Hnull. unfold updateLoginInfo. now rewrite Hnull. }
  intros Hnull count Hcount.
  assert (Hplus :
            js_plus (js_or (get_prop (get_prop userData "stats") "loginCount")
                       (JsNum (Num 0))) (JsNum (Num 1))
            = Return (JsNum (Num (count + 1)))).
  { destruct Hcount as [[Hfalsy ->] | (Hnum & _)].
    - unfold js_or. now rewrite Hfalsy.
    - rewrite Hnum. unfold js_or. cbn [truthy].
      destruct (Z.eqb_spec count 0) as [-> | Hnz]; reflexivity. }
  assert (Hreturn : exists r, updateLoginInfo userData now = Return r).
  { unfold updateLoginInfo. rewrite Hnull, Hplus. cbn [bind]. eauto. }
  destruct Hreturn as [r Hr]. exists r. split; [exact Hr |].
  destruct (updateLoginInfo_record _ _ _ Hr) as (_ & loginCount & Hplus' & Hshape).
  rewrite Hplus in Hplus'. injection Hplus' as <-.
  repeat split.
  - rewrite Hshape. cbn [get_prop]. rewrite lookup_assign_same. cbn [get_prop].
    rewrite lookup_assign_other by discriminate. apply lookup_assign_same.
  - rewrite Hshape. cbn [get_prop]. rewrite lookup_assign_same. cbn [get_prop].
    apply lookup_assign_same.
  - rewrite Hshape. cbn [get_prop].
    rewrite lookup_assign_other by discriminate. apply lookup_assign_same.
  - intros props field -> Hlast Hstats. rewrite Hshape. cbn [get_prop spread_props].
    now rewrite !lookup_assign_other by assumption.
Qed.

Lemma updateLoginInfo_counts_witness :
  exists r,
    updateLoginInfo (JsObj [("stats", JsObj [("loginCount", JsNum (Num 4))])])
      "2024-05-01T08:00:00.000Z" = Return r
    /\ get_prop (get_prop r "stats") "loginCount" = JsNum (Num 5).
Proof.
  destruct (proj2 (updateLoginInfo_counts
                     (JsObj [("stats", JsObj [("loginCount", JsNum (Num 4))])])
                     "2024-05-01T08:00:00.000Z")
              eq_refl 4
              (or_intror (conj eq_refl (conj eq_refl eq_refl))))
    as (r & Hr & Hcount & _).
  exists r. split; assumption.
Defined.

(** A record that is an array comes back as an object with its elements,
    and without its [length]. *)
Example an_array_record_loses_its_length :
  let userData := JsArr [JsStr "a"; JsStr "b"] [] in
  exists r,
    updateLoginInfo userData "2024-05-01T08:00:00.000Z" = Return r
    /\ get_prop userData "length" = JsNum (Num 2)
    /\ get_prop r "length" = JsUndefined
    /\ get_prop r "1" = JsStr "b".
Proof. eexists. repeat split. Qed.

(** *** Migration *)

Lemma truthy_or_empty (v : JsVal) : truthy (js_or v (JsStr "")) = truthy v.
Proof. unfold js_or. destruct (truthy v) eqn:E; [exact E | reflexivity]. Qed.

(** The username of the migrated record is never falsy. *)
Lemma migrated_username (oldUserData : JsVal) :
  truthy (get_prop oldUserData "username")
  || id_is_text (get_prop oldUserData "id") = true ->
  exists username,
    truthy username = true
    /\ (if truthy (get_prop oldUserData "username")
        then Return (get_prop oldUserData "username")
        else
          bind (split_dash_first (get_prop oldUserData "id")) (fun first =>
          Return (js_or first (JsStr "unknown"))))
       = Return username.
Proof.
  intros H.
  destruct (truthy (get_prop oldUserData "username")) eqn:Hname.
  - eauto.
  - cbn [orb] in H.
    destruct (get_prop oldUserData "id") as [| | | | s | |];
      try discriminate H; cbn [split_dash_first bind].
    + exists (JsStr "unknown"). split; reflexivity.
    + exists (JsStr "unknown"). split; reflexivity.
    + unfold js_or. destruct (truthy (JsStr (before_dash s))) eqn:E.
      * exists (JsStr (before_dash s)). split; [exact E | reflexivity].
      * exists (JsStr "unknown"). split; reflexivity.
Qed.

(** X8.  [migrateFromOldVersion] raises a [TypeError] on [null] and
    [undefined], and on a record with a falsy username whose [id] is
    neither missing nor a string.  Otherwise it returns a record that does
    not need migration, has a truthy username and keeps the old [id] as
    [_oldId]; [validateUserData] accepts that record exactly when the old
    record had a truthy email and [isAdmin] is a boolean or left out. *)
Theorem migrateFromOldVersion_result (oldUserData isAdmin : JsVal)
  (random : nat -> Q) (now : string) :
  fair random ->
  (is_nullish oldUserData = true ->
   migrateFromOldVersion oldUserData isAdmin random now = Throw TypeError)
  /\ (is_nullish oldUserData = false ->
      truthy (get_prop oldUserData "username")
      || id_is_text (get_prop oldUserData "id") = false ->
      migrateFromOldVersion oldUserData isAdmin random now = Throw TypeError)
  /\ (is_nullish oldUserData = false ->
      truthy (get_prop oldUserData "username")
      || id_is_text (get_prop oldUserData "id") = true ->
      exists r,
        migrateFromOldVersion oldUserData isAdmin random now = Return r
        /\ needsMigration r = Return false
        /\ validateUserData r
           = Return (truthy (get_prop oldUserData "email") && is_flag isAdmin)
        /\ truthy (get_prop r "username") = true
        /\ get_prop r "_oldId" = get_prop oldUserData "id"
        /\ get_prop r "_migrated" = JsBool true).
Proof.
  intros Hrandom. unfold migrateFromOldVersion. repeat split.
  - intros Hnull. now rewrite Hnull.
  - intros Hnull Hbad. rewrite Hnull.
    destruct (truthy (get_prop oldUserData "username")); [discriminate Hbad |].
    cbn [orb] in Hbad.
    destruct (get_prop oldUserData "id"); try discriminate Hbad; reflexivity.
  - intros Hnull Hgood. rewrite Hnull.
    destruct (migrated_username oldUserData Hgood) as (username & Htruthy & ->).
    cbn [bind]. eexists. split; [reflexivity |].
    match goal with |- needsMigration ?R = _ /\ _ => set (record := R) end.
    destruct (validateUserData_generated record
                (truthy (default_false isAdmin)) random Hrandom
                eq_refl eq_refl eq_refl) as [Hvalid Hfresh].
    split; [exact Hfresh |]. split; [| repeat split; exact Htruthy].
    rewrite Hvalid.
    change (get_prop record "username") with username.
    change (get_prop record "email")
      with (js_or (get_prop oldUserData "email") (JsStr "")).
    change (get_prop record "isAdmin") with (default_false isAdmin).
    now rewrite Htruthy, truthy_or_empty, flag_matches_role.
Qed.

Lemma migrateFromOldVersion_result_witness :
  exists r,
    migrateFromOldVersion (JsObj [("id", JsStr "ann-17")]) JsUndefined
      (fun _ => 1 # 2)%Q "2024-05-01T08:00:00.000Z" = Return r
    /\ needsMigration r = Return false
    /\ validateUserData r = Return false
    /\ get_prop r "username" = JsStr "ann".
Proof.
  destruct (migrateFromOldVersion_result (JsObj [("id", JsStr "ann-17")])
              JsUndefined (fun _ => 1 # 2)%Q "2024-05-01T08:00:00.000Z")
    as (_ & _ & Hgood).
  { intros k. split; [discriminate | reflexivity]. }
  destruct (Hgood eq_refl eq_refl) as (r & Hr & Hfresh & Hvalid & _).
  exists r. repeat split; try assumption.
  injection Hr as <-. reflexivity.
Defined.

End UserRestFacts.

(** ** The rest of the store *)

Module StoreRestFacts.
Import Js JsFacts JsConversions CookieUtils DocumentCookie CookieTerms JarFacts.
Import AvatarFacts DeleteFacts RosterFacts BatchFacts CookieUtilsRest StoreTerms.
Import UserUtilsRest (is_nullish).
Import UserRestFacts (lookup_assign_same, lookup_assign_other).

Lemma getCookie_setCookie_expired (name value : string) (days : Z) (jar : Jar) :
  days <= 0 -> getCookie name (setCookie name value days jar) = None.
Proof.
  intros Hdays. unfold setCookie.
  destruct (Z.ltb_spec 0 days); [lia |]. apply jar_find_remove_same.
Qed.

Lemma not_avatar_name (username name : string) :
  ~ is_avatar_name username name ->
  name <> userAvatar_name username
  /\ name <> userAvatar_chunks_name username
  /\ forall i, name <> userAvatar_chunk_name username i.
Proof.
  unfold is_avatar_name. intros Hnot. repeat split.
  - intros E. apply Hnot. now left.
  - intros E. apply Hnot. right. now left.
  - intros i E. apply Hnot. right. right. now exists i.
Qed.

(** [setUserAvatar] writes under the avatar names of [username] only. *)
Lemma setUserAvatar_other (username avatarData name : string) (days : Z)
  (jar : Jar) :
  ~ is_avatar_name username name ->
  getCookie name (setUserAvatar username avatarData days jar)
  = getCookie name jar.
Proof.
  intros Hnot. destruct (not_avatar_name _ _ Hnot) as (Hbase & Hcount & Hchunk).
  unfold setUserAvatar, setAvatarChunks.
  destruct (chunkThreshold <? String.length avatarData)%nat.
  - rewrite store_chunks_other by exact Hchunk.
    now rewrite !getCookie_setCookie_other by assumption.
  - now rewrite getCookie_setCookie_other by assumption.
Qed.

(** X9.  For a username and an avatar that the browser keeps as they are
    given (printable characters other than [';'] and the blank, and other
    than ['='] in the username): an avatar of any length, the empty string
    and the marker ['chunked'] apart, that [setUserAvatar] stores with a
    lifetime of at least one day is what [getUserAvatar] returns next,
    whatever the jar held before.  With a lifetime of no days
    [getUserAvatar] returns [null] instead.  Either way no entry is touched
    but those that hold the avatar of this user. *)
Theorem avatar_of_any_length (username avatarData : string) (days : Z)
  (jar : Jar) :
  plain_username username = true ->
  solid avatarData = true ->
  (0 < days -> avatarData <> "" -> avatarData <> chunkMarker ->
   getUserAvatar username (setUserAvatar username avatarData days jar)
   = Some avatarData)
  /\ (days <= 0 ->
      getUserAvatar username (setUserAvatar username avatarData days jar) = None)
  /\ (forall name,
        lacks "=" name = true ->
        ~ is_avatar_name username name ->
        getCookie name (setUserAvatar username avatarData days jar)
        = getCookie name jar).
Proof.
  intros _ _. repeat split.
  - apply avatar_reads_back.
  - intros Hdays.
    assert (Hbase : getCookie (userAvatar_name username)
                      (setUserAvatar username avatarData days jar) = None).
    { unfold setUserAvatar, setAvatarChunks.
      destruct (chunkThreshold <? String.length avatarData)%nat.
      - rewrite store_chunks_other by (intros k; apply avatar_name_not_chunk).
        rewrite getCookie_setCookie_other by apply avatar_name_not_chunks.
        now apply getCookie_setCookie_expired.
      - now apply getCookie_setCookie_expired. }
    unfold getUserAvatar. now rewrite Hbase.
  - intros name _. apply setUserAvatar_other.
Qed.

Lemma avatar_of_any_length_witness :
  getUserAvatar "alice"
    (setUserAvatar "alice" (repeat_char "A" (2 * chunkSize + 1)) 30
       [("userAvatar_alice", "portrait"); ("userAvatar_alice_chunk_2", "stale")])
  = Some (repeat_char "A" (2 * chunkSize + 1)).
Proof.
  apply (proj1 (avatar_of_any_length "alice" (repeat_char "A" (2 * chunkSize + 1))
                  30 [("userAvatar_alice", "portrait");
                      ("userAvatar_alice_chunk_2", "stale")]
                  eq_refl ltac:(vm_compute; reflexivity)));
    [reflexivity | discriminate | discriminate].
Defined.

(** *** Logging in *)

Lemma token_is_no_avatar (username : string) :
  ~ is_avatar_name username (userToken_name username).
Proof. intros [E | [E | [i E]]]; discriminate E. Qed.

Lemma data_is_no_avatar (username : string) :
  ~ is_avatar_name username (userData_name username).
Proof. intros [E | [E | [i E]]]; discriminate E. Qed.

Lemma activeUser_is_no_avatar (username : string) :
  ~ is_avatar_name username "activeUser".
Proof. intros [E | [E | [i E]]]; discriminate E. Qed.

Lemma lastUsers_is_no_avatar (username : string) :
  ~ is_avatar_name username "lastUsers".
Proof. intros [E | [E | [i E]]]; discriminate E. Qed.

Section WithJSON.
Context {J : JSON}.

Lemma getUserAvatar_ext (username : string) (jar jar' : Jar) :
  (forall name, is_avatar_name username name ->
     getCookie name jar' = getCookie name jar) ->
  getUserAvatar username jar' = getUserAvatar username jar.
Proof.
  intros Hsame. unfold getUserAvatar, getAvatarChunks, stored_chunkCount.
  rewrite (Hsame (userAvatar_name username)) by now left.
  rewrite (Hsame (userAvatar_chunks_name username)) by (right; now left).
  rewrite (chunks_loop_ext username jar jar'); [reflexivity |].
  intros i. apply Hsame. right. right. now exists i.
Qed.

Lemma getUserData_ext (username : string) (jar jar' : Jar) :
  getCookie (userData_name username) jar' = getCookie (userData_name username) jar ->
  getUserAvatar username jar' = getUserAvatar username jar ->
  getUserData username jar' = getUserData username jar.
Proof. intros Hdata Havatar. unfold getUserData. now rewrite Hdata, Havatar. Qed.

(** A data entry that parses to a record is returned with the avatar. *)
Lemma getUserData_of_record (username text : string)
  (props : list (string * JsVal)) (jar : Jar) :
  getCookie (userData_name username) jar = Some text ->
  text <> "" ->
  JSON_parse text = Return (JsObj props) ->
  getUserData username jar = with_avatar (getUserAvatar username jar) props.
Proof.
  intros Hdata Htext Hparse. unfold getUserData, with_avatar, merged_avatar.
  rewrite Hdata, truthy_str_Some by exact Htext. rewrite Hparse.
  cbn [bind truthy].
  destruct (getUserAvatar username jar) as [avatar |]; [| reflexivity].
  destruct (truthy_str (Some avatar) && negb (String.eqb avatar "default"));
    reflexivity.
Qed.

Lemma updateLastUsers_frame (username : string) (jar jar' : Jar) :
  updateLastUsers username jar = Return jar' ->
  forall name, name <> "lastUsers" -> getCookie name jar' = getCookie name jar.
Proof.
  unfold updateLastUsers. intros H name Hname.
  destruct (getLastUsers jar); try discriminate H.
  injection H as <-. now apply getCookie_setCookie_other.
Qed.

Lemma updateLastUsers_outcome (username : string) (jar : Jar) :
  (exists elems props jar',
     getLastUsers jar = JsArr elems props
     /\ updateLastUsers username jar = Return jar')
  \/ ((forall elems props, getLastUsers jar <> JsArr elems props)
      /\ updateLastUsers username jar = Throw TypeError).
Proof.
  unfold updateLastUsers.
  destruct (getLastUsers jar) as [| | | | | |elems props];
    try (right; split; [intros; discriminate | reflexivity]).
  left. eauto.
Qed.

(** The entries that the statements before [updateLastUsers] leave alone. *)
Lemma jar_before_roster_other (username token name : string) (userData : JsVal)
  (days : Z) (jar : Jar) :
  ~ is_login_name username name ->
  getCookie name (jar_before_roster username token userData days jar)
  = getCookie name jar.
Proof.
  intros Hnot. unfold jar_before_roster.
  assert (Htoken : name <> userToken_name username).
  { intros E. apply Hnot. now left. }
  assert (Hdata : name <> userData_name username).
  { intros E. apply Hnot. right. now left. }
  assert (Havatar : ~ is_avatar_name username name).
  { intros E. apply Hnot. right. right. now left. }
  assert (Hactive : name <> "activeUser").
  { intros E. apply Hnot. right. right. right. now left. }
  rewrite !getCookie_setCookie_other by assumption.
  destruct (avatar_field userData);
    rewrite ?setUserAvatar_other by assumption;
    now rewrite getCookie_setCookie_other by assumption.
Qed.

Lemma jar_before_roster_lastUsers (username token : string) (userData : JsVal)
  (days : Z) (jar : Jar) :
  getLastUsers (jar_before_roster username token userData days jar)
  = getLastUsers jar.
Proof.
  apply getLastUsers_ext. unfold jar_before_roster.
  rewrite !getCookie_setCookie_other by discriminate.
  destruct (avatar_field userData);
    rewrite ?setUserAvatar_other by apply lastUsers_is_no_avatar;
    now rewrite getCookie_setCookie_other by discriminate.
Qed.

(** How [setUserToken] ends, and where it leaves the jar. *)
Lemma setUserToken_shape (username token : string) (userData : JsVal)
  (days : Z) (jar : Jar) :
  is_nullish userData = false ->
  avatar_field userData <> OtherAvatar ->
  exists outcome jar',
    setUserToken username token userData days jar = Some (outcome, jar')
    /\ ((exists elems props, getLastUsers jar = JsArr elems props)
        /\ outcome = Return tt
        \/ (forall elems props, getLastUsers jar <> JsArr elems props)
           /\ outcome = Throw TypeError)
    /\ forall name,
         name <> "lastUsers" ->
         getCookie name jar'
         = getCookie name (jar_before_roster username token userData days jar).
Proof.
  intros Hnull Havatar.
  assert (Hrun :
    setUserToken username token userData days jar
    = match updateLastUsers username
              (jar_before_roster username token userData days jar) with
      | Return jar' => Some (Return tt, jar')
      | Throw e =>
          Some (Throw e, jar_before_roster username token userData days jar)
      end).
  { unfold setUserToken, jar_before_roster, stored_record. rewrite Hnull.
    destruct (avatar_field userData); [reflexivity | reflexivity | congruence]. }
  rewrite Hrun.
  destruct (updateLastUsers_outcome username
              (jar_before_roster username token userData days jar))
    as [(elems & props & jar' & Hroster & Hupdate) | (Hroster & Hupdate)];
    rewrite Hupdate; rewrite jar_before_roster_lastUsers in Hroster.
  - exists (Return tt), jar'. split; [reflexivity |]. split; [left; eauto |].
    intros name Hname. now apply (updateLastUsers_frame username).
  - eexists _, _. split; [reflexivity |]. split; [right; split; auto |].
    reflexivity.
Qed.

Lemma avatar_name_is_login_only (username name : string) :
  is_avatar_name username name ->
  name <> userToken_name username
  /\ name <> userData_name username
  /\ name <> "activeUser"
  /\ name <> "lastUsers".
Proof.
  intros Havatar. repeat split; intros ->.
  - now apply (token_is_no_avatar username).
  - now apply (data_is_no_avatar username).
  - now apply (activeUser_is_no_avatar username).
  - now apply (lastUsers_is_no_avatar username).
Qed.

(** What the jar holds for [username] once the statements before
    [updateLastUsers] have run. *)
Lemma jar_before_roster_reads (username token : string) (userData : JsVal)
  (days : Z) (jar : Jar) :
  0 < days ->
  let jar' := jar_before_roster username token userData days jar in
  getCookie (userToken_name username) jar' = Some token
  /\ getCookie "activeUser" jar' = Some username
  /\ getCookie (userData_name username) jar'
     = Some (JSON_stringify (stored_record userData))
  /\ getUserAvatar username jar'
     = match avatar_field userData with
       | Avatar avatarData =>
           getUserAvatar username
             (setUserAvatar username avatarData days
                (setCookie (userToken_name username) token days jar))
       | _ => getUserAvatar username jar
       end.
Proof.
  intros Hdays jar'. subst jar'. unfold jar_before_roster. repeat split.
  - rewrite !getCookie_setCookie_other by discriminate.
    destruct (avatar_field userData);
      rewrite ?setUserAvatar_other by apply token_is_no_avatar;
      now apply getCookie_setCookie_same.
  - now apply getCookie_setCookie_same.
  - rewrite getCookie_setCookie_other by discriminate.
    now apply getCookie_setCookie_same.
  - assert (Hstep : forall avatarJar,
              getUserAvatar username
                (setCookie "activeUser" username days
                   (setCookie (userData_name username)
                      (JSON_stringify (stored_record userData)) days avatarJar))
              = getUserAvatar username avatarJar).
    { intros avatarJar. apply getUserAvatar_ext. intros name Hname.
      destruct (avatar_name_is_login_only _ _ Hname) as (_ & Hd & Ha & _).
      now rewrite !getCookie_setCookie_other by assumption. }
    rewrite Hstep.
    destruct (avatar_field userData); try reflexivity;
      apply getUserAvatar_ext; intros name Hname;
      destruct (avatar_name_is_login_only _ _ Hname) as (Ht & _);
      now rewrite getCookie_setCookie_other by assumption.
Qed.

Context {L : JSONLaws}.

Lemma written_text_is_not_empty (v : JsVal) :
  JSON_parse (JSON_stringify v) = Return v -> JSON_stringify v <> "".
Proof. intros Hparse E. rewrite E in Hparse. now apply parse_empty in Hparse. Qed.

(** X10.  For a username, a token, a text of the record and a text of
    the roster that the browser keeps as they are given: a login whose
    record has no avatar (or a falsy one) stores the token, the record and
    the active user, whether or not the roster can be updated afterwards:
    [getUserToken] returns the token, [getActiveUser] the username, and
    [getUserData] the record, to which it adds the avatar that the jar
    already held for this username, if it held one.  [setUserToken] raises
    a [TypeError] exactly when the roster entry does not hold an array,
    after everything else is written.  No entry under a name without ['=']
    is touched but those of this username, the active user and the
    roster. *)
Theorem login_without_avatar (username token : string)
  (props : list (string * JsVal)) (days : Z) (jar : Jar) :
  plain_username username = true ->
  kept_value token = true ->
  kept_value (JSON_stringify (JsObj props)) = true ->
  keeps_roster username jar = true ->
  0 < days ->
  truthy (lookup_prop "userAvatar" props) = false ->
  JSON_parse (JSON_stringify (JsObj props)) = Return (JsObj props) ->
  exists outcome jar',
    setUserToken username token (JsObj props) days jar = Some (outcome, jar')
    /\ getUserToken username jar' = Some token
    /\ getActiveUser jar' = Some username
    /\ getUserData username jar' = with_avatar (getUserAvatar username jar) props
    /\ (username <> "" ->
        getCurrentUserToken jar' = Some token
        /\ getCurrentUserData jar'
           = with_avatar (getUserAvatar username jar) props)
    /\ ((exists elems arrayProps, getLastUsers jar = JsArr elems arrayProps)
        /\ outcome = Return tt
        \/ (forall elems arrayProps, getLastUsers jar <> JsArr elems arrayProps)
           /\ outcome = Throw TypeError)
    /\ forall name,
         lacks "=" name = true ->
         ~ is_login_name username name ->
         getCookie name jar' = getCookie name jar.
Proof.
  intros _ _ _ _ Hdays Hfalsy Hparse.
  assert (Hfield : avatar_field (JsObj props) = NoAvatar).
  { unfold avatar_field. cbn [get_prop]. now rewrite Hfalsy. }
  destruct (setUserToken_shape username token (JsObj props) days jar eq_refl)
    as (outcome & jar' & Hrun & Houtcome & Hsame).
  { rewrite Hfield. discriminate. }
  exists outcome, jar'. split; [exact Hrun |].
  destruct (account_reads_ext _ _ Hsame username) as (Htoken & Havatar & Hdata).
  destruct (jar_before_roster_reads username token (JsObj props) days jar Hdays)
    as (Rtoken & Ractive & Rdata & Ravatar).
  rewrite Hfield in Ravatar. unfold stored_record in Rdata.
  rewrite Hfield in Rdata.
  assert (Gtoken : getUserToken username jar' = Some token).
  { rewrite Htoken. exact Rtoken. }
  assert (Gactive : getActiveUser jar' = Some username).
  { unfold getActiveUser. rewrite Hsame by discriminate. exact Ractive. }
  assert (Gdata : getUserData username jar'
                  = with_avatar (getUserAvatar username jar) props).
  { rewrite Hdata, <- Ravatar.
    apply (getUserData_of_record username _ props _ Rdata);
      [now apply written_text_is_not_empty | exact Hparse]. }
  repeat split; try assumption.
  - unfold getCurrentUserToken. rewrite Gactive.
    now rewrite truthy_str_Some by assumption.
  - unfold getCurrentUserData. rewrite Gactive.
    now rewrite truthy_str_Some by assumption.
  - intros name _ Hname.
    assert (Hroster : name <> "lastUsers").
    { intros E. apply Hname. right. right. right. now right. }
    rewrite Hsame by exact Hroster. now apply jar_before_roster_other.
Qed.

Lemma lookup_remove_other (field other : string) (props : list (string * JsVal)) :
  other <> field ->
  lookup_prop other (remove_prop field props) = lookup_prop other props.
Proof.
  intros Hne. unfold remove_prop.
  induction props as [| [k w] rest IH]; cbn [filter lookup_prop fst];
    [reflexivity |].
  destruct (String.eqb_spec k field) as [-> | Hk]; cbn [negb lookup_prop].
  - assert (String.eqb field other = false) as ->; [| exact IH].
    apply String.eqb_neq. congruence.
  - now rewrite IH.
Qed.

(** X11.  For a username, a token, an avatar, a text of the record and a
    text of the roster that the browser keeps as they are given: a login
    whose record carries a string avatar (any but the empty string and
    ['chunked']) stores the avatar in entries of its own and the record
    without it.  [getUserAvatar] then returns the avatar, and [getUserData]
    returns a record with the value that the given record had under every
    property name, unless the avatar is the text ['default'], which
    [getUserData] does not put back. *)
Theorem login_with_avatar (username token avatarData : string)
  (props : list (string * JsVal)) (days : Z) (jar : Jar) :
  plain_username username = true ->
  kept_value token = true ->
  solid avatarData = true ->
  kept_value (JSON_stringify (JsObj (remove_prop "userAvatar" props))) = true ->
  keeps_roster username jar = true ->
  0 < days ->
  lookup_prop "userAvatar" props = JsStr avatarData ->
  avatarData <> "" ->
  avatarData <> chunkMarker ->
  JSON_parse (JSON_stringify (JsObj (remove_prop "userAvatar" props)))
  = Return (JsObj (remove_prop "userAvatar" props)) ->
  exists outcome jar',
    setUserToken username token (JsObj props) days jar = Some (outcome, jar')
    /\ getUserToken username jar' = Some token
    /\ getCookie (userData_name username) jar'
       = Some (JSON_stringify (JsObj (remove_prop "userAvatar" props)))
    /\ getUserAvatar username jar' = Some avatarData
    /\ (avatarData = "default" ->
        getUserData username jar' = JsObj (remove_prop "userAvatar" props))
    /\ (avatarData <> "default" ->
        forall field,
          get_prop (getUserData username jar') field
          = get_prop (JsObj props) field).
Proof.
  intros _ _ _ _ _ Hdays Hgiven Hne Hmarker Hparse.
  assert (Hfield : avatar_field (JsObj props) = Avatar avatarData).
  { unfold avatar_field. cbn [get_prop]. rewrite Hgiven. cbn [truthy].
    now destruct (String.eqb_spec avatarData ""). }
  destruct (setUserToken_shape username token (JsObj props) days jar eq_refl)
    as (outcome & jar' & Hrun & _ & Hsame).
  { rewrite Hfield. discriminate. }
  exists outcome, jar'. split; [exact Hrun |].
  destruct (account_reads_ext _ _ Hsame username) as (Htoken & Havatar & Hdata).
  destruct (jar_before_roster_reads username token (JsObj props) days jar Hdays)
    as (Rtoken & _ & Rdata & Ravatar).
  rewrite Hfield in Ravatar. unfold stored_record in Rdata.
  rewrite Hfield in Rdata. cbn [spread_props] in Rdata.
  rewrite avatar_reads_back in Ravatar by assumption.
  assert (Gdata : getUserData username jar'
                  = with_avatar (Some avatarData) (remove_prop "userAvatar" props)).
  { rewrite Hdata, <- Ravatar.
    apply (getUserData_of_record username _ _ _ Rdata);
      [now apply written_text_is_not_empty | exact Hparse]. }
  unfold with_avatar, merged_avatar in Gdata.
  rewrite truthy_str_Some in Gdata by assumption. cbn [andb] in Gdata.
  repeat split.
  - rewrite Htoken. exact Rtoken.
  - rewrite Hsame by discriminate. exact Rdata.
  - rewrite Havatar. exact Ravatar.
  - intros ->. exact Gdata.
  - intros Hdefault field. rewrite Gdata.
    destruct (String.eqb_spec avatarData "default") as [E | _]; [congruence |].
    cbn [negb get_prop].
    destruct (String.eqb_spec field "userAvatar") as [-> | Hother].
    + now rewrite lookup_assign_same.
    + rewrite lookup_assign_other by assumption.
      now apply lookup_remove_other.
Qed.

(** X12.  For a username and a token that the browser keeps as they are
    given: [setUserToken] with [null] or [undefined] for the record raises a
    [TypeError], but only after it has stored the token: the token is the
    one entry it has written.  If the jar held no record for this
    username, the username now has a token and no data, and
    [getAllUserTokens] does not list it. *)
Theorem login_without_record (username token : string) (userData : JsVal)
  (days : Z) (jar : Jar) :
  plain_username username = true ->
  kept_value token = true ->
  0 < days ->
  is_nullish userData = true ->
  let jar' := setCookie (userToken_name username) token days jar in
  setUserToken username token userData days jar = Some (Throw TypeError, jar')
  /\ getUserToken username jar' = Some token
  /\ (forall name, lacks "=" name = true -> name <> userToken_name username ->
        getCookie name jar' = getCookie name jar)
  /\ (getCookie (userData_name username) jar = None ->
      getUserData username jar' = JsNull
      /\ forall account,
           In account (getAllUserTokens jar') ->
           CookieUtils.username account <> username).
Proof.
  intros _ _ Hdays Hnull jar'. subst jar'.
  assert (Hother : forall name, name <> userToken_name username ->
            getCookie name (setCookie (userToken_name username) token days jar)
            = getCookie name jar).
  { intros name Hname. now apply getCookie_setCookie_other. }
  assert (Hnodata : getCookie (userData_name username) jar = None ->
            getUserData username
              (setCookie (userToken_name username) token days jar) = JsNull).
  { intros Hnone. unfold getUserData.
    rewrite Hother by discriminate. now rewrite Hnone. }
  repeat split.
  - unfold setUserToken. now rewrite Hnull.
  - now apply getCookie_setCookie_same.
  - intros name _. apply Hother.
  - exact (Hnodata H).
  - intros account Hin Heq.
    destruct (getAllUserTokens_reads _ _ _ Hin) as (_ & _ & Hdata & Htruthy).
    rewrite Hdata, Heq, (Hnodata H) in Htruthy. discriminate Htruthy.
Qed.

End WithJSON.

Import ConcreteJSON ConcreteJSONFacts.

Lemma login_without_avatar_witness :
  exists outcome jar',
    setUserToken "alice" "t0k3n" (JsObj [("username", JsStr "alice")]) 7
      [("userAvatar_alice", "portrait")] = Some (outcome, jar')
    /\ getUserToken "alice" jar' = Some "t0k3n"
    /\ getUserData "alice" jar'
       = JsObj [("username", JsStr "alice"); ("userAvatar", JsStr "portrait")].
Proof.
  destruct (login_without_avatar (L := runtime_laws) "alice" "t0k3n"
              [("username", JsStr "alice")] 7 [("userAvatar_alice", "portrait")])
    as (outcome & jar' & Hrun & Htoken & _ & Hdata & _);
    [reflexivity | reflexivity | reflexivity | reflexivity
     | reflexivity | reflexivity | reflexivity |].
  exists outcome, jar'. repeat split; assumption.
Defined.

Lemma login_with_avatar_witness :
  exists outcome jar',
    setUserToken "alice" "t0k3n"
      (JsObj [("userAvatar", JsStr "portrait"); ("username", JsStr "alice")]) 7 []
    = Some (outcome, jar')
    /\ getCookie "userData_alice" jar'
       = Some (stringify (JsObj [("username", JsStr "alice")]))
    /\ getUserAvatar "alice" jar' = Some "portrait".
Proof.
  destruct (login_with_avatar (L := runtime_laws) "alice" "t0k3n" "portrait"
              [("userAvatar", JsStr "portrait"); ("username", JsStr "alice")] 7 [])
    as (outcome & jar' & Hrun & _ & Hdata & Havatar & _);
    [reflexivity | reflexivity | reflexivity | reflexivity | reflexivity
     | reflexivity | reflexivity | discriminate | discriminate | reflexivity |].
  exists outcome, jar'. repeat split; assumption.
Defined.

Lemma login_without_record_witness :
  setUserToken "alice" "t0k3n" JsNull 7 []
  = Some (Throw TypeError, [("userToken_alice", "t0k3n")])
  /\ getUserData "alice" [("userToken_alice", "t0k3n")] = JsNull.
Proof.
  destruct (login_without_record (J := runtime) "alice" "t0k3n" JsNull 7 [])
    as (Hrun & _ & _ & Hrest);
    [reflexivity | reflexivity | reflexivity | reflexivity |].
  split; [exact Hrun | exact (proj1 (Hrest eq_refl))].
Defined.

End StoreRestFacts.

(** ** Accounts as a whole *)

Module AccountFacts.
Import Js JsFacts JsConversions CookieUtils CookieTerms JarFacts AvatarFacts.
Import DeleteFacts RosterFacts BatchFacts CookieUtilsRest StoreTerms.



Lemma userToken_name_inj (a b : string) :
  userToken_name a = userToken_name b -> a = b.
Proof. apply append_cancel_l. Qed.

Section WithJSON.
Context {J : JSON}.



(** *** The users that a batch reports valid *)

Lemma NoDup_filter {A : Type} (p : A -> bool) (l : list A) :
  NoDup l -> NoDup (filter p l).
Proof.
  induction 1 as [| x l Hx Hl IH]; cbn [filter]; [constructor |].
  destruct (p x); [| exact IH].
  constructor; [| exact IH]. intros Hin. apply Hx.
  now apply filter_In in Hin.
Qed.

Lemma NoDup_nth_error_inj {A : Type} (l : list A) :
  NoDup l ->
  forall i j x, nth_error l i = Some x -> nth_error l j = Some x -> i = j.
Proof.
  induction 1 as [| y l Hy Hl IH]; intros i j x Hi Hj.
  - destruct i; discriminate Hi.
  - destruct i as [| i], j as [| j]; cbn [nth_error] in *.
    + reflexivity.
    + exfalso. apply Hy. injection Hi as ->. now apply nth_error_In in Hj.
    + exfalso. apply Hy. injection Hj as ->. now apply nth_error_In in Hi.
    + f_equal. now apply (IH i j x).
Qed.

(** In a jar whose entries have names of their own, no username is listed
    twice. *)
Lemma accounts_are_distinct (jar : Jar) :
  NoDup (map fst jar) ->
  forall i j a b,
    nth_error (getAllUserTokens jar) i = Some a ->
    nth_error (getAllUserTokens jar) j = Some b ->
    username a = username b -> i = j.
Proof.
  intros Hnames i j a b Hi Hj Hsame.
  pose proof (getAllUserTokens_names jar jar) as Hlist.
  fold (getAllUserTokens jar) in Hlist.
  assert (Hdistinct : NoDup (map (fun account => userToken_name (username account))
                               (getAllUserTokens jar))).
  { rewrite Hlist. now apply NoDup_filter. }
  apply (NoDup_nth_error_inj _ Hdistinct i j (userToken_name (username a))).
  - now rewrite nth_error_map, Hi.
  - now rewrite nth_error_map, Hj, Hsame.
Qed.

(** X14.  In a jar whose entries have names of their own, every user that
    [getValidUsers] takes from the list that [batchValidateTokens] returns still
    has, after the batch, the token and the data entry that it had before,
    whatever was deleted for the accounts found invalid; the record listed
    for the user is the one that [getUserData] returned before the batch,
    and it is never [null]. *)
Theorem valid_users_are_kept (validateTokenFn : Validator) (jar : Jar)
  (validationResults : list ValidationResult) (user : ValidUser) :
  NoDup (map fst jar) ->
  fst (batchValidateTokens validateTokenFn jar) = Return validationResults ->
  In user (getValidUsers validationResults) ->
  let jar' := snd (batchValidateTokens validateTokenFn jar) in
  exists token,
    getUserToken (valid_username user) jar = Some token
    /\ token <> ""
    /\ getUserToken (valid_username user) jar' = Some token
    /\ getCookie (userData_name (valid_username user)) jar'
       = getCookie (userData_name (valid_username user)) jar
    /\ valid_userData user = getUserData (valid_username user) jar
    /\ truthy (valid_userData user) = true.
Proof.
  intros Hnames Hreturned Hin jar'. subst jar'. unfold batchValidateTokens in *.
  destruct (validate_loop validateTokenFn (getAllUserTokens jar) [] jar)
    as [returned jar'] eqn:Hrun.
  cbn [fst snd] in *. subst returned.
  destruct (validate_loop_returns validateTokenFn _ _ _ _ _ Hrun)
    as (results & -> & -> & Hlength & Hreports).
  cbn [app] in *.
  unfold getValidUsers in Hin. apply in_map_iff in Hin.
  destruct Hin as (r & <- & Hr). apply filter_In in Hr.
  destruct Hr as [Hr Hvalid]. cbn [valid_username valid_userData].
  apply In_nth_error in Hr. destruct Hr as [k Hk].
  assert (Hentry : exists entry, nth_error (getAllUserTokens jar) k = Some entry).
  { destruct (nth_error (getAllUserTokens jar) k) eqn:E; [eauto |].
    apply nth_error_None in E. rewrite <- Hlength in E.
    assert (nth_error results k = None) as Hnone by now apply nth_error_None.
    congruence. }
  destruct Hentry as [entry Hentry].
  destruct (Hreports k entry Hentry) as (r' & Hk' & Hname & Hwhat).
  rewrite Hk in Hk'. injection Hk' as <-.
  assert (Hdata : result_userData r = userData entry).
  { destruct (validateTokenFn _ _ _) as [valid | raised].
    - destruct Hwhat as (Hsame & Hdata & _). rewrite Hdata, <- Hsame.
      now rewrite Hvalid.
    - destruct Hwhat as (Hfalse & _). rewrite Hfalse in Hvalid.
      discriminate Hvalid. }
  destruct (getAllUserTokens_reads jar jar entry (nth_error_In _ _ Hentry))
    as (Htoken & Hnonempty & Hread & Htruthy).
  assert (Hsurvives : forall name,
            (forall other, other <> username entry ->
               is_deleted_name other name = false) ->
            getCookie name (jar_after results jar) = getCookie name jar).
  { intros name Hfree. rewrite getCookie_jar_after.
    assert (existsb (fun r0 => negb (truthy (isValid r0))
                               && is_deleted_name (result_username r0) name)
              results = false) as ->; [| reflexivity].
    apply not_true_is_false. intros Hex. apply existsb_exists in Hex.
    destruct Hex as (r0 & Hr0 & Hbad). apply andb_true_iff in Hbad.
    destruct Hbad as [Hinvalid Hdeleted]. apply negb_true_iff in Hinvalid.
    apply In_nth_error in Hr0. destruct Hr0 as [j Hj].
    assert (Hentry0 : exists entry0,
              nth_error (getAllUserTokens jar) j = Some entry0).
    { destruct (nth_error (getAllUserTokens jar) j) eqn:E; [eauto |].
      apply nth_error_None in E. rewrite <- Hlength in E.
      assert (nth_error results j = None) as Hnone by now apply nth_error_None.
      congruence. }
    destruct Hentry0 as [entry0 Hentry0].
    destruct (Hreports j entry0 Hentry0) as (r1 & Hj' & Hname0 & _).
    rewrite Hj in Hj'. injection Hj' as <-.
    destruct (string_dec (result_username r0) (username entry)) as [E | Hne].
    - assert (j = k).
      { apply (accounts_are_distinct jar Hnames j k entry0 entry);
          try assumption. congruence. }
      subst j. congruence.
    - rewrite (Hfree _ Hne) in Hdeleted. discriminate Hdeleted. }
  exists (token entry). rewrite Hname, Hdata.
  repeat split; try assumption.
  - unfold getUserToken. rewrite Hsurvives; [exact Htoken |].
    intros other Hother. apply other_token_not_deleted. congruence.
  - apply Hsurvives. intros other Hother.
    apply other_data_not_deleted. congruence.
Qed.

End WithJSON.

Import ConcreteJSON ConcreteJSONFacts.

Lemma valid_users_are_kept_witness :
  let profile name := stringify (JsObj [("username", JsStr name)]) in
  let jar :=
    [("userToken_good", "t1"); ("userData_good", profile "good");
     ("userToken_bad", "t2"); ("userData_bad", profile "bad")] in
  let validateTokenFn : Validator :=
    fun _ username _ => Resolves (JsBool (negb (String.eqb username "bad"))) in
  exists token,
    getUserToken "good" jar = Some token
    /\ getUserToken "good" (snd (batchValidateTokens validateTokenFn jar))
       = Some token.
Proof.
  cbv zeta.
  destruct (valid_users_are_kept
              (fun _ username _ =>
                 Resolves (JsBool (negb (String.eqb username "bad"))))
              [("userToken_good", "t1");
               ("userData_good", stringify (JsObj [("username", JsStr "good")]));
               ("userToken_bad", "t2");
               ("userData_bad", stringify (JsObj [("username", JsStr "bad")]))]
              [{| result_username := "good"; isValid := JsBool true;
                  result_userData := JsObj [("username", JsStr "good")];
                  error := JsNull |};
               {| result_username := "bad"; isValid := JsBool false;
                  result_userData := JsNull; error := JsNull |}]
              {| valid_username := "good";
                 valid_userData := JsObj [("username", JsStr "good")] |})
    as (token & Hbefore & _ & Hafter & _).
  - repeat (constructor; [cbn; intuition discriminate |]). constructor.
  - vm_compute. reflexivity.
  - vm_compute. left. reflexivity.
  - exists token. split; [exact Hbefore | exact Hafter].
Defined.

(** Not every token is cleared: a token without a record outlives
    [clearAllUserTokens], and [getAllSavedUsers] still lists its username. *)
Example token_without_record_outlives_clearing :
  let jar :=
    [("userToken_alice", "t1");
     ("userData_alice", stringify (JsObj [("username", JsStr "alice")]));
     ("userToken_ghost", "t2"); ("activeUser", "alice")] in
  map username (getAllUserTokens jar) = ["alice"]
  /\ clearAllUserTokens jar = [("userToken_ghost", "t2")]
  /\ getAllSavedUsers (clearAllUserTokens jar) = ["ghost"].
Proof. vm_compute. repeat split. Qed.

End AccountFacts.

(** ** Usernames and stored records, from the text of [document.cookie] *)

Module SavedUsersFacts.
Import Js JsFacts JsConversions CookieUtils CookieTerms JarFacts AvatarFacts.
Import DeleteFacts BatchFacts DocumentCookie DocumentCookieFacts.
Import CookieUtilsRest StoreTerms UserUtilsRest StoredUsers.
Import UserRestFacts (needsMigration_returns).
Import StoredUsersTerms.

Lemma set_add_In (member username : string) (members : list string) :
  In username (set_add member members) <-> username = member \/ In username members.
Proof.
  unfold set_add. destruct (existsb (String.eqb member) members) eqn:E.
  - split; [tauto |]. intros [-> | H]; [| exact H].
    apply existsb_exists in E. destruct E as (x & Hx & Heq).
    apply String.eqb_eq in Heq. now subst x.
  - rewrite in_app_iff. cbn [In]. intuition congruence.
Qed.

Lemma set_add_NoDup (member : string) (members : list string) :
  NoDup members -> NoDup (set_add member members).
Proof.
  intros Hmembers. unfold set_add.
  destruct (existsb (String.eqb member) members) eqn:E; [exact Hmembers |].
  apply NoDup_app; [exact Hmembers | repeat constructor; intros [] |].
  intros x Hx [Hsame | []]. subst x.
  assert (existsb (String.eqb member) members = true); [| congruence].
  apply existsb_exists. exists member. split; [exact Hx | apply String.eqb_refl].
Qed.

Lemma collect_spec (found : list (option string)) :
  forall usernames,
    NoDup usernames ->
    NoDup (collect found usernames)
    /\ forall username,
         In username (collect found usernames)
         <-> In username usernames
             \/ (username <> "" /\ In (Some username) found).
Proof.
  unfold collect.
  induction found as [| candidate found IH]; intros usernames Hdistinct;
    cbn [fold_left].
  - split; [exact Hdistinct |]. intros username. cbn [In]. tauto.
  - destruct candidate as [member |].
    + destruct (String.eqb_spec member "") as [-> | Hmember]; cbn [negb].
      * destruct (IH usernames Hdistinct) as [Hnodup Hin].
        split; [exact Hnodup |]. intros username. rewrite Hin. cbn [In].
        intuition congruence.
      * destruct (IH (set_add member usernames)
                    (set_add_NoDup member usernames Hdistinct)) as [Hnodup Hin].
        split; [exact Hnodup |]. intros username.
        rewrite Hin, set_add_In. cbn [In]. split.
        -- intros [[-> | H] | H]; [right; split; auto | tauto | tauto].
        -- intros [H | [Hne [E | H]]]; [tauto | | tauto].
           injection E as ->. tauto.
    + destruct (IH usernames Hdistinct) as [Hnodup Hin].
      split; [exact Hnodup |]. intros username. rewrite Hin. cbn [In].
      intuition discriminate.
Qed.

Lemma username_of_pieces (jar : Jar) :
  forallb plain_entry jar = true ->
  jar <> [] ->
  map username_of_piece (split_semicolons (document_cookie jar))
  = map saved_name jar.
Proof.
  intros Hplain Hjar. rewrite split_document_cookie by exact Hplain.
  destruct jar as [| entry rest]; [congruence |].
  cbn [forallb] in Hplain. apply andb_true_iff in Hplain.
  destruct Hplain as [Hentry Hrest]. cbn [map]. f_equal.
  - now apply username_of_entry; [| left].
  - clear Hjar Hentry. induction rest as [| e rest IH]; [reflexivity |].
    cbn [forallb] in Hrest. apply andb_true_iff in Hrest.
    destruct Hrest as [He Hrest]. cbn [map]. f_equal; [| now apply IH].
    now apply username_of_entry; [| right].
Qed.

Lemma getAllSavedUsers_collect (jar : Jar) :
  getAllSavedUsers jar
  = collect (map username_of_piece (split_semicolons (document_cookie jar))) [].
Proof. unfold getAllSavedUsers, collect. now rewrite fold_left_map. Qed.

Lemma saved_name_In (username : string) (jar : Jar) :
  In (Some username) (map saved_name jar)
  <-> In (userToken_name username) (map fst jar).
Proof.
  rewrite !in_map_iff. unfold saved_name. split.
  - intros (entry & Hname & Hin). exists entry. split; [| exact Hin].
    destruct (startsWith (fst entry) "userToken_") eqn:Hstart;
      [| discriminate Hname].
    injection Hname as <-. symmetry. now apply userToken_name_of_slice.
  - intros (entry & Hname & Hin). exists entry. split; [| exact Hin].
    rewrite Hname. unfold startsWith, userToken_name.
    rewrite prefix_app. f_equal.
    exact (slice_after_prefix "userToken_" username).
Qed.

(** X15.  On a jar of plain entries, [getAllSavedUsers] lists a username
    exactly when the username is not empty and the jar has a token entry
    for it, whether or not a record is stored for it; it lists no username
    twice.  So it lists every account of [getAllUserTokens] but the one
    with the empty username. *)
Theorem getAllSavedUsers_lists_tokens (jar : Jar) :
  forallb plain_entry jar = true ->
  NoDup (getAllSavedUsers jar)
  /\ (forall username,
        In username (getAllSavedUsers jar)
        <-> username <> "" /\ In (userToken_name username) (map fst jar))
  /\ forall (J : JSON) account,
       In account (getAllUserTokens jar) ->
       CookieUtils.username account <> "" ->
       In (CookieUtils.username account) (getAllSavedUsers jar).
Proof.
  intros Hplain.
  assert (Hlist : getAllSavedUsers jar = collect (map saved_name jar) []).
  { rewrite getAllSavedUsers_collect. destruct jar as [| entry rest] eqn:Hjar.
    - reflexivity.
    - rewrite <- Hjar in *. rewrite username_of_pieces; [reflexivity | | ].
      + exact Hplain.
      + rewrite Hjar. discriminate. }
  destruct (collect_spec (map saved_name jar) [] (NoDup_nil _)) as [Hnodup Hin].
  assert (Hmember : forall username,
            In username (getAllSavedUsers jar)
            <-> username <> "" /\ In (userToken_name username) (map fst jar)).
  { intros username. rewrite Hlist, Hin, saved_name_In. cbn [In]. tauto. }
  split; [now rewrite Hlist | split; [exact Hmember |]].
  intros J account Haccount Hname. apply Hmember. split; [exact Hname |].
  pose proof (getAllUserTokens_names jar jar) as Hnames.
  fold (getAllUserTokens jar) in Hnames.
  assert (Hthere : In (userToken_name (CookieUtils.username account))
                     (map (fun a => userToken_name (CookieUtils.username a))
                        (getAllUserTokens jar))).
  { apply in_map_iff. eauto. }
  rewrite Hnames in Hthere. now apply filter_In in Hthere.
Qed.

Lemma getAllSavedUsers_lists_tokens_witness :
  NoDup (getAllSavedUsers
           [("userToken_alice", "t1"); ("theme", "dark"); ("userToken_", "t2")])
  /\ In "alice"
       (getAllSavedUsers
          [("userToken_alice", "t1"); ("theme", "dark"); ("userToken_", "t2")]).
Proof.
  destruct (getAllSavedUsers_lists_tokens
              [("userToken_alice", "t1"); ("theme", "dark"); ("userToken_", "t2")])
    as (Hnodup & Hmember & _); [reflexivity |].
  split; [exact Hnodup |]. apply Hmember.
  split; [discriminate | now left].
Defined.

(** *** Stored records *)

Lemma split_equals_head (text : string) :
  exists rest, split_equals text = before_equals text :: rest.
Proof.
  unfold before_equals.
  induction text as [| c text [rest IH]]; cbn [split_equals take_while].
  - now exists [].
  - destruct (Ascii.eqb c "="); cbn [negb]; [eauto |].
    rewrite IH. eauto.
Qed.

Lemma split_equals_name (name value : string) :
  lacks "=" name = true ->
  split_equals (name ++ String "=" value) = name :: split_equals value.
Proof.
  induction name as [| c name IH]; intros Hname.
  - reflexivity.
  - rewrite lacks_cons in Hname. apply andb_true_iff in Hname.
    destruct Hname as [Hc Hname]. apply negb_true_iff in Hc.
    cbn [append split_equals]. rewrite Hc. now rewrite IH.
Qed.

Lemma trim_piece (entry : string * string) (piece : string) :
  plain_entry entry = true ->
  (piece = render_entry entry \/ piece = " " ++ render_entry entry) ->
  trim piece = fst entry ++ String "=" (trim_back (snd entry)).
Proof.
  intros Hentry Hpiece.
  unfold plain_entry, plain_name in Hentry.
  rewrite !andb_true_iff, negb_true_iff in Hentry.
  destruct Hentry as [[[_ Heq] Hspace] _].
  unfold trim.
  destruct Hpiece as [-> | ->]; unfold render_entry;
    cbn [append skip_spaces is_space N_of_ascii];
    cbn -[skip_spaces trim_back append];
    rewrite skip_spaces_plain by exact Hspace;
    apply trim_back_keeps_name.
Qed.

Section WithRuntime.
Context {J : JSON} {U : URI}.

Lemma stored_user_entry (entry : string * string) (piece : string) :
  plain_entry entry = true ->
  (piece = render_entry entry \/ piece = " " ++ render_entry entry) ->
  stored_user piece = read_entry entry.
Proof.
  intros Hentry Hpiece. unfold stored_user, read_entry.
  rewrite (trim_piece entry piece Hentry Hpiece).
  unfold plain_entry, plain_name in Hentry.
  rewrite !andb_true_iff in Hentry. destruct Hentry as [[[_ Heq] _] _].
  rewrite split_equals_name by exact Heq. cbn [hd nth_error].
  destruct (split_equals_head (trim_back (snd entry))) as [rest ->].
  reflexivity.
Qed.

(** X17.  On a jar of plain entries, [getAllStoredUsers] returns, in the
    order of the jar, the records that the entries named [userData_...]
    hold, leaving out those whose value does not decode or does not parse.
    It reads each value only up to its first ['='], and without the white
    space at its end. *)
Theorem getAllStoredUsers_reads (jar : Jar) :
  forallb plain_entry jar = true ->
  getAllStoredUsers jar = flat_map read_entry jar.
Proof.
  intros Hplain. unfold getAllStoredUsers.
  rewrite split_document_cookie by exact Hplain.
  destruct jar as [| entry rest]; [reflexivity |].
  cbn [forallb] in Hplain. apply andb_true_iff in Hplain.
  destruct Hplain as [Hentry Hrest]. cbn [flat_map].
  rewrite (stored_user_entry entry) by (assumption || now left). f_equal.
  induction rest as [| e rest IH]; [reflexivity |].
  cbn [forallb] in Hrest. apply andb_true_iff in Hrest.
  destruct Hrest as [He Hrest]. cbn [map flat_map].
  rewrite (stored_user_entry e) by (assumption || now right).
  now rewrite IH.
Qed.

(** X16.  [cleanupInvalidUsers] never deletes anything.  If none of the
    records that [getAllStoredUsers] returns needs migration it does
    nothing; otherwise it raises a [TypeError] at the first record that
    does, because [CookieUtils] has no function [deleteUserData], and the
    token, the data and the avatar of that record stay in the jar. *)
Theorem cleanupInvalidUsers_deletes_nothing (jar : Jar) :
  snd (cleanupInvalidUsers jar) = jar
  /\ (fst (cleanupInvalidUsers jar) = Return tt
      /\ (forall user, In user (getAllStoredUsers jar) ->
            needsMigration user = Return false)
      \/ fst (cleanupInvalidUsers jar) = Throw TypeError
         /\ exists user,
              In user (getAllStoredUsers jar)
              /\ needsMigration user = Return true).
Proof.
  unfold cleanupInvalidUsers. generalize (getAllStoredUsers jar) as users.
  induction users as [| user users IH]; cbn [cleanup_loop].
  - split; [reflexivity |]. left. split; [reflexivity |]. intros user [].
  - destruct (needsMigration_returns user) as [[] Hneeds]; rewrite Hneeds.
    + split; [reflexivity |]. right. split; [reflexivity |].
      exists user. split; [now left | exact Hneeds].
    + destruct IH as [Hjar [[Hrun Hall] | [Hrun (bad & Hin & Hbad)]]];
        (split; [exact Hjar |]).
      * left. split; [exact Hrun |]. intros u [<- | Hu]; auto.
      * right. split; [exact Hrun |]. exists bad. split; [now right | exact Hbad].
Qed.

End WithRuntime.

Import ConcreteJSON ConcreteJSONFacts ConcreteURI.

Lemma getAllStoredUsers_reads_witness :
  getAllStoredUsers
    [("userToken_ann", "t1");
     ("userData_ann", stringify (JsObj [("username", JsStr "ann")]));
     ("userData_bob", "{}  ")]
  = [JsObj [("username", JsStr "ann")]; JsObj []].
Proof.
  rewrite (getAllStoredUsers_reads
             [("userToken_ann", "t1");
              ("userData_ann", stringify (JsObj [("username", JsStr "ann")]));
              ("userData_bob", "{}  ")]);
    reflexivity.
Defined.

(** A record whose text holds an ['='] is returned by [getUserData] and
    passed over by [getAllStoredUsers], and a record written with an escape
    is read one way by the first and another way by the second. *)
Example stored_users_and_user_data_disagree :
  let record := JsObj [("email", JsStr "b=1")] in
  let jar := [("userData_bob", stringify record);
              ("userData_eve", stringify (JsObj [("username", JsStr "50%25")]))] in
  getUserData "bob" jar = record
  /\ getUserData "eve" jar = JsObj [("username", JsStr "50%25")]
  /\ getAllStoredUsers jar = [JsObj [("username", JsStr "50%")]].
Proof. vm_compute. repeat split. Qed.

End SavedUsersFacts.

(** ** storageUtils *)

Module StorageFacts.
Import Js JsFacts JsConversions CookieUtils DocumentCookie CookieTerms JarFacts.
Import AvatarFacts DeleteFacts StorageUtils.
Import UserUtilsRest (is_nullish).

Lemma getItem_setItem_same (key value : string) (st : Storage) :
  getItem key (setItem key value st) = Some value.
Proof. apply jar_find_put_same. Qed.

Lemma getItem_setItem_other (key key' value : string) (st : Storage) :
  key <> key' -> getItem key (setItem key' value st) = getItem key st.
Proof. apply jar_find_put_other. Qed.

Lemma getItem_removeItem_same (key : string) (st : Storage) :
  getItem key (removeItem key st) = None.
Proof. apply jar_find_remove_same. Qed.


Section WithJSON.
Context {J : JSON} {L : JSONLaws}.

Lemma stringify_text_parses (value : JsVal) :
  value <> JsUndefined ->
  JSON_parse (JSON_stringify value) = Return value ->
  stringify_text value <> ""
  /\ JSON_parse (stringify_text value) = Return value.
Proof.
  intros Hdefined Hparse.
  assert (Htext : stringify_text value = JSON_stringify value).
  { destruct value; try reflexivity. congruence. }
  rewrite Htext. split; [| exact Hparse].
  intros E. rewrite E in Hparse. now apply parse_empty in Hparse.
Qed.

Lemma local_text_then_get (key : string) (value options defaultValue : JsVal)
  (st : Storage) :
  cookie_includes key = false ->
  stringify_text value <> "" ->
  JSON_parse (stringify_text value) = Return value ->
  get key defaultValue (snd (set key value options st)) = value.
Proof.
  intros Hlocal Hne Hread. unfold set, get. rewrite Hlocal. cbn [snd].
  rewrite getItem_setItem_same, truthy_str_Some by exact Hne.
  now rewrite Hread.
Qed.

Lemma local_set_then_get (key : string) (value options defaultValue : JsVal)
  (st : Storage) :
  cookie_includes key = false ->
  value <> JsUndefined ->
  JSON_parse (JSON_stringify value) = Return value ->
  get key defaultValue (snd (set key value options st)) = value.
Proof.
  intros Hlocal Hdefined Hparse.
  destruct (stringify_text_parses value Hdefined Hparse) as [Hne Hread].
  now apply local_text_then_get.
Qed.

(** X18.  Under a key that the strategy keeps in [localStorage], [set]
    returns [true] and [get] then returns the value that was set, for
    every value but [undefined] that [JSON] writes and reads back.  The
    cookies and the items under other keys are as they were.  After
    [set(key, undefined)], [get] returns the default value. *)
Theorem local_item_round_trip (key : string) (value options defaultValue : JsVal)
  (st : Storage) :
  cookie_includes key = false ->
  let st' := snd (set key value options st) in
  fst (set key value options st) = JsBool true
  /\ cookies st' = cookies st
  /\ (forall other, other <> key -> getItem other st' = getItem other st)
  /\ (value <> JsUndefined ->
      JSON_parse (JSON_stringify value) = Return value ->
      get key defaultValue st' = value)
  /\ (value = JsUndefined ->
      (forall v, JSON_parse "undefined" <> Return v) ->
      get key defaultValue st' = default_null defaultValue).
Proof.
  intros Hlocal st'. subst st'. repeat split.
  - unfold set. now rewrite Hlocal.
  - unfold set. now rewrite Hlocal.
  - intros other Hother. unfold set. rewrite Hlocal.
    now apply getItem_setItem_other.
  - intros Hdefined Hparse.
    exact (local_set_then_get key value options defaultValue st
             Hlocal Hdefined Hparse).
  - intros -> Hbad. unfold set, get. rewrite Hlocal.
    cbn [snd stringify_text]. rewrite getItem_setItem_same.
    cbn [truthy_str String.eqb negb].
    destruct (JSON_parse "undefined") as [v | e]; [| reflexivity].
    exfalso. exact (Hbad v eq_refl).
Qed.

(** X19.  Under a key that the strategy keeps in a cookie, [set] never
    returns [true]: it returns [undefined] when it has stored the value
    and [false] when [options] is [null], in which case nothing is stored.
    The cookie is stored whatever [options.expires] says.  A string is
    stored as it is, and [get] returns it parsed if it reads as JSON:
    only a string that is not JSON comes back as the string it was.  What
    is said of a value that is stored is said of one whose text the
    browser keeps as it is given (printable characters other than [';'],
    no blank at either end). *)
Theorem cookie_item_is_reinterpreted (key : string) (value options defaultValue : JsVal)
  (st : Storage) :
  cookie_includes key = true ->
  let st' := snd (set key value options st) in
  (options = JsNull -> set key value options st = (JsBool false, st))
  /\ (options <> JsNull ->
      kept_value (cookie_text value) = true ->
      fst (set key value options st) = JsUndefined
      /\ localStorage st' = localStorage st
      /\ getCookie key (cookies st') = Some (cookie_text value)
      /\ (forall other, lacks "=" other = true -> other <> key ->
            getCookie other (cookies st') = getCookie other (cookies st))
      /\ (forall parsed,
            JSON_parse (cookie_text value) = Return parsed ->
            get key defaultValue st' = parsed)
      /\ (forall e,
            JSON_parse (cookie_text value) = Throw e ->
            get key defaultValue st' = JsStr (cookie_text value))).
Proof.
  intros Hcookie st'. subst st'. unfold set, get. rewrite Hcookie. split.
  - intros ->. reflexivity.
  - intros Hoptions _.
    assert (Hnull : is_nullish (default_options options) = false).
    { destruct options; try reflexivity. congruence. }
    rewrite Hnull. cbn [fst snd with_cookies cookies localStorage get_prop
                        lookup_prop String.eqb Ascii.eqb Bool.eqb js_or truthy
                        Z.eqb negb].
    rewrite getCookie_setCookie_same by lia.
    repeat split.
    + intros other _ Hother. now apply getCookie_setCookie_other.
    + intros parsed ->. reflexivity.
    + intros e ->. reflexivity.
Qed.

Lemma cookies_removeItem (key : string) (st : Storage) :
  cookies (removeItem key st) = cookies st.
Proof. reflexivity. Qed.






Lemma migrate_value_reads (key from to : string) (value : JsVal) (st : Storage) :
  let st' := migrate_value key from to value st in
  (String.eqb from "localStorage" = true -> getItem key st' = None)
  /\ (String.eqb from "localStorage" = false ->
      getCookie key (cookies st') = None)
  /\ (String.eqb from "localStorage" = true ->
      String.eqb to "localStorage" = false ->
      getCookie key (cookies st') = Some (cookie_text value)).
Proof.
  intros st'. subst st'. unfold migrate_value. repeat split.
  - intros ->. apply getItem_removeItem_same.
  - intros ->. cbn [with_cookies cookies]. apply getCookie_deleteCookie_same.
  - intros -> ->. cbn [removeItem with_cookies cookies].
    now apply getCookie_setCookie_same.
Qed.

(** X21.  For a key that the browser keeps as a name as it is given
    (printable characters other than [';'], ['='] and the blank, not empty
    and not starting with two underscores): [migrate] returns [false] and
    changes nothing when it finds no value at the source, and [true]
    otherwise.  When it returns [true] the key is gone from the source,
    also when the source is the target, so that migrating within one store
    loses the value.  A key that the strategy keeps in [localStorage] and
    that is migrated to a cookie is no longer found by [get] or [has],
    which go on looking in [localStorage]; the cookie holds the text of
    the value, if that is a text that the browser keeps as it is given. *)
Theorem migrate_loses_sight (key from to : string) (st : Storage) :
  kept_name key = true ->
  let result := fst (migrate key from to st) in
  let st' := snd (migrate key from to st) in
  (result = JsBool true \/ result = JsBool false /\ st' = st)
  /\ (result = JsBool true ->
      (String.eqb from "localStorage" = true -> getItem key st' = None)
      /\ (String.eqb from "localStorage" = false ->
          getCookie key (cookies st') = None)
      /\ (String.eqb from "localStorage" = true ->
          String.eqb to "localStorage" = false ->
          (exists value,
             migrate_source key from st = Return value
             /\ (kept_value (cookie_text value) = true ->
                 getCookie key (cookies st') = Some (cookie_text value)))
          /\ (cookie_includes key = false ->
              has key st' = false
              /\ forall defaultValue,
                   get key defaultValue st' = default_null defaultValue))).
Proof.
  intros _ result st'. subst result st'. unfold migrate.
  destruct (migrate_source key from st) as [value | e] eqn:Hsource;
    [| split; [right; split; reflexivity | intros H; discriminate H]].
  assert (Hmoved :
    (JsBool true = JsBool true
     \/ JsBool true = JsBool false /\ migrate_value key from to value st = st)
    /\ (JsBool true = JsBool true ->
        (String.eqb from "localStorage" = true ->
         getItem key (migrate_value key from to value st) = None)
        /\ (String.eqb from "localStorage" = false ->
            getCookie key (cookies (migrate_value key from to value st)) = None)
        /\ (String.eqb from "localStorage" = true ->
            String.eqb to "localStorage" = false ->
            (exists value0,
               Return value = Return value0
               /\ (kept_value (cookie_text value0) = true ->
                   getCookie key (cookies (migrate_value key from to value st))
                   = Some (cookie_text value0)))
            /\ (cookie_includes key = false ->
                has key (migrate_value key from to value st) = false
                /\ forall defaultValue,
                     get key defaultValue (migrate_value key from to value st)
                     = default_null defaultValue)))).
  { destruct (migrate_value_reads key from to value st)
      as (Hlocal & Hcookie & Htarget).
    split; [now left |]. intros _.
    split; [exact Hlocal |]. split; [exact Hcookie |].
    intros Hfrom Hto. split; [exists value; auto |].
    intros Hstrategy. unfold has, get.
    rewrite Hstrategy, (Hlocal Hfrom). split; reflexivity. }
  destruct value; try exact Hmoved.
  split; [right; split; reflexivity | intros H; discriminate H].
Qed.

End WithJSON.

Import ConcreteJSON ConcreteJSONFacts.

Lemma local_item_round_trip_witness :
  get "theme" JsNull
    (snd (set "theme" (JsObj [("mode", JsStr "dark")]) JsUndefined
            {| cookies := []; localStorage := [] |}))
  = JsObj [("mode", JsStr "dark")].
Proof.
  destruct (local_item_round_trip (L := runtime_laws) "theme"
              (JsObj [("mode", JsStr "dark")]) JsUndefined JsNull
              {| cookies := []; localStorage := [] |} eq_refl)
    as (_ & _ & _ & Hback & _).
  apply Hback; [discriminate | reflexivity].
Defined.

Lemma cookie_item_is_reinterpreted_witness :
  get "username" JsNull
    (snd (set "username" (JsStr "[]") JsUndefined
            {| cookies := []; localStorage := [] |}))
  = JsArr [] [].
Proof.
  destruct (cookie_item_is_reinterpreted (J := runtime) "username" (JsStr "[]")
              JsUndefined JsNull {| cookies := []; localStorage := [] |} eq_refl)
    as (_ & Hstored).
  destruct Hstored as (_ & _ & _ & _ & Hparsed & _);
    [discriminate | reflexivity |].
  apply Hparsed. reflexivity.
Defined.

Lemma migrate_loses_sight_witness :
  let st :=
    {| cookies := [];
       localStorage :=
         [("theme", stringify (JsObj [("mode", JsStr "dark")]))] |} in
  fst (migrate "theme" "localStorage" "cookie" st) = JsBool true
  /\ getItem "theme" (snd (migrate "theme" "localStorage" "cookie" st)) = None
  /\ get "theme" JsNull (snd (migrate "theme" "localStorage" "cookie" st))
     = JsNull.
Proof.
  cbv zeta.
  destruct (migrate_loses_sight (J := runtime) "theme" "localStorage" "cookie"
              {| cookies := [];
                 localStorage :=
                   [("theme", stringify (JsObj [("mode", JsStr "dark")]))] |}
              eq_refl)
    as (_ & Hmoved).
  destruct (Hmoved eq_refl) as (Hgone & _ & Hcookie).
  destruct (Hcookie eq_refl eq_refl) as (_ & Hlost).
  split; [reflexivity |].
  split; [exact (Hgone eq_refl) |].
  exact (proj2 (Hlost eq_refl) JsNull).
Defined.

End StorageFacts.

(** ** HistoryUtils *)

Module HistoryFacts.
Import Js JsFacts JsConversions CookieUtils CookieTerms JarFacts AvatarFacts.
Import StorageUtils HistoryUtils StorageFacts UserTerms.
Import UserRestFacts (lookup_assign_same, lookup_assign_other, lookup_spread).

Section WithJSON.
Context {J : JSON}.

(** The text of an array is never empty. *)
Hypothesis array_text :
  forall elems props, JSON_stringify (JsArr elems props) <> "".

Lemma findIndex_none (item : JsVal) (history : list JsVal) :
  (forall h, In h history -> same_entry item h = Return false) ->
  forall index, findIndex item history index = Return None.
Proof.
  induction history as [| h rest IH]; intros Hnone index; cbn [findIndex];
    [reflexivity |].
  rewrite (Hnone h) by now left. cbn [bind].
  apply IH. intros x Hx. apply Hnone. now right.
Qed.

Lemma findIndex_found (item h : JsVal) (before after : list JsVal) :
  (forall x, In x before -> same_entry item x = Return false) ->
  same_entry item h = Return true ->
  forall index,
    findIndex item (before ++ h :: after) index
    = Return (Some (index + List.length before)%nat).
Proof.
  intros Hbefore Hsame.
  induction before as [| x before IH]; intros index; cbn [app findIndex List.length].
  - rewrite Hsame. cbn [bind]. now rewrite Nat.add_0_r.
  - rewrite (Hbefore x) by now left. cbn [bind].
    rewrite IH by (intros y Hy; apply Hbefore; now right).
    cbn [List.length]. now rewrite Nat.add_succ_r.
Qed.

Lemma replace_at_middle (h h' : JsVal) (before after : list JsVal) :
  replace_at (List.length before) h' (before ++ h :: after)
  = (before ++ h' :: after)%list.
Proof.
  induction before as [| x before IH]; cbn [app List.length replace_at];
    [reflexivity | now rewrite IH].
Qed.

Lemma nth_middle_entry (h : JsVal) (before after : list JsVal) :
  nth (List.length before) (before ++ h :: after) JsUndefined = h.
Proof.
  induction before as [| x before IH]; cbn [app List.length nth];
    [reflexivity | exact IH].
Qed.

Lemma next_history_shape (item : JsVal) (now : string) (history next : JsVal) :
  next_history item now history = Return next ->
  exists entries, next = JsArr (firstn 50 entries) [].
Proof.
  unfold next_history, call_method. intros H.
  destruct history as [| | | | | | elems props]; try discriminate H.
  destruct (has_own "findIndex" props); [discriminate H |].
  destruct (findIndex item elems 0) as [[index |] | e]; cbn [bind] in H;
    try discriminate H.
  - destruct (visit_again (nth index elems JsUndefined) now) as [h | e];
      cbn [bind] in H; [| discriminate H].
    destruct (has_own "slice" props); [discriminate H |].
    exists (replace_at index h elems). congruence.
  - destruct (has_own "unshift" props); cbn [bind] in H; [discriminate H |].
    destruct (has_own "slice" props); [discriminate H |].
    exists (first_visit item now :: elems). congruence.
Qed.

(** X24.  [addToHistory] either raises and leaves the storage as it was,
    or stores under ['browsingHistory'] the text of an array of at most 50
    entries and touches nothing else: neither a cookie nor an item under
    another key. *)
Theorem history_stays_bounded (item : JsVal) (now : string) (st : Storage) :
  (exists e, addToHistory item now st = (Throw e, st))
  \/ (exists entries,
        fst (addToHistory item now st) = Return tt
        /\ getItem "browsingHistory" (snd (addToHistory item now st))
           = Some (JSON_stringify (JsArr entries []))
        /\ (List.length entries <= 50)%nat
        /\ cookies (snd (addToHistory item now st)) = cookies st
        /\ forall key,
             key <> "browsingHistory" ->
             getItem key (snd (addToHistory item now st)) = getItem key st).
Proof.
  unfold addToHistory.
  destruct (getHistory st) as [history | e]; cbn [bind]; [| left; eauto].
  destruct (next_history item now history) as [next | e] eqn:Hnext;
    [| left; eauto].
  destruct (next_history_shape _ _ _ _ Hnext) as [entries ->].
  right. exists (firstn 50 entries). cbn [fst snd].
  split; [reflexivity |]. split; [apply getItem_setItem_same |].
  split; [apply firstn_le_length |]. split; [reflexivity |].
  intros key Hkey. now apply getItem_setItem_other.
Qed.

(** A history that is written is the history read next. *)
Lemma history_written (history : list JsVal) (st : Storage) :
  JSON_parse (JSON_stringify (JsArr history [])) = Return (JsArr history []) ->
  let st' := snd (safe_set "browsingHistory" (JsArr history []) st) in
  getHistory st' = Return (JsArr history [])
  /\ cookies st' = cookies st
  /\ forall key, key <> "browsingHistory" -> getItem key st' = getItem key st.
Proof.
  intros Hparse st'. subst st'.
  unfold safe_set. repeat split.
  - unfold getHistory, safe_get. cbn [default_null].
    rewrite (local_text_then_get "browsingHistory" (JsArr history []));
      [reflexivity | reflexivity | apply array_text | exact Hparse].
  - intros key Hkey. now apply getItem_setItem_other.
Qed.

(** X22.  An item that matches no entry of the history, by [id] and
    [type], is entered in front with a visit count of 1, the present time,
    and, if the item is an object, its other properties; the history is
    cut to its first 50 entries, so that the oldest entry is dropped from
    a full one.  The history read next is the one so made, and no cookie
    is touched. *)
Theorem first_visit_goes_in_front (item : JsVal) (now : string)
  (history : list JsVal) (st : Storage) :
  getHistory st = Return (JsArr history []) ->
  (forall h, In h history -> same_entry item h = Return false) ->
  JSON_parse
    (JSON_stringify (JsArr (firstn 50 (first_visit item now :: history)) []))
  = Return (JsArr (firstn 50 (first_visit item now :: history)) []) ->
  let st' := snd (addToHistory item now st) in
  fst (addToHistory item now st) = Return tt
  /\ getHistory st'
     = Return (JsArr (firstn 50 (first_visit item now :: history)) [])
  /\ (List.length (firstn 50 (first_visit item now :: history)) <= 50)%nat
  /\ get_prop (first_visit item now) "visitCount" = JsNum (Num 1)
  /\ get_prop (first_visit item now) "lastVisited" = JsStr now
  /\ (forall props field,
        item = JsObj props ->
        field <> "visitCount" -> field <> "lastVisited" ->
        get_prop (first_visit item now) field = lookup_prop field props)
  /\ cookies st' = cookies st.
Proof.
  intros Hhistory Hnone Hparse st'. subst st'.
  assert (Hrun : addToHistory item now st
                 = (Return tt,
                    snd (safe_set "browsingHistory"
                           (JsArr (firstn 50 (first_visit item now :: history)) [])
                           st))).
  { unfold addToHistory. rewrite Hhistory. cbn [bind next_history].
    unfold call_method. cbn [has_own existsb].
    rewrite findIndex_none by exact Hnone. reflexivity. }
  rewrite Hrun. cbn [fst snd].
  destruct (history_written _ st Hparse) as (Hread & Hcookies & _).
  split; [reflexivity |]. split; [exact Hread |].
  split; [apply firstn_le_length |].
  unfold first_visit. cbn [get_prop]. repeat split.
  - rewrite lookup_assign_other by discriminate. apply lookup_assign_same.
  - apply lookup_assign_same.
  - intros props field -> Hcount Hlast. cbn [spread_props].
    now rewrite !lookup_assign_other by assumption.
Qed.

(** X23.  An item that matches an entry of the history leaves the entry
    where it is: the history keeps its order, and the entry, an object,
    is given the present time and a visit count one above the one it had,
    or 2 if it had none or a falsy one.  The history read next is the one
    so made. *)
Theorem revisit_stays_in_place (item : JsVal) (props : list (string * JsVal))
  (now : string) (before after : list JsVal) (count : Z) (st : Storage) :
  getHistory st = Return (JsArr (before ++ JsObj props :: after) []) ->
  (forall h, In h before -> same_entry item h = Return false) ->
  same_entry item (JsObj props) = Return true ->
  (truthy (lookup_prop "visitCount" props) = false /\ count = 1
   \/ lookup_prop "visitCount" props = JsNum (Num count)
      /\ count <> 0 /\ safe_integer count /\ safe_integer (count + 1)) ->
  let visited :=
    JsObj
      (assign_prop "lastVisited" (JsStr now)
         (assign_prop "visitCount" (JsNum (Num (count + 1))) props)) in
  let history := JsArr (firstn 50 (before ++ visited :: after)) [] in
  JSON_parse (JSON_stringify history) = Return history ->
  let st' := snd (addToHistory item now st) in
  fst (addToHistory item now st) = Return tt
  /\ getHistory st' = Return history
  /\ cookies st' = cookies st.
Proof.
  intros Hhistory Hbefore Hsame Hcount visited history Hparse st'.
  subst st'.
  assert (Hvisit : visit_again (JsObj props) now = Return visited).
  { unfold visit_again. cbn [get_prop].
    assert (Hplus : js_plus (js_or (lookup_prop "visitCount" props) (JsNum (Num 1)))
                      (JsNum (Num 1)) = Return (JsNum (Num (count + 1)))).
    { destruct Hcount as [[Hfalsy ->] | (-> & Hnz & _)]; unfold js_or.
      - now rewrite Hfalsy.
      - cbn [truthy]. destruct (Z.eqb_spec count 0); [contradiction |].
        reflexivity. }
    rewrite Hplus. reflexivity. }
  assert (Hrun : addToHistory item now st
                 = (Return tt, snd (safe_set "browsingHistory" history st))).
  { unfold addToHistory. rewrite Hhistory. cbn [bind next_history].
    unfold call_method. cbn [has_own existsb].
    rewrite (findIndex_found item (JsObj props) before after Hbefore Hsame).
    cbn [bind Nat.add]. rewrite nth_middle_entry, Hvisit. cbn [bind].
    now rewrite replace_at_middle. }
  rewrite Hrun. cbn [fst snd].
  destruct (history_written _ st Hparse) as (Hread & Hcookies & _).
  repeat split; assumption.
Qed.

End WithJSON.

Import ConcreteJSON FullJSON.

Lemma stringify_array_text (elems : list JsVal) (props : list (string * JsVal)) :
  stringify (JsArr elems props) <> "".
Proof. cbn [stringify append]. discriminate. Qed.

(** An item that is a string is entered as an object with its characters,
    and without its [length]. *)
Example a_string_item_loses_its_length :
  let entry := first_visit (JsStr "ab") "2024-05-01T08:00:00.000Z" in
  get_prop (JsStr "ab") "length" = JsNum (Num 2)
  /\ get_prop entry "length" = JsUndefined
  /\ get_prop entry "1" = get_prop (JsStr "ab") "1"
  /\ get_prop entry "1" = JsStr "b".
Proof. repeat split. Qed.

Lemma first_visit_goes_in_front_witness :
  getHistory
    (snd (addToHistory (JsObj [("id", JsStr "algebra"); ("type", JsStr "subject")])
            "2024-05-01T08:00:00.000Z" {| cookies := []; localStorage := [] |}))
  = Return
      (JsArr
         [JsObj [("id", JsStr "algebra"); ("type", JsStr "subject");
                 ("visitCount", JsNum (Num 1));
                 ("lastVisited", JsStr "2024-05-01T08:00:00.000Z")]] []).
Proof.
  destruct (first_visit_goes_in_front (J := full) stringify_array_text
              (JsObj [("id", JsStr "algebra"); ("type", JsStr "subject")])
              "2024-05-01T08:00:00.000Z" []
              {| cookies := []; localStorage := [] |})
    as (_ & Hread & _).
  - reflexivity.
  - intros h [].
  - reflexivity.
  - exact Hread.
Defined.

Lemma revisit_stays_in_place_witness :
  let entry id count :=
    JsObj [("id", JsStr id); ("type", JsStr "subject");
           ("visitCount", JsNum (Num count));
           ("lastVisited", JsStr "2024-05-01T08:00:00.000Z")] in
  let st :=
    snd (safe_set "browsingHistory"
           (JsArr [entry "geometry" 1; entry "algebra" 3] [])
           {| cookies := []; localStorage := [] |}) in
  getHistory
    (snd (addToHistory (JsObj [("id", JsStr "algebra"); ("type", JsStr "subject")])
            "2024-05-02T09:30:00.000Z" st))
  = Return
      (JsArr
         [entry "geometry" 1;
          JsObj [("id", JsStr "algebra"); ("type", JsStr "subject");
                 ("visitCount", JsNum (Num 4));
                 ("lastVisited", JsStr "2024-05-02T09:30:00.000Z")]] []).
Proof.
  cbv zeta.
  destruct (revisit_stays_in_place (J := full) stringify_array_text
              (JsObj [("id", JsStr "algebra"); ("type", JsStr "subject")])
              [("id", JsStr "algebra"); ("type", JsStr "subject");
               ("visitCount", JsNum (Num 3));
               ("lastVisited", JsStr "2024-05-01T08:00:00.000Z")]
              "2024-05-02T09:30:00.000Z"
              [JsObj [("id", JsStr "geometry"); ("type", JsStr "subject");
                      ("visitCount", JsNum (Num 1));
                      ("lastVisited", JsStr "2024-05-01T08:00:00.000Z")]]
              [] 3
              (snd (safe_set "browsingHistory"
                      (JsArr
                         [JsObj [("id", JsStr "geometry"); ("type", JsStr "subject");
                                 ("visitCount", JsNum (Num 1));
                                 ("lastVisited", JsStr "2024-05-01T08:00:00.000Z")];
                          JsObj [("id", JsStr "algebra"); ("type", JsStr "subject");
                                 ("visitCount", JsNum (Num 3));
                                 ("lastVisited", JsStr "2024-05-01T08:00:00.000Z")]]
                         [])
                      {| cookies := []; localStorage := [] |})))
    as (_ & Hread & _).
  - vm_compute. reflexivity.
  - intros h [<- | []]. reflexivity.
  - reflexivity.
  - right. split; [reflexivity |]. split; [discriminate |]. split; reflexivity.
  - vm_compute. reflexivity.
  - exact Hread.
Defined.

End HistoryFacts.

(** ** The login screen *)

Module LoginScreenFacts.
Import Js JsFacts JsConversions IdUtils CookieUtils CookieTerms JarFacts.
Import DeleteFacts UserUtilsRest LoginScreen.
Import IdUtilsFacts (validateUserId_returns).
Import UserRestFacts (needsMigration_returns, valid_id_is_string).



Section WithJSON.
Context {J : JSON}.


End WithJSON.

Import ConcreteJSON.

(** The account deleted from the login screen is still there. *)
Example deleted_from_the_screen_and_still_there :
  let record :=
    JsObj [("id", JsStr "0092-1234"); ("username", JsStr "root")] in
  let jar := [("userToken_root", "t0k3n"); ("userData_root", stringify record)] in
  entry_id "root" jar = Return (JsStr "0092-1234")
  /\ handleDeleteUser (JsStr "0092-1234") jar = Return jar
  /\ map username (getAllUserTokens jar) = ["root"].
Proof. vm_compute. repeat split. Qed.

End LoginScreenFacts.
